(** * The Fletch bytecode engine and its foreign-function natives

    A shallow embedding of [src/vm/interpreter.cc] (the [State] and
    [Engine] classes, the opcodes of the dispatch loop that allocate,
    call, return, throw and trampoline through no-such-method, and the
    [Handle*] helpers) and of [src/vm/ffi.cc] (the foreign natives).

    Conventions of the embedding:
    - an [Object*] is one machine word, a [Z]; [reinterpret_cast] between
      [Object*], [uint8*] and [Port*] is the identity on that word;
    - the stack pointer [sp_] is the index of the top slot in the stack
      of the current coroutine, the bytecode pointer [bcp_] an address;
    - engine code runs in a state-and-error monad: [None] stands for
      behaviour C++ leaves undefined (a slot outside the stack, a failed
      cast, a violated [ASSERT]);
    - collaborators whose code lives in other files (tagging of values,
      bytecode and selector tables, allocator and collector, native
      table, stack walker) are interfaces, given as type classes. *)

From Stdlib Require Import ZArith List Bool Lia String.
From Stdlib Require Import Floats.SpecFloat.
From stdpp Require Import base option list gmap.

Local Open Scope Z_scope.

(** ** Values *)

Abbreviation Object := Z.

(** [object.h]: tagging of small integers and failure sentinels. *)
Class ObjectModel := {
  IsSmi : Object -> bool;
  Smi_FromWord : Z -> Object;
  Smi_value : Object -> Z;
  Smi_IsValid : Z -> bool;
  Smi_kMaxValue : Z;
  IsFailure : Object -> bool;
  Failure_retry_after_gc : Object;
  Failure_index_out_of_bounds : Object;
}.

(** [selectors.h]: the bit fields of a packed selector. *)
Class Selectors := {
  ArityField_decode : Z -> Z;
  IdField_decode : Z -> Z;
  KindField_decode : Z -> Z;
  SETTER : Z;
}.

(** The opcodes embedded here, named as in the [Opcode] enumeration. *)
Inductive Opcode :=
| kInvokeMethod | kInvokeMethodFast | kInvokeMethodVtable
| kInvokeNative | kInvokeNativeYield
| kReturn
| kAllocate | kAllocateUnfold | kAllocateImmutable | kAllocateImmutableUnfold
| kAllocateBoxed
| kThrow
| kIdentical | kIdenticalNonNumeric
| kEnterNoSuchMethod | kExitNoSuchMethod.

(** [bytecodes.h]: opcode numbering, opcode lengths and the
    classification of invokes. *)
Class Bytecodes := {
  Opcode_of_byte : Z -> option Opcode;
  kInvokeMethodLength : Z;
  kInvokeMethodFastLength : Z;
  kInvokeMethodVtableLength : Z;
  kInvokeNativeLength : Z;
  kInvokeNativeYieldLength : Z;
  kAllocateLength : Z;
  kAllocateImmutableLength : Z;
  kAllocateImmutableUnfoldLength : Z;
  kAllocateBoxedLength : Z;
  kIdenticalLength : Z;
  kIdenticalNonNumericLength : Z;
  kEnterNoSuchMethodLength : Z;
  IsInvokeFast : Z -> bool;
  IsInvokeVtable : Z -> bool;
  IsInvokeNormal : Z -> bool;
}.

(** ** Heap objects *)

(** A [Stack] object: its slots, and the index [top] that
    [SetTopFromPointer] records and [Pointer(top)] reads back. *)
Record Stack := { slots : list Object; top : Z }.

(** The kinds of heap object the engine looks into.  A coroutine owns
    its stack; a [None] stack is the null object in the stack slot, a
    [None] caller a coroutine for which [has_caller()] is false. *)
Inductive HeapObject :=
| HInstance (fields : list Object)
| HBoxed (value : Object)
| HArray (elements : list Object)
| HLargeInteger (value : Z)
| HDouble (value : spec_float)
| HFunction (arity : Z) (bytecode : Z)
| HClass (id : Z) (NumberOfInstanceFields : Z)
| HCoroutine (stack : option Stack) (caller : option Object).

Record Session := { is_debugging : bool }.

(** What the process does to the outside: text written to a stream, as
    a literal or as the printed form of an object, and the report of an
    uncaught exception to the debug session. *)
Inductive Stream := stdout | stderr.
Inductive Text := Literal (s : string) | Printed (o : Object).
Inductive Event :=
| Write (to : Stream) (what : Text)
| Session_UncaughtException.

(** [LookupCache::Entry] *)
Record Entry := { target : Object; tag : Z }.

Record Port := { IsLocked : bool; ref_count : Z }.

Record DebugInfo := {
  DebugInfo_ShouldBreak : Z -> Z -> bool;
  is_at_breakpoint : bool;
}.

(** ** Program and process *)

(** The program: its singletons and tables, the objects of program
    space, and the bytes of its bytecode by address. *)
Record Program := {
  null_object : Object;
  true_object : Object;
  false_object : Object;
  classes : list Object;
  dispatch_table : list Object;
  vtable : list Object;
  smi_class : Object;
  session : option Session;
  ConstantForBytecode : Z -> Object;
  ObjectFromFailure : Object -> Object;
  program_heap : gmap Z HeapObject;
  code : gmap Z Z;
}.

(** The process: its heap, the coroutine it runs, the lookup cache, the
    debug information if any, the ports and the raw memory its natives
    reach, and the events it has produced. *)
Record Process := {
  heap : gmap Z HeapObject;
  coroutine : Object;
  cache : gmap (Z * Z) Entry;
  debug_info : option DebugInfo;
  ports : gmap Z Port;
  memory : gmap Z Z;
  output : list Event;
}.

Definition set_heap (h : gmap Z HeapObject) (p : Process) : Process :=
  {| heap := h; coroutine := coroutine p; cache := cache p;
     debug_info := debug_info p; ports := ports p; memory := memory p;
     output := output p |}.

Definition set_coroutine (c : Object) (p : Process) : Process :=
  {| heap := heap p; coroutine := c; cache := cache p;
     debug_info := debug_info p; ports := ports p; memory := memory p;
     output := output p |}.

Definition set_cache (c : gmap (Z * Z) Entry) (p : Process) : Process :=
  {| heap := heap p; coroutine := coroutine p; cache := c;
     debug_info := debug_info p; ports := ports p; memory := memory p;
     output := output p |}.

Definition set_memory (m : gmap Z Z) (p : Process) : Process :=
  {| heap := heap p; coroutine := coroutine p; cache := cache p;
     debug_info := debug_info p; ports := ports p; memory := m;
     output := output p |}.

Definition emit (e : Event) (p : Process) : Process :=
  {| heap := heap p; coroutine := coroutine p; cache := cache p;
     debug_info := debug_info p; ports := ports p; memory := memory p;
     output := output p ++ [e] |}.

(** Modelled from the spec: [Process::stack] is not part of the
    sources; the stack of the process is the stack owned by the
    coroutine it runs. *)
Definition Process_stack (p : Process) : option Stack :=
  match heap p !! coroutine p with
  | Some (HCoroutine (Some st) _) => Some st
  | _ => None
  end.

(** Writing through a pointer into the current stack object. *)
Definition Process_set_stack (st : Stack) (p : Process) : Process :=
  match heap p !! coroutine p with
  | Some (HCoroutine _ c) =>
      set_heap (<[coroutine p := HCoroutine (Some st) c]> (heap p)) p
  | _ => p
  end.

(** Modelled from the spec: [Process::UpdateCoroutine] is not part of
    the sources; it switches the current stack of the process to that of
    the coroutine [c]. *)
Definition Process_UpdateCoroutine (c : Object) (p : Process) : Process :=
  set_coroutine c p.

(** An object is found in the process heap or in program space. *)
Definition object_at (prog : Program) (p : Process) (o : Object)
  : option HeapObject :=
  match heap p !! o with
  | Some h => Some h
  | None => program_heap prog !! o
  end.

(** [heap.h], [process.h], [object.h]: allocation, collection, growth
    of the stack, and the immutability bit and class of an object. *)
Class Heap := {
  Process_NewInstance : Program -> Process -> Object -> bool -> Object * Process;
  Process_NewBoxed : Program -> Process -> Object -> Object * Process;
  Process_NewInteger : Program -> Process -> Z -> Object * Process;
  Process_CollectGarbage : Program -> Process -> Process;
  Process_HandleStackOverflow : Program -> Process -> Z -> bool * Process;
  Process_stack_limit : Process -> Z;
  IsImmutable : Program -> Process -> Object -> bool;
  get_class : Program -> Process -> Object -> option Object;
}.

(** [natives.h]: a native receives the process and a pointer to its first
    argument, here the slots of the stack from that argument upwards. *)
Definition NativeFunction :=
  Program -> Process -> list Object -> option (Object * Process).

Class Natives := { kNativeTable : Z -> NativeFunction }.

(** [stack_walker.h]: the catch block for the exception in flight, as a
    catch address (0 is [NULL]) and the stack delta written through the
    out-parameter. *)
Class StackWalker := {
  ComputeCatchBlock : Program -> Process -> Z * Z;
}.

(** [process.h], [class.h]: method lookup in the class hierarchy, and the
    stub a send ends in when the class has no such method. *)
Class MethodLookup := {
  LookupMethod : Program -> Object -> Z -> option Object;
  no_such_method_stub : Program -> Object;
}.

(** ** The [State] class *)

Record State := {
  program : Program;
  process : Process;
  sp : Z;
  bcp : Z;
  yield_target : option Object;
}.

Definition set_process (p : Process) (s : State) : State :=
  {| program := program s; process := p; sp := sp s; bcp := bcp s;
     yield_target := yield_target s |}.

Definition set_sp (n : Z) (s : State) : State :=
  {| program := program s; process := process s; sp := n; bcp := bcp s;
     yield_target := yield_target s |}.

Definition set_bcp (b : Z) (s : State) : State :=
  {| program := program s; process := process s; sp := sp s; bcp := b;
     yield_target := yield_target s |}.

Definition set_yield_target (t : option Object) (s : State) : State :=
  {| program := program s; process := process s; sp := sp s; bcp := bcp s;
     yield_target := t |}.

(** The engine monad: state passing with undefined behaviour as [None]. *)
Definition M (A : Type) : Type := State -> option (A * State).

Definition ret {A} (a : A) : M A := fun s => Some (a, s).
Definition bind {A B} (m : M A) (k : A -> M B) : M B :=
  fun s => match m s with Some (a, s') => k a s' | None => None end.
Definition fail {A} : M A := fun _ => None.
Definition get : M State := fun s => Some (s, s).
Definition modify (f : State -> State) : M unit := fun s => Some (tt, f s).
Definition lift {A} (o : option A) : M A :=
  fun s => match o with Some a => Some (a, s) | None => None end.

Declare Scope engine_scope.
Delimit Scope engine_scope with engine.
Notation "x <- c1 ;; c2" := (bind c1 (fun x => c2))
  (at level 100, c1 at next level, c2 at level 200, right associativity) : engine_scope.
Notation "c1 ;; c2" := (bind c1 (fun _ => c2))
  (at level 100, c2 at level 200, right associativity) : engine_scope.
Local Open Scope engine_scope.

Definition ASSERT (b : bool) : M unit := if b then ret tt else fail.

(** Slot [i] of a stack; indices outside the stack are undefined. *)
Definition slot_at (st : Stack) (i : Z) : option Object :=
  if decide (0 <= i) then slots st !! Z.to_nat i else None.

Definition slot_set (st : Stack) (i : Z) (v : Object) : option Stack :=
  if decide (0 <= i < Z.of_nat (length (slots st)))
  then Some {| slots := <[Z.to_nat i := v]> (slots st); top := top st |}
  else None.

Definition load (i : Z) : M Object :=
  fun s => match Process_stack (process s) with
           | Some st => match slot_at st i with
                        | Some v => Some (v, s)
                        | None => None
                        end
           | None => None
           end.

Definition store (i : Z) (v : Object) : M unit :=
  fun s => match Process_stack (process s) with
           | Some st => match slot_set st i v with
                        | Some st' =>
                            Some (tt, set_process (Process_set_stack st' (process s)) s)
                        | None => None
                        end
           | None => None
           end.

(** Stack pointer related operations. *)
Definition Local (n : Z) : M Object := s <- get ;; load (sp s - n).
Definition SetLocal (n : Z) (value : Object) : M unit :=
  s <- get ;; store (sp s - n) value.
Definition Top : M Object := Local 0.
Definition SetTop (value : Object) : M unit := SetLocal 0 value.
Definition Drop (n : Z) : M unit := modify (fun s => set_sp (sp s - n) s).
Definition Pop : M Object := v <- Local 0 ;; Drop 1 ;; ret v.
Definition Push (value : Object) : M unit :=
  modify (fun s => set_sp (sp s + 1) s) ;; SetLocal 0 value.

(** Bytecode pointer related operations. *)
Definition byte_at (prog : Program) (a : Z) : option Z := code prog !! a.

Definition to_int32 (z : Z) : Z := (z + 2 ^ 31) mod 2 ^ 32 - 2 ^ 31.

(** Modelled from the spec: [Utils::ReadInt32] is declared in a header
    that is not part of the sources; 32-bit operands are read in host
    byte order, which is little-endian on the supported hosts. *)
Definition Utils_ReadInt32 (prog : Program) (a : Z) : option Z :=
  match byte_at prog a, byte_at prog (a + 1),
        byte_at prog (a + 2), byte_at prog (a + 3) with
  | Some b0, Some b1, Some b2, Some b3 =>
      Some (to_int32 (b0 + b1 * 2 ^ 8 + b2 * 2 ^ 16 + b3 * 2 ^ 24))
  | _, _, _, _ => None
  end.

Definition ReadByte (offset : Z) : M Z :=
  s <- get ;; lift (byte_at (program s) (bcp s + offset)).
Definition ReadInt32 (offset : Z) : M Z :=
  s <- get ;; lift (Utils_ReadInt32 (program s) (bcp s + offset)).
Definition ReadOpcode : M Z := ReadByte 0.
Definition ReadConstant : M Object :=
  s <- get ;; ret (ConstantForBytecode (program s) (bcp s)).

Definition Goto (b : Z) : M unit :=
  ASSERT (negb (b =? 0)) ;; modify (set_bcp b).
Definition Advance (delta : Z) : M unit :=
  modify (fun s => set_bcp (bcp s + delta) s).
Definition ComputeReturnAddress (offset : Z) : M Z :=
  s <- get ;; ret (bcp s + offset).

Definition SetTopFromPointer : M unit :=
  fun s => match Process_stack (process s) with
           | Some st =>
               Some (tt, set_process
                           (Process_set_stack {| slots := slots st; top := sp s |}
                              (process s)) s)
           | None => None
           end.

Definition SaveState : M unit :=
  s <- get ;; Push (bcp s) ;; SetTopFromPointer.

Definition RestoreState : M unit :=
  s <- get ;;
  stack <- lift (Process_stack (process s)) ;;
  modify (set_sp (top stack)) ;;
  b <- Pop ;;
  modify (set_bcp b) ;;
  ASSERT (negb (b =? 0)).

(** ** The [Engine] class *)

Inductive InterruptKind :=
| kReady | kTerminate | kInterrupt | kYield | kTargetYield
| kUncaughtException | kBreakPoint.

(** How an opcode body is left: through [DISPATCH()], by returning from
    [Interpret], or because the process exited. *)
Inductive Next :=
| DISPATCH
| Return_ (k : InterruptKind)
| Exit (status : Z).

Definition PushReturnAddress (offset : Z) : M unit :=
  a <- ComputeReturnAddress offset ;; Push a.
Definition PopReturnAddress : M unit := a <- Pop ;; Goto a.

(** Calls into the process: the callee may change the process, never the
    engine's own registers. *)
Definition call_process {A} (f : Program -> Process -> A * Process) : M A :=
  fun s => let '(a, p) := f (program s) (process s) in Some (a, set_process p s).

Definition Array_get (elements : list Object) (i : Z) : option Object :=
  if decide (0 <= i) then elements !! Z.to_nat i else None.

Section Engine.

Context {object_model : ObjectModel} {selectors : Selectors}
        {bytecodes : Bytecodes} {heap_ : Heap} {natives : Natives}
        {stack_walker : StackWalker} {method_lookup : MethodLookup}.

Definition ToBool (value : bool) : M Object :=
  s <- get ;;
  ret (if value then true_object (program s) else false_object (program s)).

Definition HasStackSpaceFor (size : Z) : M bool :=
  s <- get ;; ret (sp s + size <? Process_stack_limit (process s)).

Definition StackOverflowCheck (size : Z) : M bool :=
  has_space <- HasStackSpaceFor size ;;
  if has_space then ret true
  else
    SaveState ;;
    grown <- call_process (fun prog p => Process_HandleStackOverflow prog p size) ;;
    if negb grown then ret false
    else RestoreState ;; ret true.

Definition CollectGarbage : M unit :=
  SaveState ;;
  modify (fun s => set_process (Process_CollectGarbage (program s) (process s)) s) ;;
  RestoreState.

Definition ShouldBreak : M bool :=
  s <- get ;;
  match debug_info (process s) with
  | Some info =>
      let should_break := DebugInfo_ShouldBreak info (bcp s) (sp s) in
      (if should_break then SaveState else ret tt) ;;
      ret should_break
  | None => ret false
  end.

(** The macro [GC_AND_RETRY_ON_ALLOCATION_FAILURE(var, exp)] followed by
    the rest [k] of the opcode body. *)
Definition GC_AND_RETRY_ON_ALLOCATION_FAILURE
           (exp : M Object) (k : Object -> M Next) : M Next :=
  var <- exp ;;
  if decide (var = Failure_retry_after_gc)
  then CollectGarbage ;; ret DISPATCH
  else k var.

(** *** Object accessors used by the engine *)

Definition class_at (index : Z) : M Object :=
  s <- get ;; lift (Array_get (classes (program s)) index).

Definition Class_id (prog : Program) (p : Process) (clazz : Object) : option Z :=
  match object_at prog p clazz with
  | Some (HClass id _) => Some id
  | _ => None
  end.

Definition Class_NumberOfInstanceFields (klass : Object) : M Z :=
  s <- get ;;
  match object_at (program s) (process s) klass with
  | Some (HClass _ fields) => ret fields
  | _ => fail
  end.

Definition SetInstanceField (instance : Object) (i : Z) (value : Object) : M unit :=
  fun s =>
    match heap (process s) !! instance with
    | Some (HInstance fields) =>
        if decide (0 <= i < Z.of_nat (length fields))
        then Some (tt, set_process
                         (set_heap (<[instance := HInstance (<[Z.to_nat i := value]> fields)]>
                                      (heap (process s))) (process s)) s)
        else None
    | _ => None
    end.

Definition bytecode_address_for (target_ : Object) (offset : Z) : M Z :=
  s <- get ;;
  match object_at (program s) (process s) target_ with
  | Some (HFunction _ bytecode) => ret (bytecode + offset)
  | _ => fail
  end.

(** [receiver->IsSmi() ? program()->smi_class()
                       : HeapObject::cast(receiver)->get_class()] *)
Definition class_of (prog : Program) (p : Process) (receiver : Object)
  : option Object :=
  if IsSmi receiver then Some (smi_class prog) else get_class prog p receiver.

(** *** The lookup cache *)

(** Modelled from the spec: [Process::LookupEntrySlow] is not part of
    the sources.  The slow path searches the class hierarchy; a tag
    other than 0 means that the class responds to the selector, and a
    send the class does not respond to ends in the no-such-method
    stub. *)
Definition LookupEntrySlow (prog : Program) (clazz : Object) (selector : Z)
  : Entry :=
  match LookupMethod prog clazz selector with
  | Some function => {| target := function; tag := 1 |}
  | None => {| target := no_such_method_stub prog; tag := 0 |}
  end.

(** Modelled from the spec: [Process::LookupEntry] is not part of the
    sources.  The per-process cache is keyed by receiver class and
    selector; on a miss the slow path answers and writes through. *)
Definition LookupEntry (receiver : Object) (selector : Z) : M Entry :=
  s <- get ;;
  clazz <- lift (class_of (program s) (process s) receiver) ;;
  match cache (process s) !! (clazz, selector) with
  | Some entry => ret entry
  | None =>
      let entry := LookupEntrySlow (program s) clazz selector in
      modify (fun s => set_process
                         (set_cache (<[(clazz, selector) := entry]> (cache (process s)))
                            (process s)) s) ;;
      ret entry
  end.

(** *** The dispatch table and the vtable *)

(** The loop of [InvokeMethodFast]: rows of four words from [offset],
    left at the first row whose class-id range holds [class_id].  The
    source loops without a bound; reading past the table is undefined,
    so a walk of as many rows as the table has words loses nothing. *)
Fixpoint dispatch_table_scan (fuel : nat) (table : list Object)
         (index class_id offset : Z) : option Object :=
  match fuel with
  | O => None
  | S fuel' =>
      match Array_get table (index + offset) with
      | None => None
      | Some lower =>
          if class_id <? Smi_value lower
          then dispatch_table_scan fuel' table index class_id (offset + 4)
          else
            match Array_get table (index + offset + 1) with
            | None => None
            | Some upper =>
                if class_id >=? Smi_value upper
                then dispatch_table_scan fuel' table index class_id (offset + 4)
                else Array_get table (index + offset + 3)
            end
      end
  end.

Definition InvokeMethodFast_target (prog : Program) (index class_id : Z)
  : option Object :=
  dispatch_table_scan (length (dispatch_table prog)) (dispatch_table prog)
                      index class_id 4.

Definition Array_elements (prog : Program) (p : Process) (array : Object)
  : option (list Object) :=
  match object_at prog p array with
  | Some (HArray elements) => Some elements
  | _ => None
  end.

(** The entry selection of [InvokeMethodVtable]. *)
Definition InvokeMethodVtable_target (prog : Program) (p : Process)
           (class_id offset : Z) : option Object :=
  let index := class_id + offset in
  match Array_get (vtable prog) index with
  | None => None
  | Some entry_ref =>
      match Array_elements prog p entry_ref with
      | None => None
      | Some entry =>
          match Array_get entry 0 with
          | None => None
          | Some stored =>
              if negb (Smi_value stored =? offset)
              then
                match Array_get (vtable prog) 0 with
                | None => None
                | Some entry0_ref =>
                    match Array_elements prog p entry0_ref with
                    | None => None
                    | Some entry0 => Array_get entry0 2
                    end
                end
              else Array_get entry 2
          end
      end
  end.

(** *** [HandleIdentical] *)

Definition isnan (d : spec_float) : bool :=
  match d with S754_nan => true | _ => false end.

Definition HandleIdentical (prog : Program) (p : Process)
           (left right : Object) : Object :=
  let identical :=
    match object_at prog p left, object_at prog p right with
    | Some (HDouble left_value), Some (HDouble right_value) =>
        if isnan left_value && isnan right_value then true
        else SFeqb left_value right_value
    | Some (HLargeInteger left_value), Some (HLargeInteger right_value) =>
        left_value =? right_value
    | _, _ => left =? right
    end in
  if identical then true_object prog else false_object prog.

(** *** [HandleThrow] *)

Inductive Unwound :=
| Caught (catch_bcp stack_delta : Z) (p : Process)
| Uncaught (p : Process)
| Exited (status : Z) (p : Process).

Definition newline : string := String (Ascii.ascii_of_nat 10) EmptyString.

(** Modelled from the spec: [Object::Print] is not part of the sources;
    an uncaught exception's [Print()] is emitted to stderr. *)
Definition Object_Print (o : Object) (p : Process) : Process :=
  emit (Write stderr (Printed o)) p.

Definition printf (text : string) (p : Process) : Process :=
  emit (Write stdout (Literal text)) p.

Definition Session_is_debugging (prog : Program) : bool :=
  match session prog with
  | Some session_ => is_debugging session_
  | None => false
  end.

(** The loop of [HandleThrow] runs once per coroutine it unwinds; [fuel]
    bounds the number of rounds. *)
Fixpoint HandleThrow (fuel : nat) (prog : Program) (p : Process)
         (exception : Object) : option Unwound :=
  match fuel with
  | O => None
  | S fuel' =>
      let '(catch_bcp, stack_delta) := ComputeCatchBlock prog p in
      if negb (catch_bcp =? 0) then Some (Caught catch_bcp stack_delta p)
      else
        let current := coroutine p in
        match heap p !! current with
        | Some (HCoroutine _ None) =>
            let p := printf (String.append "Uncaught exception:" newline) p in
            let p := Object_Print exception p in
            if Session_is_debugging prog
            then Some (Uncaught (emit Session_UncaughtException p))
            else Some (Exited 1 p)
        | Some (HCoroutine _ (Some caller)) =>
            let p := Process_UpdateCoroutine caller p in
            let p := set_heap (<[current := HCoroutine None (Some current)]>
                                 (heap p)) p in
            HandleThrow fuel' prog p exception
        | _ => None
        end
  end.

Definition unwind (fuel : nat) (exception : Object) : M Unwound :=
  s <- get ;; lift (HandleThrow fuel (program s) (process s) exception).

(** *** Natives *)

Definition LocalPointer (n : Z) : M Z := s <- get ;; ret (sp s - n).

Definition call_native (native : Z) (arguments : Z) : M Object :=
  fun s =>
    match Process_stack (process s) with
    | Some st =>
        if decide (0 <= arguments)
        then match kNativeTable native (program s) (process s)
                     (drop (Z.to_nat arguments) (slots st)) with
             | Some (result, p) => Some (result, set_process p s)
             | None => None
             end
        else None
    | None => None
    end.

End Engine.

(** ** The opcodes of [Engine::Interpret] *)

Module Op.
Section Opcodes.

Context {object_model : ObjectModel} {selectors : Selectors}
        {bytecodes : Bytecodes} {heap_ : Heap} {natives : Natives}
        {stack_walker : StackWalker} {method_lookup : MethodLookup}.

(** The tail shared by the invokes: jump to the first bytecode of the
    target and poll for stack overflow. *)
Definition enter (target_ : Object) : M Next :=
  address <- bytecode_address_for target_ 0 ;;
  Goto address ;;
  ok <- StackOverflowCheck 0 ;;
  if negb ok then ret (Return_ kInterrupt) else ret DISPATCH.

Definition InvokeMethod : M Next :=
  selector <- ReadInt32 1 ;;
  let arity := ArityField_decode selector in
  receiver <- Local arity ;;
  PushReturnAddress kInvokeMethodLength ;;
  entry <- LookupEntry receiver selector ;;
  enter (target entry).

Definition InvokeMethodFast : M Next :=
  index <- ReadInt32 1 ;;
  s <- get ;;
  let table := dispatch_table (program s) in
  selector_smi <- lift (Array_get table (index + 1)) ;;
  let selector := to_int32 (Smi_value selector_smi) in
  let arity := ArityField_decode selector in
  receiver <- Local arity ;;
  PushReturnAddress kInvokeMethodFastLength ;;
  s <- get ;;
  clazz <- lift (class_of (program s) (process s) receiver) ;;
  class_id <- lift (Class_id (program s) (process s) clazz) ;;
  target_ <- lift (InvokeMethodFast_target (program s) index class_id) ;;
  enter target_.

Definition InvokeMethodVtable : M Next :=
  selector <- ReadInt32 1 ;;
  let arity := ArityField_decode selector in
  let offset := IdField_decode selector in
  receiver <- Local arity ;;
  PushReturnAddress kInvokeMethodVtableLength ;;
  s <- get ;;
  clazz <- lift (class_of (program s) (process s) receiver) ;;
  class_id <- lift (Class_id (program s) (process s) clazz) ;;
  target_ <- lift (InvokeMethodVtable_target (program s) (process s) class_id offset) ;;
  enter target_.

Definition InvokeNative : M Next :=
  arity <- ReadByte 1 ;;
  native <- ReadByte 2 ;;
  arguments <- LocalPointer arity ;;
  GC_AND_RETRY_ON_ALLOCATION_FAILURE (call_native native arguments)
    (fun result =>
       if IsFailure result then
         s <- get ;;
         Push (ObjectFromFailure (program s) result) ;;
         Advance kInvokeNativeLength ;;
         ret DISPATCH
       else
         PopReturnAddress ;;
         Drop arity ;;
         Push result ;;
         ret DISPATCH).

Definition InvokeNativeYield : M Next :=
  arity <- ReadByte 1 ;;
  native <- ReadByte 2 ;;
  arguments <- LocalPointer arity ;;
  GC_AND_RETRY_ON_ALLOCATION_FAILURE (call_native native arguments)
    (fun result =>
       if IsFailure result then
         s <- get ;;
         Push (ObjectFromFailure (program s) result) ;;
         Advance kInvokeNativeYieldLength ;;
         ret DISPATCH
       else
         PopReturnAddress ;;
         Drop arity ;;
         s <- get ;;
         let null := null_object (program s) in
         Push null ;;
         if decide (result <> null) then
           SaveState ;;
           modify (set_yield_target (Some result)) ;;
           s <- get ;;
           port <- lift (ports (process s) !! result) ;;
           ASSERT (IsLocked port) ;;
           ret (Return_ kTargetYield)
         else ret DISPATCH).

Definition Return : M Next :=
  locals <- ReadByte 1 ;;
  arguments <- ReadByte 2 ;;
  result <- Local 0 ;;
  Drop locals ;;
  PopReturnAddress ;;
  Drop arguments ;;
  Push result ;;
  ret DISPATCH.

(** [for (int i = fields - 1; i >= 0; --i)
       instance->SetInstanceField(i, Pop());] *)
Fixpoint fill_fields (instance : Object) (fields : nat) : M unit :=
  match fields with
  | O => ret tt
  | S i =>
      value <- Pop ;;
      SetInstanceField instance (Z.of_nat i) value ;;
      fill_fields instance i
  end.

(** [for (int i = 0; i < fields; i++)
       if (!Local(i)->IsImmutable()) { immutable = false; break; }] *)
Fixpoint operands_immutable (i : Z) (remaining : nat) : M bool :=
  match remaining with
  | O => ret true
  | S remaining' =>
      local <- Local i ;;
      s <- get ;;
      if negb (IsImmutable (program s) (process s) local) then ret false
      else operands_immutable (i + 1) remaining'
  end.

Definition NewInstance (klass : Object) (immutable : bool) : M Object :=
  call_process (fun prog p => Process_NewInstance prog p klass immutable).

Definition NewBoxed (value : Object) : M Object :=
  call_process (fun prog p => Process_NewBoxed prog p value).

(** [Class* klass = program()->class_at(index);
     ASSERT(klass->id() == index);] *)
Definition class_at_checked (index : Z) : M Object :=
  klass <- class_at index ;;
  s <- get ;;
  id <- lift (Class_id (program s) (process s) klass) ;;
  ASSERT (id =? index) ;;
  ret klass.

Definition Allocate : M Next :=
  index <- ReadInt32 1 ;;
  klass <- class_at_checked index ;;
  GC_AND_RETRY_ON_ALLOCATION_FAILURE (NewInstance klass false)
    (fun instance =>
       fields <- Class_NumberOfInstanceFields klass ;;
       fill_fields instance (Z.to_nat fields) ;;
       Push instance ;;
       Advance kAllocateLength ;;
       ret DISPATCH).

Definition AllocateUnfold : M Next :=
  klass <- ReadConstant ;;
  GC_AND_RETRY_ON_ALLOCATION_FAILURE (NewInstance klass false)
    (fun instance =>
       fields <- Class_NumberOfInstanceFields klass ;;
       fill_fields instance (Z.to_nat fields) ;;
       Push instance ;;
       Advance kAllocateLength ;;
       ret DISPATCH).

Definition AllocateImmutable : M Next :=
  index <- ReadInt32 1 ;;
  klass <- class_at_checked index ;;
  fields <- Class_NumberOfInstanceFields klass ;;
  immutable <- operands_immutable 0 (Z.to_nat fields) ;;
  GC_AND_RETRY_ON_ALLOCATION_FAILURE (NewInstance klass immutable)
    (fun instance =>
       fill_fields instance (Z.to_nat fields) ;;
       Push instance ;;
       Advance kAllocateImmutableLength ;;
       ret DISPATCH).

Definition AllocateImmutableUnfold : M Next :=
  klass <- ReadConstant ;;
  fields <- Class_NumberOfInstanceFields klass ;;
  immutable <- operands_immutable 0 (Z.to_nat fields) ;;
  GC_AND_RETRY_ON_ALLOCATION_FAILURE (NewInstance klass immutable)
    (fun instance =>
       fill_fields instance (Z.to_nat fields) ;;
       Push instance ;;
       Advance kAllocateImmutableUnfoldLength ;;
       ret DISPATCH).

Definition AllocateBoxed : M Next :=
  value <- Local 0 ;;
  GC_AND_RETRY_ON_ALLOCATION_FAILURE (NewBoxed value)
    (fun boxed =>
       SetTop boxed ;;
       Advance kAllocateBoxedLength ;;
       ret DISPATCH).

Definition Throw (fuel : nat) : M Next :=
  exception <- Local 0 ;;
  SaveState ;;
  unwound <- unwind fuel exception ;;
  match unwound with
  | Exited status p => modify (set_process p) ;; ret (Exit status)
  | Uncaught p => modify (set_process p) ;; ret (Return_ kUncaughtException)
  | Caught catch_bcp stack_delta p =>
      modify (set_process p) ;;
      RestoreState ;;
      Goto catch_bcp ;;
      Drop (stack_delta - 1) ;;
      SetTop exception ;;
      ret DISPATCH
  end.

Definition Identical : M Next :=
  left <- Local 1 ;;
  right <- Local 0 ;;
  s <- get ;;
  let result := HandleIdentical (program s) (process s) left right in
  Drop 1 ;;
  SetTop result ;;
  Advance kIdenticalLength ;;
  ret DISPATCH.

Definition IdenticalNonNumeric : M Next :=
  local0 <- Local 0 ;;
  local1 <- Local 1 ;;
  let identical := local0 =? local1 in
  Drop 1 ;;
  result <- ToBool identical ;;
  SetTop result ;;
  Advance kIdenticalNonNumericLength ;;
  ret DISPATCH.

Definition EnterNoSuchMethod : M Next :=
  return_address <- Local 0 ;;
  s <- get ;;
  opcode <- lift (byte_at (program s) (return_address - 5)) ;;
  selector <-
    (if IsInvokeFast opcode then
       index <- lift (Utils_ReadInt32 (program s) (return_address - 4)) ;;
       selector_smi <- lift (Array_get (dispatch_table (program s)) (index + 1)) ;;
       ret (to_int32 (Smi_value selector_smi))
     else if IsInvokeVtable opcode then
       lift (Utils_ReadInt32 (program s) (return_address - 4))
     else
       ASSERT (IsInvokeNormal opcode) ;;
       lift (Utils_ReadInt32 (program s) (return_address - 4))) ;;
  let arity := ArityField_decode selector in
  let selector_smi := Smi_FromWord selector in
  receiver <- Local (arity + 1) ;;
  Push selector_smi ;;
  Push receiver ;;
  Push selector_smi ;;
  Advance kEnterNoSuchMethodLength ;;
  ret DISPATCH.

Definition ExitNoSuchMethod : M Next :=
  result <- Pop ;;
  selector_smi <- Pop ;;
  let selector := Smi_value selector_smi in
  PopReturnAddress ;;
  result <- (if decide (KindField_decode selector = SETTER)
             then Local 0 else ret result) ;;
  let arity := ArityField_decode selector in
  Drop (arity + 1) ;;
  Push result ;;
  ret DISPATCH.

End Opcodes.
End Op.

Section Dispatch.

Context {object_model : ObjectModel} {selectors : Selectors}
        {bytecodes : Bytecodes} {heap_ : Heap} {natives : Natives}
        {stack_walker : StackWalker} {method_lookup : MethodLookup}.

(** [goto opcode##Label] for the opcodes above; [fuel] bounds the loop
    of [HandleThrow]. *)
Definition execute (fuel : nat) (opcode : Opcode) : M Next :=
  match opcode with
  | kInvokeMethod => Op.InvokeMethod
  | kInvokeMethodFast => Op.InvokeMethodFast
  | kInvokeMethodVtable => Op.InvokeMethodVtable
  | kInvokeNative => Op.InvokeNative
  | kInvokeNativeYield => Op.InvokeNativeYield
  | kReturn => Op.Return
  | kAllocate => Op.Allocate
  | kAllocateUnfold => Op.AllocateUnfold
  | kAllocateImmutable => Op.AllocateImmutable
  | kAllocateImmutableUnfold => Op.AllocateImmutableUnfold
  | kAllocateBoxed => Op.AllocateBoxed
  | kThrow => Op.Throw fuel
  | kIdentical => Op.Identical
  | kIdenticalNonNumeric => Op.IdenticalNonNumeric
  | kEnterNoSuchMethod => Op.EnterNoSuchMethod
  | kExitNoSuchMethod => Op.ExitNoSuchMethod
  end.

(** The macro [DISPATCH()]: the breakpoint gate, then the opcode under
    the bytecode pointer. *)
Definition dispatch : M (InterruptKind + Opcode) :=
  should_break <- ShouldBreak ;;
  if should_break then ret (inl kBreakPoint)
  else
    byte <- ReadOpcode ;;
    opcode <- lift (Opcode_of_byte byte) ;;
    ret (inr opcode).

(** The allocating expression each allocating opcode hands to
    [GC_AND_RETRY_ON_ALLOCATION_FAILURE], after the operand decoding
    that precedes it in the opcode body. *)
Definition allocation (opcode : Opcode) : M Object :=
  match opcode with
  | kAllocate =>
      index <- ReadInt32 1 ;;
      klass <- Op.class_at_checked index ;;
      Op.NewInstance klass false
  | kAllocateUnfold =>
      klass <- ReadConstant ;;
      Op.NewInstance klass false
  | kAllocateImmutable =>
      index <- ReadInt32 1 ;;
      klass <- Op.class_at_checked index ;;
      fields <- Class_NumberOfInstanceFields klass ;;
      immutable <- Op.operands_immutable 0 (Z.to_nat fields) ;;
      Op.NewInstance klass immutable
  | kAllocateImmutableUnfold =>
      klass <- ReadConstant ;;
      fields <- Class_NumberOfInstanceFields klass ;;
      immutable <- Op.operands_immutable 0 (Z.to_nat fields) ;;
      Op.NewInstance klass immutable
  | kAllocateBoxed =>
      value <- Local 0 ;;
      Op.NewBoxed value
  | kInvokeNative | kInvokeNativeYield =>
      arity <- ReadByte 1 ;;
      native <- ReadByte 2 ;;
      arguments <- LocalPointer arity ;;
      call_native native arguments
  | _ => fail
  end.

End Dispatch.
(** ** The foreign-function natives of [ffi.cc] *)

(** The platform: width of the machine word ([word], [intptr_t]). *)
Class Platform := { kBitsPerWord : Z }.

(** The C library under the natives: [calloc] and [free] over raw
    memory, a map from addresses to bytes. *)
Class Libc := {
  calloc : gmap Z Z -> Z -> Z -> Z * gmap Z Z;
  free : gmap Z Z -> Z -> gmap Z Z;
}.

(** Foreign code: calling the function at an address with machine words
    leaves a machine word in the return register and may change the
    process. *)
Class ForeignCode := {
  call_foreign : Z -> list Z -> Process -> Z * Process;
}.

(** Two's complement wrap-around to [bits] bits, signed. *)
Definition wrap_signed (bits z : Z) : Z :=
  (z + 2 ^ (bits - 1)) mod 2 ^ bits - 2 ^ (bits - 1).

(** The C types of the typed accessors. *)
Inductive ctype :=
| int8 | int16 | int32 | int64 | uint8 | uint16 | uint32 | uint64.

Definition sizeof (t : ctype) : nat :=
  match t with
  | int8 | uint8 => 1
  | int16 | uint16 => 2
  | int32 | uint32 => 4
  | int64 | uint64 => 8
  end.

Definition is_signed (t : ctype) : bool :=
  match t with
  | int8 | int16 | int32 | int64 => true
  | uint8 | uint16 | uint32 | uint64 => false
  end.

(** Conversion of an integer to the C type [t]. *)
Definition convert (t : ctype) (z : Z) : Z :=
  let bits := 8 * Z.of_nat (sizeof t) in
  if is_signed t then wrap_signed bits z else z mod 2 ^ bits.

(** Raw memory, byte by byte, least significant byte first. *)
Fixpoint store_bytes (n : nat) (address v : Z) (m : gmap Z Z)
  : option (gmap Z Z) :=
  match n with
  | O => Some m
  | S n' =>
      match m !! address with
      | Some _ => store_bytes n' (address + 1) (v / 256) (<[address := v mod 256]> m)
      | None => None
      end
  end.

Fixpoint load_bytes (n : nat) (address : Z) (m : gmap Z Z) : option Z :=
  match n with
  | O => Some 0
  | S n' =>
      match m !! address, load_bytes n' (address + 1) m with
      | Some b, Some rest => Some (b + 256 * rest)
      | _, _ => None
      end
  end.

(** [*address = v] and [*address] for [type* address]. *)
Definition store_typed (t : ctype) (address v : Z) (m : gmap Z Z)
  : option (gmap Z Z) :=
  store_bytes (sizeof t) address (convert t v) m.

Definition load_typed (t : ctype) (address : Z) (m : gmap Z Z) : option Z :=
  match load_bytes (sizeof t) address m with
  | Some raw => Some (convert t raw)
  | None => None
  end.

Module FFI.
Section Natives.

Context {object_model : ObjectModel} {heap_ : Heap} {platform : Platform}
        {libc : Libc} {foreign_code : ForeignCode}.

(** Modelled from the spec: [AsForeignWord] is declared in a header
    that is not part of the sources; it interprets the value operand
    as a machine word: the value of a small integer, the value of a
    LargeInteger cut to the width of the word. *)
Definition AsForeignWord (prog : Program) (p : Process) (object : Z)
  : option Z :=
  if IsSmi object then Some (Smi_value object)
  else match object_at prog p object with
       | Some (HLargeInteger value) => Some (wrap_signed kBitsPerWord value)
       | _ => None
       end.

(** Modelled from the spec: [Process::ToInteger] is not part of the
    sources.  The integers of the machine are the small integers and
    the LargeIntegers, which box 64 bits: the value is taken as a
    64-bit signed integer and is the immediate small integer when in
    range, and boxed by the heap otherwise. *)
Definition ToInteger (prog : Program) (p : Process) (value : Z) : Z * Process :=
  let value := wrap_signed 64 value in
  if Smi_IsValid value then (Smi_FromWord value, p)
  else Process_NewInteger prog p value.

(** [AsForeignWord(arguments[i])] *)
Definition foreign_word (prog : Program) (p : Process) (arguments : list Z)
           (i : nat) : option Z :=
  arguments !! i ≫= AsForeignWord prog p.

Definition ForeignAllocate : NativeFunction := fun prog p arguments =>
  size ← foreign_word prog p arguments 0;
  let '(result, m) := calloc (memory p) 1 size in
  Some (ToInteger prog (set_memory m p) result).

Definition ForeignFree : NativeFunction := fun prog p arguments =>
  address ← foreign_word prog p arguments 0;
  Some (null_object prog, set_memory (free (memory p) address) p).

Definition ForeignBitsPerWord : NativeFunction := fun prog p arguments =>
  Some (Smi_FromWord kBitsPerWord, p).

(** [int result = function(...)] for [function] of one of the types
    [F0] to [F6]: the call goes through a pointer to a function
    returning [int], so what is received is the return register read
    as a 32-bit signed integer. *)
Definition call_int (address : Z) (words : list Z) (p : Process) : Z * Process :=
  let '(raw, p') := call_foreign address words p in (to_int32 raw, p').

Definition ForeignCall0 : NativeFunction := fun prog p arguments =>
  address ← foreign_word prog p arguments 0;
  let '(result, p') := call_int address [] p in
  Some (ToInteger prog p' result).

Definition ForeignCall1 : NativeFunction := fun prog p arguments =>
  address ← foreign_word prog p arguments 0;
  a0 ← foreign_word prog p arguments 1;
  let '(result, p') := call_int address [a0] p in
  Some (ToInteger prog p' result).

Definition ForeignCall2 : NativeFunction := fun prog p arguments =>
  address ← foreign_word prog p arguments 0;
  a0 ← foreign_word prog p arguments 1;
  a1 ← foreign_word prog p arguments 2;
  let '(result, p') := call_int address [a0; a1] p in
  Some (ToInteger prog p' result).

Definition ForeignCall3 : NativeFunction := fun prog p arguments =>
  address ← foreign_word prog p arguments 0;
  a0 ← foreign_word prog p arguments 1;
  a1 ← foreign_word prog p arguments 2;
  a2 ← foreign_word prog p arguments 3;
  let '(result, p') := call_int address [a0; a1; a2] p in
  Some (ToInteger prog p' result).

Definition ForeignCall4 : NativeFunction := fun prog p arguments =>
  address ← foreign_word prog p arguments 0;
  a0 ← foreign_word prog p arguments 1;
  a1 ← foreign_word prog p arguments 2;
  a2 ← foreign_word prog p arguments 3;
  a3 ← foreign_word prog p arguments 4;
  let '(result, p') := call_int address [a0; a1; a2; a3] p in
  Some (ToInteger prog p' result).

Definition ForeignCall5 : NativeFunction := fun prog p arguments =>
  address ← foreign_word prog p arguments 0;
  a0 ← foreign_word prog p arguments 1;
  a1 ← foreign_word prog p arguments 2;
  a2 ← foreign_word prog p arguments 3;
  a3 ← foreign_word prog p arguments 4;
  a4 ← foreign_word prog p arguments 5;
  let '(result, p') := call_int address [a0; a1; a2; a3; a4] p in
  Some (ToInteger prog p' result).

Definition ForeignCall6 : NativeFunction := fun prog p arguments =>
  address ← foreign_word prog p arguments 0;
  a0 ← foreign_word prog p arguments 1;
  a1 ← foreign_word prog p arguments 2;
  a2 ← foreign_word prog p arguments 3;
  a3 ← foreign_word prog p arguments 4;
  a4 ← foreign_word prog p arguments 5;
  a5 ← foreign_word prog p arguments 6;
  let '(result, p') := call_int address [a0; a1; a2; a3; a4; a5] p in
  Some (ToInteger prog p' result).

(** The macro [DEFINE_FOREIGN_ACCESSORS(suffix, type)]. *)
Definition ForeignGet (t : ctype) : NativeFunction := fun prog p arguments =>
  address ← foreign_word prog p arguments 0;
  stored ← load_typed t address (memory p);
  Some (ToInteger prog p stored).

Definition ForeignSet (t : ctype) : NativeFunction := fun prog p arguments =>
  value ← arguments !! 1%nat;
  address ← foreign_word prog p arguments 0;
  w ← AsForeignWord prog p value;
  m ← store_typed t address w (memory p);
  Some (value, set_memory m p).

Definition ForeignGetInt8 := ForeignGet int8.
Definition ForeignSetInt8 := ForeignSet int8.
Definition ForeignGetInt16 := ForeignGet int16.
Definition ForeignSetInt16 := ForeignSet int16.
Definition ForeignGetInt32 := ForeignGet int32.
Definition ForeignSetInt32 := ForeignSet int32.
Definition ForeignGetInt64 := ForeignGet int64.
Definition ForeignSetInt64 := ForeignSet int64.
Definition ForeignGetUint8 := ForeignGet uint8.
Definition ForeignSetUint8 := ForeignSet uint8.
Definition ForeignGetUint16 := ForeignGet uint16.
Definition ForeignSetUint16 := ForeignSet uint16.
Definition ForeignGetUint32 := ForeignGet uint32.
Definition ForeignSetUint32 := ForeignSet uint32.
Definition ForeignGetUint64 := ForeignGet uint64.
Definition ForeignSetUint64 := ForeignSet uint64.

End Natives.
End FFI.

(** ** Notions used to state the properties *)

Section Specification.

Context {object_model : ObjectModel} {selectors : Selectors}
        {bytecodes : Bytecodes} {heap_ : Heap} {natives : Natives}
        {stack_walker : StackWalker} {method_lookup : MethodLookup}.

Definition upd (st : Stack) (i : Z) (v : Object) : Stack :=
  {| slots := <[Z.to_nat i := v]> (slots st); top := top st |}.

Definition put_stack (st : Stack) (s : State) : State :=
  set_process (Process_set_stack st (process s)) s.

(** Operations that only read the state. *)
Definition reads {A} (m : M A) : Prop :=
  forall s a s', m s = Some (a, s') -> s' = s.

(** What the engine keeps of a state [s] when the process is handed to
    a collaborator and comes back as [p]. *)
Definition registers_of (s s1 : State) : Prop :=
  program s1 = program s /\ sp s1 = sp s /\ bcp s1 = bcp s /\
  yield_target s1 = yield_target s.

(** The operand slots of a stack: everything up to the stack pointer. *)
Definition same_operands (depth : Z) (st st' : Stack) : Prop :=
  length (slots st') = length (slots st) /\
  forall i, i <= depth -> slot_at st' i = slot_at st i.

(** The state [SaveState] leaves: the bytecode pointer pushed and the
    top of the stack object set to the stack pointer. *)
Definition saved_state (s : State) (st : Stack) : State :=
  put_stack {| slots := <[Z.to_nat (sp s + 1) := bcp s]> (slots st);
               top := sp s + 1 |}
            (set_sp (sp s + 1) s).

(** The process after one round of unwinding out of the current
    coroutine into [caller]. *)
Definition unwound_to (caller : Object) (p : Process) : Process :=
  set_heap (<[coroutine p := HCoroutine None (Some (coroutine p))]> (heap p))
           (Process_UpdateCoroutine caller p).

(** The selector of the invoke that ends just before [return_address],
    in the words of the specification: the opcode is the byte five
    before the return address, its 32-bit operand the four bytes after
    that; for the [Fast] invokes the operand is an index into the
    dispatch table and the selector is found at [index + 1]. *)
Definition invoke_selector (prog : Program) (return_address : Z) : option Z :=
  match byte_at prog (return_address - 5),
        Utils_ReadInt32 prog (return_address - 4) with
  | Some opcode, Some operand =>
      if IsInvokeFast opcode then
        match Array_get (dispatch_table prog) (operand + 1) with
        | Some selector_smi => Some (to_int32 (Smi_value selector_smi))
        | None => None
        end
      else if IsInvokeVtable opcode || IsInvokeNormal opcode then Some operand
      else None
  | _, _ => None
  end.

Definition bool_object (prog : Program) (b : bool) : Z :=
  if b then true_object prog else false_object prog.

Definition both_doubles (prog : Program) (p : Process) (left right : Z) : Prop :=
  exists l r, object_at prog p left = Some (HDouble l) /\
              object_at prog p right = Some (HDouble r).

Definition both_large_integers (prog : Program) (p : Process) (left right : Z)
  : Prop :=
  exists l r, object_at prog p left = Some (HLargeInteger l) /\
              object_at prog p right = Some (HLargeInteger r).

(** One call site as the compiler emits it for the three invokes: the
    selector carried by [InvokeMethod], the dispatch-table index carried
    by [InvokeMethodFast], and the selector carried by
    [InvokeMethodVtable], whose id field is the vtable offset. *)
Record CallSite := {
  site_selector : Z;
  site_index : Z;
  site_vtable_selector : Z;
}.

(** What a class answers to a selector: the method found in the class
    hierarchy, or else the no-such-method stub. *)
Definition resolve (prog : Program) (clazz : Z) (selector : Z) : Z :=
  target (LookupEntrySlow prog clazz selector).

(** Every entry of the cache is what the slow path would answer. *)
Definition cache_coherent (prog : Program) (c : gmap (Z * Z) Entry) : Prop :=
  forall clazz selector entry,
    c !! (clazz, selector) = Some entry ->
    entry = LookupEntrySlow prog clazz selector.

(** The row of the dispatch table at [offset] from [index]: lower
    class id, upper class id, function. *)
Definition row_at (table : list Z) (index offset : Z) : option (Z * Z * Z) :=
  match Array_get table (index + offset),
        Array_get table (index + offset + 1),
        Array_get table (index + offset + 3) with
  | Some lower, Some upper, Some function => Some (lower, upper, function)
  | _, _, _ => None
  end.

Definition row_holds (class_id lower upper : Z) : bool :=
  (Smi_value lower <=? class_id) && (class_id <? Smi_value upper).

(** The table segment at [index] is the compilation of [selector]: the
    selector is stored at [index + 1], and for every class the first
    row whose range holds the class id carries what the class answers
    to the selector. *)
Definition dispatch_table_compiled (prog : Program) (p : Process)
           (index selector : Z) : Prop :=
  (exists selector_smi,
     Array_get (dispatch_table prog) (index + 1) = Some selector_smi /\
     to_int32 (Smi_value selector_smi) = selector) /\
  forall clazz class_id,
    Class_id prog p clazz = Some class_id ->
    exists (k : nat) lower upper,
      row_at (dispatch_table prog) index (4 + 4 * Z.of_nat k)
        = Some (lower, upper, resolve prog clazz selector) /\
      row_holds class_id lower upper = true /\
      forall j : nat, (j < k)%nat ->
        exists lower' upper' function',
          row_at (dispatch_table prog) index (4 + 4 * Z.of_nat j)
            = Some (lower', upper', function') /\
          row_holds class_id lower' upper' = false.

(** The vtable is the compilation of [selector] at [offset]: the entry
    at [class_id + offset] stores [offset] and the method exactly when
    the class has one, and entry 0 is the no-such-method stub. *)
Definition vtable_compiled (prog : Program) (p : Process)
           (offset selector : Z) : Prop :=
  (exists entry0_ref entry0,
     Array_get (vtable prog) 0 = Some entry0_ref /\
     Array_elements prog p entry0_ref = Some entry0 /\
     Array_get entry0 2 = Some (no_such_method_stub prog)) /\
  forall clazz class_id,
    Class_id prog p clazz = Some class_id ->
    exists entry_ref entry stored,
      Array_get (vtable prog) (class_id + offset) = Some entry_ref /\
      Array_elements prog p entry_ref = Some entry /\
      Array_get entry 0 = Some stored /\
      match LookupMethod prog clazz selector with
      | Some function =>
          Smi_value stored = offset /\ Array_get entry 2 = Some function
      | None => Smi_value stored <> offset
      end.

Definition compiled_from_same_call_site (prog : Program) (p : Process)
           (site : CallSite) : Prop :=
  dispatch_table_compiled prog p (site_index site) (site_selector site) /\
  vtable_compiled prog p (IdField_decode (site_vtable_selector site))
                  (site_selector site).

Definition mapped (m : gmap Z Z) (address : Z) (n : nat) : Prop :=
  forall i, 0 <= i < Z.of_nat n -> is_Some (m !! (address + i)).

End Specification.

(** ** A small program to run the definitions on *)

Module Example.

(** Small integers carry tag bit 0, heap references end in 01, failure
    sentinels in 11; words have 64 bits. *)
Definition object_model : ObjectModel := {|
  IsSmi o := Z.even o;
  Smi_FromWord v := 2 * v;
  Smi_value o := o / 2;
  Smi_IsValid v := (- 2 ^ 62 <=? v) && (v <? 2 ^ 62);
  Smi_kMaxValue := 2 ^ 62 - 1;
  IsFailure o := o mod 4 =? 3;
  Failure_retry_after_gc := 3;
  Failure_index_out_of_bounds := 7;
|}.

(** Arity in bits 0 to 7, kind in bits 8 and 9, id from bit 10. *)
Definition selectors : Selectors := {|
  ArityField_decode selector := selector mod 256;
  KindField_decode selector := (selector / 256) mod 4;
  IdField_decode selector := selector / 1024;
  SETTER := 2;
|}.

Definition bytecodes : Bytecodes := {|
  Opcode_of_byte byte :=
    match byte with
    | 0 => Some kInvokeMethod
    | 1 => Some kInvokeMethodFast
    | 2 => Some kInvokeMethodVtable
    | 3 => Some kInvokeNative
    | 4 => Some kInvokeNativeYield
    | 5 => Some kReturn
    | 6 => Some kAllocate
    | 7 => Some kAllocateUnfold
    | 8 => Some kAllocateImmutable
    | 9 => Some kAllocateImmutableUnfold
    | 10 => Some kAllocateBoxed
    | 11 => Some kThrow
    | 12 => Some kIdentical
    | 13 => Some kIdenticalNonNumeric
    | 14 => Some kEnterNoSuchMethod
    | 15 => Some kExitNoSuchMethod
    | _ => None
    end;
  kInvokeMethodLength := 5;
  kInvokeMethodFastLength := 5;
  kInvokeMethodVtableLength := 5;
  kInvokeNativeLength := 3;
  kInvokeNativeYieldLength := 3;
  kAllocateLength := 5;
  kAllocateImmutableLength := 5;
  kAllocateImmutableUnfoldLength := 5;
  kAllocateBoxedLength := 1;
  kIdenticalLength := 1;
  kIdenticalNonNumericLength := 1;
  kEnterNoSuchMethodLength := 1;
  IsInvokeFast byte := byte =? 1;
  IsInvokeVtable byte := byte =? 2;
  IsInvokeNormal byte := byte =? 0;
|}.

(** A heap with no room left: every allocation asks for a collection,
    and the collector moves nothing. *)
Definition heap_ : Heap := {|
  Process_NewInstance _ p _ _ := (3, p);
  Process_NewBoxed _ p _ := (3, p);
  Process_NewInteger _ p _ := (3, p);
  Process_CollectGarbage _ p := p;
  Process_HandleStackOverflow _ p _ := (false, p);
  Process_stack_limit _ := 16;
  IsImmutable _ _ _ := true;
  get_class _ _ o := if o =? 401 then Some 105 else None;
|}.

(** Native 0 is a send that answers the port at 4096. *)
Definition natives : Natives := {|
  kNativeTable native := fun prog p arguments =>
    match native with
    | 0 => Some (4096, p)
    | _ => Some (null_object prog, p)
    end;
|}.

(** Coroutine 33 has a catch block at 700, two slots down. *)
Definition stack_walker : StackWalker := {|
  ComputeCatchBlock _ p := if coroutine p =? 33 then (700, 2) else (0, 0);
|}.

(** The selector [foo] (id 3, no arguments) is 3072; class 105 has a
    method for it, the function 201; the stub is the function 205. *)
Definition method_lookup : MethodLookup := {|
  LookupMethod _ clazz selector :=
    if (clazz =? 105) && (selector =? 3072) then Some 201 else None;
  no_such_method_stub _ := 205;
|}.

Definition platform : Platform := {| kBitsPerWord := 64 |}.

Fixpoint zero_fill (n : nat) (address : Z) (m : gmap Z Z) : gmap Z Z :=
  match n with
  | O => m
  | S n' => <[address := 0]> (zero_fill n' (address + 1) m)
  end.

(** A [calloc] that always answers a zeroed block at 8192. *)
Definition libc : Libc := {|
  calloc m count size := (8192, zero_fill (Z.to_nat (count * size)) 8192 m);
  free m address := m;
|}.

Definition foreign_code : ForeignCode := {|
  call_foreign address words p := (2 ^ 32 + 5, p);
|}.

Definition bytes : list (Z * Z) :=
  [ (500, 5); (501, 1); (502, 1);
    (510, 6); (511, 0); (512, 0); (513, 0); (514, 0);
    (520, 4); (521, 1); (522, 0);
    (530, 1); (531, 0); (532, 0); (533, 0); (534, 0) ].

Definition prog : Program := {|
  null_object := 9;
  true_object := 13;
  false_object := 21;
  classes := [101];
  dispatch_table :=
    [0; 6144; 0; 0;
     14; 16; 0; 201;
     0; 2 * (2 ^ 62 - 1); 0; 205];
  vtable := [301; 301; 301; 301; 301; 301; 301; 301; 301; 305];
  smi_class := 101;
  session := None;
  ConstantForBytecode := fun _ => 101;
  ObjectFromFailure := fun _ => 25;
  program_heap :=
    <[101 := HClass 0 0]>
      (<[105 := HClass 7 0]>
         (<[201 := HFunction 0 1000]>
            (<[205 := HFunction 0 2000]>
               (<[301 := HArray [0; 0; 205; 0]]>
                  (<[305 := HArray [4; 0; 201; 0]]> ∅)))));
  code := list_to_map bytes;
|}.

Definition stack33 : Stack :=
  {| slots := [0; 0; 44; 0; 0; 0; 0; 0]; top := 0 |}.

(** A process running coroutine [current] of three: coroutine 17 on
    [st], called by coroutine 33; coroutines 33 and 49 have no caller.
    The Doubles at 601 and 605 both hold NaN. *)
Definition process_on (current : Z) (st : Stack) : Process := {|
  heap :=
    <[17 := HCoroutine (Some st) (Some 33)]>
      (<[33 := HCoroutine (Some stack33) None]>
         (<[49 := HCoroutine (Some stack33) None]>
            (<[601 := HDouble S754_nan]>
               (<[605 := HDouble S754_nan]> ∅))));
  coroutine := current;
  cache := ∅;
  debug_info := None;
  ports := {[ 4096 := {| IsLocked := true; ref_count := 1 |} ]};
  memory := ∅;
  output := [];
|}.

Definition state_on (current : Z) (st : Stack) (sp_ bcp_ : Z) : State := {|
  program := prog;
  process := process_on current st;
  sp := sp_;
  bcp := bcp_;
  yield_target := None;
|}.

(** A frame: a slot of the caller, the receiver, the return address
    after the invoke at 530, and one local. *)
Definition frame : Stack :=
  {| slots := [77; 401; 535; 88; 0; 0; 0; 0]; top := 0 |}.

(** The frame when the no-such-method handler has answered 10: above the
    return address sit the selector [foo] as a small integer and the
    answer. *)
Definition exit_frame : Stack :=
  {| slots := [77; 401; 535; 6144; 10; 0; 0; 0]; top := 0 |}.

(** Two distinct Doubles on top of the stack. *)
Definition doubles_frame : Stack :=
  {| slots := [601; 605; 0; 0; 0; 0; 0; 0]; top := 0 |}.

Definition site : CallSite :=
  {| site_selector := 3072; site_index := 0; site_vtable_selector := 2048 |}.

End Example.

(** ** The remaining opcodes of [Engine::Interpret] *)

(** The sixteen kinds of the macro [INVOKE_BUILTIN(kind)]. *)
Module Builtin.
Inductive kind :=
| Eq | Lt | Le | Gt | Ge
| Add | Sub | Mod | Mul | TruncDiv
| BitNot | BitAnd | BitOr | BitXor | BitShr | BitShl.
End Builtin.

(** The opcodes of the dispatch loop beside those of [Opcode]. *)
Inductive MoreOpcode :=
| kLoadLocal0 | kLoadLocal1 | kLoadLocal2 | kLoadLocal
| kLoadBoxed | kLoadStatic | kLoadStaticInit | kLoadField
| kLoadConst | kLoadConstUnfold
| kStoreLocal | kStoreBoxed | kStoreStatic | kStoreField
| kLoadLiteralNull | kLoadLiteralTrue | kLoadLiteralFalse
| kLoadLiteral0 | kLoadLiteral1 | kLoadLiteral | kLoadLiteralWide
| kInvokeStatic | kInvokeFactory | kInvokeStaticUnfold | kInvokeFactoryUnfold
| kInvokeBuiltin (kind : Builtin.kind)
| kInvokeBuiltinFast (kind : Builtin.kind)
| kInvokeBuiltinVtable (kind : Builtin.kind)
| kInvokeTest | kInvokeTestFast | kInvokeTestVtable
| kPop
| kBranchLong | kBranchIfTrueLong | kBranchIfFalseLong
| kBranchBack | kBranchBackIfTrue | kBranchBackIfFalse
| kBranchBackLong | kBranchBackIfTrueLong | kBranchBackIfFalseLong
| kPopAndBranchLong | kPopAndBranchBackLong
| kNegate | kStackOverflowCheck
| kProcessYield | kCoroutineChange
| kSubroutineCall | kSubroutineReturn
| kFrameSize | kMethodEnd.

(** [bytecodes.h]: numbering and lengths of these opcodes. *)
Class MoreBytecodes := {
  MoreOpcode_of_byte : Z -> option MoreOpcode;
  kLoadLocal0Length : Z;
  kLoadLocal1Length : Z;
  kLoadLocal2Length : Z;
  kLoadLocalLength : Z;
  kLoadBoxedLength : Z;
  kLoadStaticLength : Z;
  kLoadStaticInitLength : Z;
  kLoadFieldLength : Z;
  kLoadConstLength : Z;
  kLoadConstUnfoldLength : Z;
  kStoreLocalLength : Z;
  kStoreBoxedLength : Z;
  kStoreStaticLength : Z;
  kStoreFieldLength : Z;
  kLoadLiteralNullLength : Z;
  kLoadLiteralTrueLength : Z;
  kLoadLiteralFalseLength : Z;
  kLoadLiteral0Length : Z;
  kLoadLiteral1Length : Z;
  kLoadLiteralLength : Z;
  kLoadLiteralWideLength : Z;
  kInvokeStaticLength : Z;
  kInvokeTestLength : Z;
  kInvokeTestFastLength : Z;
  kInvokeTestVtableLength : Z;
  kPopLength : Z;
  kBranchIfTrueLongLength : Z;
  kBranchIfFalseLongLength : Z;
  kBranchBackIfTrueLength : Z;
  kBranchBackIfTrueLongLength : Z;
  kBranchBackIfFalseLongLength : Z;
  kNegateLength : Z;
  kStackOverflowCheckLength : Z;
  kProcessYieldLength : Z;
  kCoroutineChangeLength : Z;
  kFrameSizeLength : Z;
}.

(** [program.h], [process.h], [object.h]: the constant and static-method
    tables of the program, the array of statics of the process (a
    reference into its heap), and the function of an initializer
    ([None] for a value that is no initializer). *)
Class Tables := {
  constant_at : Program -> Z -> option Object;
  static_method_at : Program -> Z -> option Object;
  Process_statics : Process -> Object;
  Initializer_function : Program -> Process -> Object -> option Object;
}.

Definition set_debug_info (d : option DebugInfo) (p : Process) : Process :=
  {| heap := heap p; coroutine := coroutine p; cache := cache p;
     debug_info := d; ports := ports p; memory := memory p;
     output := output p |}.

Definition set_ports (ps : gmap Z Port) (p : Process) : Process :=
  {| heap := heap p; coroutine := coroutine p; cache := cache p;
     debug_info := debug_info p; ports := ps; memory := memory p;
     output := output p |}.

Section EngineHelpers.

Context {object_model : ObjectModel} {selectors : Selectors}
        {bytecodes : Bytecodes} {heap_ : Heap} {natives : Natives}
        {stack_walker : StackWalker} {method_lookup : MethodLookup}
        {tables : Tables}.

Definition Branch (true_offset false_offset : Z) : M unit :=
  condition <- Pop ;;
  s <- get ;;
  let offset := if decide (condition = true_object (program s))
                then true_offset else false_offset in
  Advance offset.

Definition PushDelta (delta : Z) : M unit := Push (Smi_FromWord delta).

(** The word of the small integer is handed back as an [int]. *)
Definition PopDelta : M Z := v <- Pop ;; ret (to_int32 (Smi_value v)).

Definition IsAtBreakPoint : M bool :=
  s <- get ;;
  match debug_info (process s) with
  | Some info =>
      let result := is_at_breakpoint info in
      modify (fun s =>
        set_process
          (set_debug_info
             (Some {| DebugInfo_ShouldBreak := DebugInfo_ShouldBreak info;
                      is_at_breakpoint := false |})
             (process s)) s) ;;
      ret result
  | None => ret false
  end.

(** [-value] for an [int]: the negation of the least [int] overflows,
    which C++ leaves undefined. *)
Definition negate (value : Z) : M Z :=
  ASSERT (negb (value =? - 2 ^ 31)) ;; ret (- value).

(** *** Object accessors *)

Definition GetInstanceField (instance : Object) (i : Z) : M Object :=
  s <- get ;;
  match object_at (program s) (process s) instance with
  | Some (HInstance fields) => lift (Array_get fields i)
  | _ => fail
  end.

Definition Boxed_value (boxed : Object) : M Object :=
  s <- get ;;
  match object_at (program s) (process s) boxed with
  | Some (HBoxed value) => ret value
  | _ => fail
  end.

Definition Boxed_set_value (boxed : Object) (value : Object) : M unit :=
  fun s =>
    match heap (process s) !! boxed with
    | Some (HBoxed _) =>
        Some (tt, set_process
                    (set_heap (<[boxed := HBoxed value]> (heap (process s)))
                              (process s)) s)
    | _ => None
    end.

(** [process()->statics()->get(index)] *)
Definition statics_get (index : Z) : M Object :=
  s <- get ;;
  match heap (process s) !! Process_statics (process s) with
  | Some (HArray elements) => lift (Array_get elements index)
  | _ => fail
  end.

(** [process()->statics()->set(index, value)] *)
Definition statics_set (index : Z) (value : Object) : M unit :=
  fun s =>
    let statics := Process_statics (process s) in
    match heap (process s) !! statics with
    | Some (HArray elements) =>
        if decide (0 <= index < Z.of_nat (length elements))
        then Some (tt, set_process
                         (set_heap (<[statics := HArray (<[Z.to_nat index := value]> elements)]>
                                      (heap (process s))) (process s)) s)
        else None
    | _ => None
    end.

(** The loop of [InvokeTestFast]: the same walk as that of
    [InvokeMethodFast], left with the upper bound of the row found. *)
Fixpoint dispatch_table_scan_upper (fuel : nat) (table : list Object)
         (index class_id offset : Z) : option Object :=
  match fuel with
  | O => None
  | S fuel' =>
      match Array_get table (index + offset) with
      | None => None
      | Some lower =>
          if class_id <? Smi_value lower
          then dispatch_table_scan_upper fuel' table index class_id (offset + 4)
          else
            match Array_get table (index + offset + 1) with
            | None => None
            | Some upper =>
                if class_id >=? Smi_value upper
                then dispatch_table_scan_upper fuel' table index class_id (offset + 4)
                else Some upper
            end
      end
  end.

Definition InvokeTestFast_upper (prog : Program) (index class_id : Z)
  : option Object :=
  dispatch_table_scan_upper (length (dispatch_table prog)) (dispatch_table prog)
                            index class_id 4.

(** The entry inspected by [InvokeTestVtable]: the offset stored in the
    vtable entry at [class_id + offset]. *)
Definition InvokeTestVtable_stored (prog : Program) (p : Process)
           (class_id offset : Z) : option Z :=
  match Array_get (vtable prog) (class_id + offset) with
  | None => None
  | Some entry_ref =>
      match Array_elements prog p entry_ref with
      | None => None
      | Some entry =>
          match Array_get entry 0 with
          | None => None
          | Some stored => Some (Smi_value stored)
          end
      end
  end.

End EngineHelpers.

Module Ops.
Section Opcodes.

Context {object_model : ObjectModel} {selectors : Selectors}
        {bytecodes : Bytecodes} {heap_ : Heap} {natives : Natives}
        {stack_walker : StackWalker} {method_lookup : MethodLookup}
        {more_bytecodes : MoreBytecodes} {tables : Tables}.

Definition LoadLocal0 : M Next :=
  local <- Local 0 ;;
  Push local ;;
  Advance kLoadLocal0Length ;;
  ret DISPATCH.

Definition LoadLocal1 : M Next :=
  local <- Local 1 ;;
  Push local ;;
  Advance kLoadLocal1Length ;;
  ret DISPATCH.

Definition LoadLocal2 : M Next :=
  local <- Local 2 ;;
  Push local ;;
  Advance kLoadLocal2Length ;;
  ret DISPATCH.

Definition LoadLocal : M Next :=
  offset <- ReadByte 1 ;;
  local <- Local offset ;;
  Push local ;;
  Advance kLoadLocalLength ;;
  ret DISPATCH.

Definition LoadBoxed : M Next :=
  offset <- ReadByte 1 ;;
  boxed <- Local offset ;;
  value <- Boxed_value boxed ;;
  Push value ;;
  Advance kLoadBoxedLength ;;
  ret DISPATCH.

Definition LoadStatic : M Next :=
  index <- ReadInt32 1 ;;
  value <- statics_get index ;;
  Push value ;;
  Advance kLoadStaticLength ;;
  ret DISPATCH.

Definition LoadStaticInit : M Next :=
  index <- ReadInt32 1 ;;
  value <- statics_get index ;;
  s <- get ;;
  match Initializer_function (program s) (process s) value with
  | Some target_ =>
      PushReturnAddress kLoadStaticInitLength ;;
      address <- bytecode_address_for target_ 0 ;;
      Goto address ;;
      ok <- StackOverflowCheck 0 ;;
      if negb ok then ret (Return_ kInterrupt) else ret DISPATCH
  | None =>
      Push value ;;
      Advance kLoadStaticInitLength ;;
      ret DISPATCH
  end.

Definition LoadField : M Next :=
  target_ <- Pop ;;
  index <- ReadByte 1 ;;
  value <- GetInstanceField target_ index ;;
  Push value ;;
  Advance kLoadFieldLength ;;
  ret DISPATCH.

Definition LoadConst : M Next :=
  index <- ReadInt32 1 ;;
  s <- get ;;
  constant <- lift (constant_at (program s) index) ;;
  Push constant ;;
  Advance kLoadConstLength ;;
  ret DISPATCH.

Definition LoadConstUnfold : M Next :=
  constant <- ReadConstant ;;
  Push constant ;;
  Advance kLoadConstUnfoldLength ;;
  ret DISPATCH.

Definition StoreLocal : M Next :=
  offset <- ReadByte 1 ;;
  value <- Local 0 ;;
  SetLocal offset value ;;
  Advance kStoreLocalLength ;;
  ret DISPATCH.

Definition StoreBoxed : M Next :=
  offset <- ReadByte 1 ;;
  value <- Local 0 ;;
  boxed <- Local offset ;;
  Boxed_set_value boxed value ;;
  Advance kStoreBoxedLength ;;
  ret DISPATCH.

Definition StoreStatic : M Next :=
  index <- ReadInt32 1 ;;
  value <- Local 0 ;;
  statics_set index value ;;
  Advance kStoreStaticLength ;;
  ret DISPATCH.

Definition StoreField : M Next :=
  value <- Pop ;;
  target_ <- Pop ;;
  index <- ReadByte 1 ;;
  SetInstanceField target_ index value ;;
  Push value ;;
  Advance kStoreFieldLength ;;
  ret DISPATCH.

Definition LoadLiteralNull : M Next :=
  s <- get ;;
  Push (null_object (program s)) ;;
  Advance kLoadLiteralNullLength ;;
  ret DISPATCH.

Definition LoadLiteralTrue : M Next :=
  s <- get ;;
  Push (true_object (program s)) ;;
  Advance kLoadLiteralTrueLength ;;
  ret DISPATCH.

Definition LoadLiteralFalse : M Next :=
  s <- get ;;
  Push (false_object (program s)) ;;
  Advance kLoadLiteralFalseLength ;;
  ret DISPATCH.

Definition LoadLiteral0 : M Next :=
  Push (Smi_FromWord 0) ;;
  Advance kLoadLiteral0Length ;;
  ret DISPATCH.

Definition LoadLiteral1 : M Next :=
  Push (Smi_FromWord 1) ;;
  Advance kLoadLiteral1Length ;;
  ret DISPATCH.

Definition LoadLiteral : M Next :=
  value <- ReadByte 1 ;;
  Push (Smi_FromWord value) ;;
  Advance kLoadLiteralLength ;;
  ret DISPATCH.

Definition LoadLiteralWide : M Next :=
  value <- ReadInt32 1 ;;
  ASSERT (Smi_IsValid value) ;;
  Push (Smi_FromWord value) ;;
  Advance kLoadLiteralWideLength ;;
  ret DISPATCH.

Definition InvokeStatic : M Next :=
  index <- ReadInt32 1 ;;
  s <- get ;;
  target_ <- lift (static_method_at (program s) index) ;;
  PushReturnAddress kInvokeStaticLength ;;
  address <- bytecode_address_for target_ 0 ;;
  Goto address ;;
  ok <- StackOverflowCheck 0 ;;
  if negb ok then ret (Return_ kInterrupt) else ret DISPATCH.

Definition InvokeFactory : M Next := InvokeStatic.

Definition InvokeStaticUnfold : M Next :=
  target_ <- ReadConstant ;;
  PushReturnAddress kInvokeStaticLength ;;
  address <- bytecode_address_for target_ 0 ;;
  Goto address ;;
  ok <- StackOverflowCheck 0 ;;
  if negb ok then ret (Return_ kInterrupt) else ret DISPATCH.

Definition InvokeFactoryUnfold : M Next := InvokeStaticUnfold.

(** The macro [INVOKE_BUILTIN(kind)]: three opcodes per kind, each a
    jump to the label of the general invoke. *)
Definition InvokeBuiltin (kind : Builtin.kind) : M Next := Op.InvokeMethod.
Definition InvokeBuiltinFast (kind : Builtin.kind) : M Next := Op.InvokeMethodFast.
Definition InvokeBuiltinVtable (kind : Builtin.kind) : M Next :=
  Op.InvokeMethodVtable.

Definition InvokeTest : M Next :=
  selector <- ReadInt32 1 ;;
  receiver <- Local 0 ;;
  entry <- LookupEntry receiver selector ;;
  result <- ToBool (negb (tag entry =? 0)) ;;
  SetTop result ;;
  Advance kInvokeTestLength ;;
  ret DISPATCH.

Definition InvokeTestFast : M Next :=
  index <- ReadInt32 1 ;;
  receiver <- Local 0 ;;
  s <- get ;;
  clazz <- lift (class_of (program s) (process s) receiver) ;;
  class_id <- lift (Class_id (program s) (process s) clazz) ;;
  upper <- lift (InvokeTestFast_upper (program s) index class_id) ;;
  result <- ToBool (negb (upper =? Smi_FromWord Smi_kMaxValue)) ;;
  SetTop result ;;
  Advance kInvokeTestFastLength ;;
  ret DISPATCH.

Definition InvokeTestVtable : M Next :=
  selector <- ReadInt32 1 ;;
  let offset := IdField_decode selector in
  receiver <- Local 0 ;;
  s <- get ;;
  clazz <- lift (class_of (program s) (process s) receiver) ;;
  class_id <- lift (Class_id (program s) (process s) clazz) ;;
  stored <- lift (InvokeTestVtable_stored (program s) (process s) class_id offset) ;;
  result <- ToBool (stored =? offset) ;;
  SetTop result ;;
  Advance kInvokeTestVtableLength ;;
  ret DISPATCH.

Definition Pop : M Next :=
  Drop 1 ;;
  Advance kPopLength ;;
  ret DISPATCH.

Definition BranchLong : M Next :=
  delta <- ReadInt32 1 ;;
  Advance delta ;;
  ret DISPATCH.

Definition BranchIfTrueLong : M Next :=
  delta <- ReadInt32 1 ;;
  Branch delta kBranchIfTrueLongLength ;;
  ret DISPATCH.

Definition BranchIfFalseLong : M Next :=
  delta <- ReadInt32 1 ;;
  Branch kBranchIfFalseLongLength delta ;;
  ret DISPATCH.

Definition BranchBack : M Next :=
  ok <- StackOverflowCheck 0 ;;
  if negb ok then ret (Return_ kInterrupt)
  else
    delta <- ReadByte 1 ;;
    Advance (- delta) ;;
    ret DISPATCH.

Definition BranchBackIfTrue : M Next :=
  ok <- StackOverflowCheck 0 ;;
  if negb ok then ret (Return_ kInterrupt)
  else
    byte <- ReadByte 1 ;;
    let delta := - byte in
    Branch delta kBranchBackIfTrueLength ;;
    ret DISPATCH.

(** The fall-through of [BranchBackIfFalse] is the length of
    [BranchBackIfTrue], as the source has it. *)
Definition BranchBackIfFalse : M Next :=
  ok <- StackOverflowCheck 0 ;;
  if negb ok then ret (Return_ kInterrupt)
  else
    byte <- ReadByte 1 ;;
    let delta := - byte in
    Branch kBranchBackIfTrueLength delta ;;
    ret DISPATCH.

Definition BranchBackLong : M Next :=
  ok <- StackOverflowCheck 0 ;;
  if negb ok then ret (Return_ kInterrupt)
  else
    delta <- ReadInt32 1 ;;
    back <- negate delta ;;
    Advance back ;;
    ret DISPATCH.

Definition BranchBackIfTrueLong : M Next :=
  ok <- StackOverflowCheck 0 ;;
  if negb ok then ret (Return_ kInterrupt)
  else
    value <- ReadInt32 1 ;;
    delta <- negate value ;;
    Branch delta kBranchBackIfTrueLongLength ;;
    ret DISPATCH.

Definition BranchBackIfFalseLong : M Next :=
  ok <- StackOverflowCheck 0 ;;
  if negb ok then ret (Return_ kInterrupt)
  else
    value <- ReadInt32 1 ;;
    delta <- negate value ;;
    Branch kBranchBackIfFalseLongLength delta ;;
    ret DISPATCH.

Definition PopAndBranchLong : M Next :=
  pop_count <- ReadByte 1 ;;
  delta <- ReadInt32 2 ;;
  Drop pop_count ;;
  Advance delta ;;
  ret DISPATCH.

Definition PopAndBranchBackLong : M Next :=
  ok <- StackOverflowCheck 0 ;;
  if negb ok then ret (Return_ kInterrupt)
  else
    pop_count <- ReadByte 1 ;;
    value <- ReadInt32 2 ;;
    delta <- negate value ;;
    Drop pop_count ;;
    Advance delta ;;
    ret DISPATCH.

(** [UNIMPLEMENTED()] aborts the process; no state results. *)
Definition Negate : M Next :=
  condition <- Local 0 ;;
  s <- get ;;
  (if decide (condition = true_object (program s))
   then SetTop (false_object (program s))
   else if decide (condition = false_object (program s))
   then SetTop (true_object (program s))
   else fail) ;;
  Advance kNegateLength ;;
  ret DISPATCH.

Definition StackOverflowCheck : M Next :=
  size <- ReadInt32 1 ;;
  ok <- StackOverflowCheck size ;;
  if negb ok then ret (Return_ kInterrupt)
  else
    Advance kStackOverflowCheckLength ;;
    ret DISPATCH.

Definition ProcessYield : M Next :=
  value <- Local 0 ;;
  s <- get ;;
  SetTop (null_object (program s)) ;;
  Advance kProcessYieldLength ;;
  SaveState ;;
  let terminated := value =? true_object (program s) in
  ret (Return_ (if terminated then kTerminate else kYield)).

Definition CoroutineChange : M Next :=
  argument <- Local 0 ;;
  s <- get ;;
  SetLocal 0 (null_object (program s)) ;;
  coroutine <- Local 1 ;;
  SetLocal 1 (null_object (program s)) ;;
  SaveState ;;
  modify (fun s => set_process (Process_UpdateCoroutine coroutine (process s)) s) ;;
  RestoreState ;;
  Advance kCoroutineChangeLength ;;
  Drop 1 ;;
  SetTop argument ;;
  ret DISPATCH.

Definition SubroutineCall : M Next :=
  delta <- ReadInt32 1 ;;
  return_delta <- ReadInt32 5 ;;
  PushDelta return_delta ;;
  Advance delta ;;
  ret DISPATCH.

Definition SubroutineReturn : M Next :=
  delta <- PopDelta ;;
  back <- negate delta ;;
  Advance back ;;
  ret DISPATCH.

Definition FrameSize : M Next :=
  Advance kFrameSizeLength ;;
  ret DISPATCH.

(** [FATAL("Cannot interpret 'method-end' bytecodes.")] *)
Definition MethodEnd : M Next := fail.

End Opcodes.
End Ops.

(** ** The dispatch loop *)

(** How [Interpret] is left: by returning an interrupt kind, or through
    [exit]. *)
Inductive Outcome :=
| Interrupted (kind : InterruptKind)
| Exited_ (status : Z).

Section Interpreter.

Context {object_model : ObjectModel} {selectors : Selectors}
        {bytecodes : Bytecodes} {heap_ : Heap} {natives : Natives}
        {stack_walker : StackWalker} {method_lookup : MethodLookup}
        {more_bytecodes : MoreBytecodes} {tables : Tables}.

Definition execute_more (opcode : MoreOpcode) : M Next :=
  match opcode with
  | kLoadLocal0 => Ops.LoadLocal0
  | kLoadLocal1 => Ops.LoadLocal1
  | kLoadLocal2 => Ops.LoadLocal2
  | kLoadLocal => Ops.LoadLocal
  | kLoadBoxed => Ops.LoadBoxed
  | kLoadStatic => Ops.LoadStatic
  | kLoadStaticInit => Ops.LoadStaticInit
  | kLoadField => Ops.LoadField
  | kLoadConst => Ops.LoadConst
  | kLoadConstUnfold => Ops.LoadConstUnfold
  | kStoreLocal => Ops.StoreLocal
  | kStoreBoxed => Ops.StoreBoxed
  | kStoreStatic => Ops.StoreStatic
  | kStoreField => Ops.StoreField
  | kLoadLiteralNull => Ops.LoadLiteralNull
  | kLoadLiteralTrue => Ops.LoadLiteralTrue
  | kLoadLiteralFalse => Ops.LoadLiteralFalse
  | kLoadLiteral0 => Ops.LoadLiteral0
  | kLoadLiteral1 => Ops.LoadLiteral1
  | kLoadLiteral => Ops.LoadLiteral
  | kLoadLiteralWide => Ops.LoadLiteralWide
  | kInvokeStatic => Ops.InvokeStatic
  | kInvokeFactory => Ops.InvokeFactory
  | kInvokeStaticUnfold => Ops.InvokeStaticUnfold
  | kInvokeFactoryUnfold => Ops.InvokeFactoryUnfold
  | kInvokeBuiltin kind => Ops.InvokeBuiltin kind
  | kInvokeBuiltinFast kind => Ops.InvokeBuiltinFast kind
  | kInvokeBuiltinVtable kind => Ops.InvokeBuiltinVtable kind
  | kInvokeTest => Ops.InvokeTest
  | kInvokeTestFast => Ops.InvokeTestFast
  | kInvokeTestVtable => Ops.InvokeTestVtable
  | kPop => Ops.Pop
  | kBranchLong => Ops.BranchLong
  | kBranchIfTrueLong => Ops.BranchIfTrueLong
  | kBranchIfFalseLong => Ops.BranchIfFalseLong
  | kBranchBack => Ops.BranchBack
  | kBranchBackIfTrue => Ops.BranchBackIfTrue
  | kBranchBackIfFalse => Ops.BranchBackIfFalse
  | kBranchBackLong => Ops.BranchBackLong
  | kBranchBackIfTrueLong => Ops.BranchBackIfTrueLong
  | kBranchBackIfFalseLong => Ops.BranchBackIfFalseLong
  | kPopAndBranchLong => Ops.PopAndBranchLong
  | kPopAndBranchBackLong => Ops.PopAndBranchBackLong
  | kNegate => Ops.Negate
  | kStackOverflowCheck => Ops.StackOverflowCheck
  | kProcessYield => Ops.ProcessYield
  | kCoroutineChange => Ops.CoroutineChange
  | kSubroutineCall => Ops.SubroutineCall
  | kSubroutineReturn => Ops.SubroutineReturn
  | kFrameSize => Ops.FrameSize
  | kMethodEnd => Ops.MethodEnd
  end.

(** [goto *kDispatchTable[ReadOpcode()]]: the body of the opcode under
    the bytecode pointer. *)
Definition DISPATCH_NO_BREAK (fuel : nat) : M Next :=
  byte <- ReadOpcode ;;
  match Opcode_of_byte byte with
  | Some opcode => execute fuel opcode
  | None =>
      opcode <- lift (MoreOpcode_of_byte byte) ;;
      execute_more opcode
  end.

(** The loop that the labels and [DISPATCH()] at the end of every opcode
    body form.  [break_check] tells whether the next dispatch goes
    through the breakpoint gate; [fuel] bounds the number of opcodes
    run, and the rounds of [HandleThrow] within one of them. *)
Fixpoint Interpret_loop (fuel : nat) (break_check : bool) : M Outcome :=
  match fuel with
  | O => fail
  | S fuel' =>
      should_break <- (if break_check then ShouldBreak else ret false) ;;
      if should_break then ret (Interrupted kBreakPoint)
      else
        next_ <- DISPATCH_NO_BREAK fuel' ;;
        match next_ with
        | DISPATCH => Interpret_loop fuel' true
        | Return_ kind => ret (Interrupted kind)
        | Exit status => ret (Exited_ status)
        end
  end.

Definition Interpret (fuel : nat) : M Outcome :=
  at_break_point <- IsAtBreakPoint ;;
  Interpret_loop fuel (negb at_break_point).

End Interpreter.

(** ** The default libraries and the remaining natives of [ffi.cc] *)

(** [dlfcn.h]: the dynamic loader, as the answers it gives: the handle
    for a library name ([None] is the [NULL] name, which stands for the
    program itself), the address of a symbol, and the status of closing
    a handle; 0 is [NULL]. *)
Class DynamicLoader := {
  dlopen : option string -> Z;
  dlsym : Z -> string -> Z;
  dlclose : Z -> Z;
}.

(** The blocks of the C heap that the registry of default libraries
    allocates: the library names copied by [strdup], the
    [DefaultLibraryEntry] objects and the mutex. *)
Inductive Block :=
| CString (chars : string)
| LibraryEntry (library_ next_ : Z)
| MutexBlock.

(** The allocator: the address at which the next block is placed. *)
Class Allocator := { allocate : gmap Z Block -> Z }.

(** The static members of [ForeignFunctionInterface], with the C heap
    they point into. *)
Record ForeignFunctionInterface := {
  libraries_ : Z;
  mutex_ : Z;
  blocks : gmap Z Block;
}.

(** [object.h]: the characters of a String as a C string ([None] for an
    object that is no String), and the test for instances of the port
    class. *)
Class ObjectKinds := {
  AsForeignString : Program -> Process -> Object -> option string;
  IsPort : Program -> Process -> Object -> bool;
}.

Section DefaultLibraries.

Context {dynamic_loader : DynamicLoader} {allocator : Allocator}.

(** [libraries_ = NULL; mutex_ = NULL;] *)
Definition no_libraries : ForeignFunctionInterface :=
  {| libraries_ := 0; mutex_ := 0; blocks := ∅ |}.

(** [free] and [delete]: releasing [NULL] does nothing, releasing a
    block that is not allocated is undefined. *)
Definition release (address : Z) (h : gmap Z Block) : option (gmap Z Block) :=
  if address =? 0 then Some h
  else match h !! address with
       | Some _ => Some (delete address h)
       | None => None
       end.

(** [ScopedLock lock(mutex_)] needs the mutex that [Setup] creates. *)
Definition has_mutex (ffi : ForeignFunctionInterface) : bool :=
  match blocks ffi !! mutex_ ffi with
  | Some MutexBlock => true
  | _ => false
  end.

Definition Setup (ffi : ForeignFunctionInterface) : ForeignFunctionInterface :=
  let mutex := allocate (blocks ffi) in
  {| libraries_ := libraries_ ffi;
     mutex_ := mutex;
     blocks := <[mutex := MutexBlock]> (blocks ffi) |}.

(** The loop of [TearDown]; [delete current] runs the destructor, which
    frees the name, and releases the entry.  Every round releases an
    entry, so the loop cannot take more rounds than there are blocks. *)
Fixpoint delete_entries (fuel : nat) (current : Z) (h : gmap Z Block)
  : option (gmap Z Block) :=
  if current =? 0 then Some h
  else
    match fuel with
    | O => None
    | S fuel' =>
        match h !! current with
        | Some (LibraryEntry library next) =>
            h ← release library h;
            h ← release current h;
            delete_entries fuel' next h
        | _ => None
        end
    end.

Definition TearDown (ffi : ForeignFunctionInterface)
  : option ForeignFunctionInterface :=
  h ← delete_entries (size (blocks ffi)) (libraries_ ffi) (blocks ffi);
  h ← (if mutex_ ffi =? 0 then Some h
       else match h !! mutex_ ffi with
            | Some MutexBlock => Some (delete (mutex_ ffi) h)
            | _ => None
            end);
  Some {| libraries_ := libraries_ ffi; mutex_ := mutex_ ffi; blocks := h |}.

Definition AddDefaultSharedLibrary (library : string)
           (ffi : ForeignFunctionInterface) : option ForeignFunctionInterface :=
  if has_mutex ffi then
    let copy := allocate (blocks ffi) in
    let h := <[copy := CString library]> (blocks ffi) in
    let entry := allocate h in
    Some {| libraries_ := entry;
            mutex_ := mutex_ ffi;
            blocks := <[entry := LibraryEntry copy (libraries_ ffi)]> h |}
  else None.

Definition PerformForeignLookup (library : option string) (name : string) : Z :=
  let handle := dlopen library in
  if handle =? 0 then 0
  else
    let result := dlsym handle name in
    if negb (dlclose handle =? 0) then 0 else result.

(** The loop of [LookupInDefaultLibraries]; a walk of more entries than
    there are blocks has entered a cycle and never ends. *)
Fixpoint lookup_entries (fuel : nat) (current : Z) (h : gmap Z Block)
         (symbol : string) : option Z :=
  if current =? 0 then Some 0
  else
    match fuel with
    | O => None
    | S fuel' =>
        match h !! current with
        | Some (LibraryEntry library next) =>
            name ← (if library =? 0 then Some None
                    else match h !! library with
                         | Some (CString chars) => Some (Some chars)
                         | _ => None
                         end);
            let result := PerformForeignLookup name symbol in
            if negb (result =? 0) then Some result
            else lookup_entries fuel' next h symbol
        | _ => None
        end
    end.

Definition LookupInDefaultLibraries (symbol : string)
           (ffi : ForeignFunctionInterface) : option Z :=
  if has_mutex ffi
  then lookup_entries (size (blocks ffi)) (libraries_ ffi) (blocks ffi) symbol
  else None.

End DefaultLibraries.

Module Foreign.
Section Natives.

Context {object_model : ObjectModel} {heap_ : Heap} {platform : Platform}
        {dynamic_loader : DynamicLoader} {object_kinds : ObjectKinds}.

Definition failed_lookup (name : string) : string :=
  String.append "Failed foreign lookup: " (String.append name newline).

(** The copies of the two strings that [AsForeignString] allocates are
    freed before the native answers; they leave no trace in the model. *)
Definition ForeignLookup (ffi : ForeignFunctionInterface) : NativeFunction :=
  fun prog p arguments =>
    argument1 ← arguments !! 1%nat;
    argument0 ← arguments !! 0%nat;
    let library := AsForeignString prog p argument1 in
    name ← AsForeignString prog p argument0;
    let result := PerformForeignLookup library name in
    result ← (if result =? 0 then LookupInDefaultLibraries name ffi
              else Some result);
    let p := if result =? 0
             then emit (Write stderr (Literal (failed_lookup name))) p
             else p in
    if negb (result =? 0) then Some (FFI.ToInteger prog p result)
    else Some (Failure_index_out_of_bounds, p).

Definition IncrementRef (port : Port) : Port :=
  {| IsLocked := IsLocked port; ref_count := ref_count port + 1 |}.

Definition ForeignConvertPort : NativeFunction := fun prog p arguments =>
  argument0 ← arguments !! 0%nat;
  if IsSmi argument0 then Some (Smi_FromWord 0, p)
  else
    match object_at prog p argument0 with
    | Some (HInstance fields) =>
        if negb (IsPort prog p argument0) then Some (Smi_FromWord 0, p)
        else
          field ← Array_get fields 0;
          address ← FFI.AsForeignWord prog p field;
          if address =? 0 then Some (Smi_FromWord 0, p)
          else
            port ← ports p !! address;
            let p := set_ports (<[address := IncrementRef port]> (ports p)) p in
            Some (FFI.ToInteger prog p address)
    | Some _ => Some (Smi_FromWord 0, p)
    | None => None
    end.

End Natives.
End Foreign.

(** ** Further notions used to state the properties *)

Section MoreSpecification.

Context {object_model : ObjectModel} {selectors : Selectors}
        {bytecodes : Bytecodes} {heap_ : Heap} {natives : Natives}
        {stack_walker : StackWalker} {method_lookup : MethodLookup}
        {more_bytecodes : MoreBytecodes} {tables : Tables}.

(** The function that each of the four static invokes calls, after the
    operand decoding of the opcode. *)
Definition static_target (opcode : MoreOpcode) : M Object :=
  match opcode with
  | kInvokeStatic | kInvokeFactory =>
      index <- ReadInt32 1 ;;
      s <- get ;;
      lift (static_method_at (program s) index)
  | kInvokeStaticUnfold | kInvokeFactoryUnfold => ReadConstant
  | _ => fail
  end.

(** The class that each of the four instance-allocating opcodes
    instantiates, after the operand decoding of the opcode, and the
    length by which the opcode advances. *)
Definition allocated_class (opcode : Opcode) : M Object :=
  match opcode with
  | kAllocate | kAllocateImmutable =>
      index <- ReadInt32 1 ;;
      Op.class_at_checked index
  | kAllocateUnfold | kAllocateImmutableUnfold => ReadConstant
  | _ => fail
  end.

Definition allocate_length (opcode : Opcode) : Z :=
  match opcode with
  | kAllocateImmutable => kAllocateImmutableLength
  | kAllocateImmutableUnfold => kAllocateImmutableUnfoldLength
  | _ => kAllocateLength
  end.

(** [n] rounds of unwinding: each moves the process to the caller of the
    coroutine it runs and marks that coroutine as done. *)
Fixpoint unwind_rounds (n : nat) (p : Process) : option Process :=
  match n with
  | O => Some p
  | S n' =>
      match heap p !! coroutine p with
      | Some (HCoroutine _ (Some caller)) =>
          unwind_rounds n' (unwound_to caller p)
      | _ => None
      end
  end.

(** The opcodes that branch backwards. *)
Definition branches_back (opcode : MoreOpcode) : bool :=
  match opcode with
  | kBranchBack | kBranchBackIfTrue | kBranchBackIfFalse
  | kBranchBackLong | kBranchBackIfTrueLong | kBranchBackIfFalseLong
  | kPopAndBranchBackLong => true
  | _ => false
  end.

(** The process with the breakpoint flag of its debug information
    cleared. *)
Definition clear_is_at_breakpoint (s : State) : State :=
  match debug_info (process s) with
  | Some info =>
      set_process
        (set_debug_info
           (Some {| DebugInfo_ShouldBreak := DebugInfo_ShouldBreak info;
                    is_at_breakpoint := false |})
           (process s)) s
  | None => s
  end.

(** The engine state is saved in the stack of the process: the stack
    object records the stack pointer as its top, and the slot there
    holds the bytecode pointer. *)
Definition state_saved (s : State) : Prop :=
  exists st,
    Process_stack (process s) = Some st /\
    top st = sp s /\
    slot_at st (sp s) = Some (bcp s).

(** An opcode body that, when it returns from [Interpret], does so with
    a kind other than [kReady] and, unless the kind is
    [kUncaughtException], with the state saved. *)
Definition surrenders (m : M Next) : Prop :=
  forall s kind s',
    m s = Some (Return_ kind, s') ->
    kind <> kReady /\ (kind <> kUncaughtException -> state_saved s').

End MoreSpecification.

Section RegistrySpecification.

Context {dynamic_loader : DynamicLoader} {allocator : Allocator}.

(** [AddDefaultSharedLibrary] for each of [names] in turn. *)
Fixpoint add_libraries (names : list string) (ffi : ForeignFunctionInterface)
  : option ForeignFunctionInterface :=
  match names with
  | [] => Some ffi
  | name :: rest =>
      match AddDefaultSharedLibrary name ffi with
      | Some ffi' => add_libraries rest ffi'
      | None => None
      end
  end.

(** The heap [h] consists of exactly the entries of the libraries
    [names], linked from [head] in that order, each with its own copy of
    the name. *)
Fixpoint holds_libraries (h : gmap Z Block) (head : Z) (names : list string)
  : Prop :=
  match names with
  | [] => head = 0 /\ h = ∅
  | name :: rest =>
      head <> 0 /\
      exists copy next,
        copy <> 0 /\ copy <> head /\
        h !! head = Some (LibraryEntry copy next) /\
        h !! copy = Some (CString name) /\
        holds_libraries (delete head (delete copy h)) next rest
  end.

(** The first address other than [NULL] that the libraries [names]
    answer for [symbol], in the order of the list. *)
Fixpoint first_hit (names : list string) (symbol : string) : Z :=
  match names with
  | [] => 0
  | name :: rest =>
      let result := PerformForeignLookup (Some name) symbol in
      if negb (result =? 0) then result else first_hit rest symbol
  end.

(** The registry after [Setup]: the mutex and, beside it, exactly the
    entries of the libraries [names]. *)
Definition registry_of (names : list string) (ffi : ForeignFunctionInterface)
  : Prop :=
  mutex_ ffi <> 0 /\
  exists h,
    holds_libraries h (libraries_ ffi) names /\
    h !! mutex_ ffi = None /\
    blocks ffi = <[mutex_ ffi := MutexBlock]> h.

End RegistrySpecification.

(** ** A second small program, for the remaining opcodes and natives *)

Module Sample.

Definition more_bytecodes : MoreBytecodes := {|
  MoreOpcode_of_byte byte :=
    match byte with
    | 16 => Some kLoadLiteralTrue
    | 17 => Some kProcessYield
    | 18 => Some kNegate
    | 19 => Some kPop
    | 20 => Some kBranchBack
    | _ => None
    end;
  kLoadLocal0Length := 1;
  kLoadLocal1Length := 1;
  kLoadLocal2Length := 1;
  kLoadLocalLength := 2;
  kLoadBoxedLength := 2;
  kLoadStaticLength := 5;
  kLoadStaticInitLength := 5;
  kLoadFieldLength := 2;
  kLoadConstLength := 5;
  kLoadConstUnfoldLength := 5;
  kStoreLocalLength := 2;
  kStoreBoxedLength := 2;
  kStoreStaticLength := 5;
  kStoreFieldLength := 2;
  kLoadLiteralNullLength := 1;
  kLoadLiteralTrueLength := 1;
  kLoadLiteralFalseLength := 1;
  kLoadLiteral0Length := 1;
  kLoadLiteral1Length := 1;
  kLoadLiteralLength := 2;
  kLoadLiteralWideLength := 5;
  kInvokeStaticLength := 5;
  kInvokeTestLength := 5;
  kInvokeTestFastLength := 5;
  kInvokeTestVtableLength := 5;
  kPopLength := 1;
  kBranchIfTrueLongLength := 5;
  kBranchIfFalseLongLength := 5;
  kBranchBackIfTrueLength := 2;
  kBranchBackIfTrueLongLength := 5;
  kBranchBackIfFalseLongLength := 5;
  kNegateLength := 1;
  kStackOverflowCheckLength := 5;
  kProcessYieldLength := 1;
  kCoroutineChangeLength := 1;
  kFrameSizeLength := 2;
|}.

(** Static method 0 is the function 201; the statics live at 801. *)
Definition tables : Tables := {|
  constant_at _ _ := None;
  static_method_at _ index := if index =? 0 then Some 201 else None;
  Process_statics _ := 801;
  Initializer_function _ _ _ := None;
|}.

(** A heap with room: a new instance appears at 701 with two fields.
    The stack may hold four slots and does not grow. *)
Definition heap_ : Heap := {|
  Process_NewInstance _ p _ _ :=
    (701, set_heap (<[701 := HInstance [0; 0]]> (heap p)) p);
  Process_NewBoxed _ p _ := (3, p);
  Process_NewInteger _ p _ := (3, p);
  Process_CollectGarbage _ p := p;
  Process_HandleStackOverflow _ p _ := (false, p);
  Process_stack_limit _ := 4;
  IsImmutable _ _ _ := true;
  get_class _ _ o := if o =? 401 then Some 105 else None;
|}.

(** One library, [libc.so], with the one symbol [puts]. *)
Definition dynamic_loader : DynamicLoader := {|
  dlopen library :=
    match library with
    | Some name => if String.eqb name "libc.so" then 77 else 0
    | None => 0
    end;
  dlsym handle name :=
    if (handle =? 77) && String.eqb name "puts" then 4242 else 0;
  dlclose _ := 0;
|}.

(** Blocks are placed at the first address that is not in use. *)
Definition allocator : Allocator := {|
  allocate h := fresh ({[0]} ∪ dom h);
|}.

(** The Strings at 1001 and 1005; the port class has the one instance
    911. *)
Definition object_kinds : ObjectKinds := {|
  AsForeignString _ _ o :=
    if o =? 1001 then Some "puts"%string
    else if o =? 1005 then Some "libc.so"%string
    else None;
  IsPort _ _ o := o =? 911;
|}.

Definition bytes : list (Z * Z) :=
  [ (600, 0); (601, 20); (602, 0); (603, 0); (604, 0);
    (605, 9); (606, 0); (607, 0); (608, 0);
    (610, 0); (611, 1); (612, 0); (613, 1);
    (620, 0); (621, 1); (622, 0); (623, 1);
    (630, 0); (631, 2); (632, 0); (633, 0); (634, 0);
    (640, 6); (641, 1); (642, 0); (643, 0); (644, 0);
    (650, 0); (651, 0); (652, 8); (653, 0); (654, 0);
    (660, 0); (661, 0); (662, 0); (663, 0); (664, 0);
    (665, 0); (666, 0); (667, 0); (668, 0); (669, 0);
    (670, 3); (671, 1); (672, 0);
    (700, 16); (701, 17) ].

(** The program of [Example] with a second class, 109, of id 1 and two
    instance fields. *)
Definition prog : Program := {|
  null_object := 9;
  true_object := 13;
  false_object := 21;
  classes := [101; 109];
  dispatch_table := dispatch_table Example.prog;
  vtable := vtable Example.prog;
  smi_class := 101;
  session := None;
  ConstantForBytecode := fun _ => 201;
  ObjectFromFailure := fun _ => 25;
  program_heap := <[109 := HClass 1 2]> (program_heap Example.prog);
  code := list_to_map bytes;
|}.

(** Coroutine 33 is suspended at 560, with its bytecode pointer in
    slot 3 above the two operand slots of its [CoroutineChange]. *)
Definition suspended33 : Stack :=
  {| slots := [55; 9; 9; 560; 0; 0; 0; 0]; top := 3 |}.

(** A process running coroutine [current]: coroutine 17 on [st]; the
    box 901, the instance 905 with two fields, the port instance 911
    whose first field holds the address 4096, and the two statics at
    801; sixteen bytes of memory from 8192. *)
Definition process_on (current : Z) (st : Stack) (debug : option DebugInfo)
  : Process := {|
  heap :=
    <[17 := HCoroutine (Some st) None]>
      (<[33 := HCoroutine (Some suspended33) None]>
         (<[901 := HBoxed 5]>
            (<[905 := HInstance [1; 2]]>
               (<[911 := HInstance [8192]]>
                  (<[801 := HArray [9; 9]]> ∅)))));
  coroutine := current;
  cache := ∅;
  debug_info := debug;
  ports := {[ 4096 := {| IsLocked := true; ref_count := 1 |} ]};
  memory := Example.zero_fill 16 8192 ∅;
  output := [];
|}.

Definition state_on (st : Stack) (sp_ bcp_ : Z) (debug : option DebugInfo)
  : State := {|
  program := prog;
  process := process_on 17 st debug;
  sp := sp_;
  bcp := bcp_;
  yield_target := None;
|}.

(** Operands: a receiver, the true object, the box, the instance, and
    small integers. *)
Definition operands : Stack :=
  {| slots := [77; 401; 13; 901; 62; 905; 64; 0]; top := 0 |}.

(** The frame of a [CoroutineChange] to coroutine 33 with argument 66. *)
Definition change_frame : Stack :=
  {| slots := [77; 33; 66; 0; 0; 0; 0; 0]; top := 0 |}.

(** Break at bytecode 700. *)
Definition break_at_700 (marked : bool) : DebugInfo :=
  {| DebugInfo_ShouldBreak := fun bcp_ _ => bcp_ =? 700;
     is_at_breakpoint := marked |}.

End Sample.

(** * Properties *)

Create HintDb reads.

(** ** Running the primitive operations *)

Section Run.

Lemma Process_stack_set p st0 st :
  Process_stack p = Some st0 ->
  Process_stack (Process_set_stack st p) = Some st.
Proof.
  unfold Process_stack, Process_set_stack.
  destruct (heap p !! coroutine p) as [[]|] eqn:E; try discriminate.
  intros _. simpl. now rewrite lookup_insert_eq.
Qed.

Lemma Process_set_stack_twice p st1 st2 :
  Process_set_stack st2 (Process_set_stack st1 p) = Process_set_stack st2 p.
Proof.
  unfold Process_set_stack.
  destruct (heap p !! coroutine p) as [[]|] eqn:E; rewrite ?E; try reflexivity.
  simpl. rewrite lookup_insert_eq. unfold set_heap. simpl.
  now rewrite insert_insert_eq.
Qed.

Lemma Process_set_stack_id p st :
  Process_stack p = Some st -> Process_set_stack st p = p.
Proof.
  unfold Process_stack, Process_set_stack.
  destruct (heap p !! coroutine p) as [[| | | | | | |[st'|] c]|] eqn:E;
    try discriminate.
  intros [= ->]. rewrite insert_id by exact E. now destruct p.
Qed.

Lemma bind_run {A B} (m : M A) (k : A -> M B) s a s' :
  m s = Some (a, s') -> bind m k s = k a s'.
Proof. unfold bind. now intros ->. Qed.

Lemma load_run s st i v :
  Process_stack (process s) = Some st -> slot_at st i = Some v ->
  load i s = Some (v, s).
Proof. unfold load. now intros -> ->. Qed.

Lemma store_run s st i v :
  Process_stack (process s) = Some st ->
  0 <= i < Z.of_nat (length (slots st)) ->
  store i v s = Some (tt, put_stack (upd st i v) s).
Proof.
  unfold store, slot_set. intros -> Hi.
  now rewrite decide_True by exact Hi.
Qed.

Lemma Local_run s st n v :
  Process_stack (process s) = Some st -> slot_at st (sp s - n) = Some v ->
  Local n s = Some (v, s).
Proof. intros. unfold Local, bind, get. eapply load_run; eauto. Qed.

Lemma SetLocal_run s st n v :
  Process_stack (process s) = Some st ->
  0 <= sp s - n < Z.of_nat (length (slots st)) ->
  SetLocal n v s = Some (tt, put_stack (upd st (sp s - n) v) s).
Proof. intros. unfold SetLocal, bind, get. eapply store_run; eauto. Qed.

Lemma Pop_run s st v :
  Process_stack (process s) = Some st -> slot_at st (sp s) = Some v ->
  Pop s = Some (v, set_sp (sp s - 1) s).
Proof.
  intros Hst Hv. unfold Pop.
  rewrite (bind_run _ _ s v s); [reflexivity|].
  eapply Local_run; eauto. now rewrite Z.sub_0_r.
Qed.

Lemma Push_run s st v :
  Process_stack (process s) = Some st ->
  0 <= sp s + 1 < Z.of_nat (length (slots st)) ->
  Push v s = Some (tt, put_stack (upd st (sp s + 1) v) (set_sp (sp s + 1) s)).
Proof.
  intros Hst Hi. unfold Push, bind at 1, modify.
  erewrite SetLocal_run; simpl; eauto.
  - now rewrite Z.sub_0_r.
  - lia.
Qed.

Lemma Goto_run s b : b <> 0 -> Goto b s = Some (tt, set_bcp b s).
Proof.
  intros Hb. unfold Goto, ASSERT, bind.
  now destruct (Z.eqb_spec b 0).
Qed.

Lemma ReadByte_run s offset b :
  byte_at (program s) (bcp s + offset) = Some b ->
  ReadByte offset s = Some (b, s).
Proof. unfold ReadByte, bind, get, lift. now intros ->. Qed.

Lemma ReadInt32_run s offset v :
  Utils_ReadInt32 (program s) (bcp s + offset) = Some v ->
  ReadInt32 offset s = Some (v, s).
Proof. unfold ReadInt32, bind, get, lift. now intros ->. Qed.

Lemma slot_at_upd_eq st i v :
  0 <= i < Z.of_nat (length (slots st)) -> slot_at (upd st i v) i = Some v.
Proof.
  intros Hi. unfold slot_at, upd. simpl.
  destruct (decide (0 <= i)); [|lia]. apply list_lookup_insert_eq. lia.
Qed.

Lemma slot_at_upd_ne st i j v :
  0 <= i -> i <> j -> slot_at (upd st i v) j = slot_at st j.
Proof.
  intros Hi Hij. unfold slot_at, upd. simpl.
  destruct (decide (0 <= j)); [|reflexivity].
  apply list_lookup_insert_ne. lia.
Qed.

Lemma put_stack_twice s st1 st2 :
  put_stack st2 (put_stack st1 s) = put_stack st2 s.
Proof.
  unfold put_stack, set_process. simpl.
  now rewrite Process_set_stack_twice.
Qed.

Lemma SaveState_run s st :
  Process_stack (process s) = Some st ->
  0 <= sp s + 1 < Z.of_nat (length (slots st)) ->
  SaveState s =
    Some (tt, put_stack {| slots := <[Z.to_nat (sp s + 1) := bcp s]> (slots st);
                           top := sp s + 1 |}
                        (set_sp (sp s + 1) s)).
Proof.
  intros Hst Hi. unfold SaveState, bind at 1, get.
  erewrite bind_run by (eapply Push_run; eauto).
  unfold SetTopFromPointer.
  cbn [process put_stack set_process set_sp sp].
  erewrite Process_stack_set by eauto.
  cbn [slots upd].
  now rewrite Process_set_stack_twice.
Qed.

Lemma RestoreState_run s st b :
  Process_stack (process s) = Some st ->
  slot_at st (top st) = Some b ->
  b <> 0 ->
  RestoreState s = Some (tt, set_bcp b (set_sp (top st - 1) s)).
Proof.
  intros Hst Hb Hnz. unfold RestoreState, bind at 1, get.
  unfold bind at 1, lift. rewrite Hst.
  unfold bind at 1, modify.
  erewrite bind_run by (eapply Pop_run; simpl; eauto).
  unfold bind, modify, ASSERT. simpl.
  now destruct (Z.eqb_spec b 0).
Qed.

End Run.

(** ** Call and return *)

(** C3. [Return locals args] reads the result from the top of the stack,
    drops [locals] slots, pops the return address into [bcp], drops
    [args] slots and pushes the result: the stack pointer moves by
    [-locals - args + 1] and by one more for the return address, the
    result sits on the new top, and execution is dispatched at the
    popped return address. *)
Theorem Return_effect (s : State) (st : Stack) (locals args result ra : Z) :
  byte_at (program s) (bcp s + 1) = Some locals ->
  byte_at (program s) (bcp s + 2) = Some args ->
  Process_stack (process s) = Some st ->
  slot_at st (sp s) = Some result ->
  slot_at st (sp s - locals) = Some ra ->
  ra <> 0 ->
  0 <= sp s - locals - 1 - args + 1 < Z.of_nat (length (slots st)) ->
  exists s',
    Op.Return s = Some (DISPATCH, s') /\
    bcp s' = ra /\
    sp s' = sp s + (- locals - args + 1) - 1 /\
    Process_stack (process s') = Some (upd st (sp s') result) /\
    Top s' = Some (result, s').
Proof.
  intros Hl Ha Hst Hres Hra Hnz Hrange.
  eexists. unfold Op.Return.
  rewrite (bind_run _ _ _ _ _ (ReadByte_run _ _ _ Hl)).
  rewrite (bind_run _ _ _ _ _ (ReadByte_run _ _ _ Ha)).
  erewrite bind_run by (eapply Local_run; [exact Hst | rewrite Z.sub_0_r; exact Hres]).
  erewrite bind_run by reflexivity.
  unfold PopReturnAddress.
  erewrite bind_run; cycle 1.
  { erewrite bind_run by (eapply Pop_run; simpl; eauto).
    apply Goto_run, Hnz. }
  erewrite bind_run by reflexivity.
  erewrite bind_run; cycle 1.
  { eapply Push_run; simpl; eauto; lia. }
  simpl.
  replace (sp s - locals - 1 - args + 1) with (sp s + (- locals - args + 1) - 1) by lia.
  split; [reflexivity|].
  split; [reflexivity|].
  split; [reflexivity|].
  split.
  - eapply Process_stack_set; eauto.
  - unfold Top. eapply Local_run.
    + simpl. eapply Process_stack_set; eauto.
    + simpl. rewrite Z.sub_0_r. apply slot_at_upd_eq. lia.
Qed.

(** ** Allocation failure and retry *)

Section Retry.

Context {object_model : ObjectModel} {selectors : Selectors}
        {bytecodes : Bytecodes} {heap_ : Heap} {natives : Natives}
        {stack_walker : StackWalker} {method_lookup : MethodLookup}.

Lemma bind_inv {A B} (m : M A) (k : A -> M B) s b s2 :
  bind m k s = Some (b, s2) ->
  exists a s1, m s = Some (a, s1) /\ k a s1 = Some (b, s2).
Proof.
  unfold bind. destruct (m s) as [[a s1]|]; [|discriminate].
  intros Hk. now exists a, s1.
Qed.

Lemma reads_ret {A} (a : A) : reads (ret a).
Proof. intros s b s' [= _ ->]. reflexivity. Qed.

Lemma reads_get : reads get.
Proof. intros s b s' [= _ ->]. reflexivity. Qed.

Lemma reads_fail {A} : reads (@fail A).
Proof. intros s b s' [=]. Qed.

Lemma reads_lift {A} (o : option A) : reads (lift o).
Proof. intros s b s'. unfold lift. destruct o; [intros [= _ ->]|intros [=]]; reflexivity. Qed.

Lemma reads_bind {A B} (m : M A) (k : A -> M B) :
  reads m -> (forall a, reads (k a)) -> reads (bind m k).
Proof.
  intros Hm Hk s b s2 Hb.
  apply bind_inv in Hb as (a & s1 & Hma & Hka).
  apply Hm in Hma as ->. now apply Hk in Hka.
Qed.

Lemma reads_ASSERT b : reads (ASSERT b).
Proof. destruct b; [apply reads_ret | apply reads_fail]. Qed.

Lemma reads_load i : reads (load i).
Proof.
  intros s a s'. unfold load.
  destruct (Process_stack (process s)); [|discriminate].
  destruct (slot_at _ _); [|discriminate]. now intros [= _ ->].
Qed.

#[local] Hint Resolve reads_ret reads_get reads_fail reads_lift reads_ASSERT
     reads_load : reads.

Ltac reads_tac :=
  repeat first
    [ apply reads_bind; [|intros ?]
    | progress eauto with reads
    | match goal with |- reads (match ?x with _ => _ end) => destruct x end
    | match goal with |- reads (if ?x then _ else _) => destruct x end ].

Lemma reads_Local n : reads (Local n).
Proof. unfold Local. reads_tac. Qed.

Lemma reads_ReadByte offset : reads (ReadByte offset).
Proof. unfold ReadByte. reads_tac. Qed.

Lemma reads_ReadInt32 offset : reads (ReadInt32 offset).
Proof. unfold ReadInt32. reads_tac. Qed.

Lemma reads_ReadConstant : reads ReadConstant.
Proof. unfold ReadConstant. reads_tac. Qed.

Lemma reads_LocalPointer n : reads (LocalPointer n).
Proof. unfold LocalPointer. reads_tac. Qed.

Lemma reads_class_at_checked index : reads (Op.class_at_checked index).
Proof. unfold Op.class_at_checked, class_at. reads_tac. Qed.

Lemma reads_NumberOfInstanceFields klass :
  reads (Class_NumberOfInstanceFields klass).
Proof. unfold Class_NumberOfInstanceFields. reads_tac. Qed.

Lemma reads_operands_immutable n : forall i, reads (Op.operands_immutable i n).
Proof.
  induction n as [|n IH]; intros i; simpl.
  - apply reads_ret.
  - apply reads_bind; [apply reads_Local|]. intros local.
    apply reads_bind; [apply reads_get|]. intros s.
    destruct (negb _); [apply reads_ret | apply IH].
Qed.

Lemma registers_call_process {A} (f : Program -> Process -> A * Process) s a s1 :
  call_process f s = Some (a, s1) -> registers_of s s1.
Proof.
  unfold call_process. destruct (f _ _) as [a' p]. intros [= _ <-].
  now repeat split.
Qed.

Lemma registers_call_native native arguments s a s1 :
  call_native native arguments s = Some (a, s1) -> registers_of s s1.
Proof.
  unfold call_native.
  destruct (Process_stack _); [|discriminate].
  destruct (decide _); [|discriminate].
  destruct (kNativeTable _ _ _ _) as [[r p]|]; [|discriminate].
  intros [= _ <-]. now repeat split.
Qed.

Lemma CollectGarbage_run s st :
  Process_stack (process s) = Some st ->
  0 <= sp s + 1 < Z.of_nat (length (slots st)) ->
  bcp s <> 0 ->
  (forall p, Process_stack (Process_CollectGarbage (program s) p) = Process_stack p) ->
  exists s' st' saved,
    CollectGarbage s = Some (tt, s') /\
    registers_of s s' /\
    Process_stack (process s') = Some st' /\
    same_operands (sp s) st st' /\
    SaveState s = Some (tt, saved) /\
    process s' = Process_CollectGarbage (program s) (process saved).
Proof.
  intros Hst Hi Hnz Hgc. unfold CollectGarbage.
  erewrite bind_run by (eapply SaveState_run; eauto).
  unfold bind at 1, modify.
  set (saved := {| slots := <[Z.to_nat (sp s + 1) := bcp s]> (slots st);
                   top := sp s + 1 |}).
  assert (Hsaved : Process_stack (process (put_stack saved (set_sp (sp s + 1) s)))
                   = Some saved)
    by (eapply Process_stack_set; simpl; eauto).
  erewrite RestoreState_run; cycle 1.
  - cbn [process set_process program put_stack set_sp]. rewrite Hgc. exact Hsaved.
  - subst saved. unfold slot_at. cbn [slots top].
    rewrite decide_True by lia. apply list_lookup_insert_eq. lia.
  - exact Hnz.
  - eexists _, saved, _. split; [reflexivity|].
    split; [|split; [|split; [|split; [eapply SaveState_run; eauto|reflexivity]]]].
    + repeat split; simpl. lia.
    + cbn [process set_process program put_stack set_sp set_bcp].
      rewrite Hgc. exact Hsaved.
    + subst saved. split; cbn [slots].
      * apply length_insert.
      * intros i Hle. unfold slot_at. cbn [slots].
        destruct (decide (0 <= i)); [|reflexivity].
        apply list_lookup_insert_ne. lia.
Qed.

Lemma GC_AND_RETRY_retries (exp : M Object) (k : Object -> M Next) s s1 st :
  exp s = Some (Failure_retry_after_gc, s1) ->
  registers_of s s1 ->
  Process_stack (process s1) = Some st ->
  0 <= sp s + 1 < Z.of_nat (length (slots st)) ->
  bcp s <> 0 ->
  (forall p, Process_stack (Process_CollectGarbage (program s) p) = Process_stack p) ->
  exists s' st' saved,
    GC_AND_RETRY_ON_ALLOCATION_FAILURE exp k s = Some (DISPATCH, s') /\
    registers_of s s' /\
    Process_stack (process s') = Some st' /\
    same_operands (sp s) st st' /\
    SaveState s1 = Some (tt, saved) /\
    process s' = Process_CollectGarbage (program s) (process saved).
Proof.
  intros Hexp (Hprog & Hsp & Hbcp & Hy) Hst Hi Hnz Hgc.
  unfold GC_AND_RETRY_ON_ALLOCATION_FAILURE.
  rewrite (bind_run _ _ _ _ _ Hexp).
  rewrite decide_True by reflexivity.
  destruct (CollectGarbage_run s1 st)
    as (s' & st' & saved & Hrun & Hreg & Hst' & Hops & Hsave & Hproc);
    rewrite ?Hsp, ?Hbcp, ?Hprog; auto.
  exists s', st', saved. rewrite (bind_run _ _ _ _ _ Hrun).
  split; [reflexivity|]. split; [|split; [|split; [|split]]]; auto.
  - destruct Hreg as (? & ? & ? & ?). repeat split; congruence.
  - now rewrite <- Hsp.
  - now rewrite <- Hprog.
Qed.

Ltac peel Hall lemma :=
  let Hstep := fresh "Hstep" in
  let Heq := fresh "Heq" in
  apply bind_inv in Hall as (? & ? & Hstep & Hall);
  assert (Heq := Hstep); apply lemma in Heq; subst;
  rewrite (bind_run _ _ _ _ _ Hstep).

(** C1. For each of the allocating opcodes [Allocate],
    [AllocateUnfold], [AllocateImmutable], [AllocateImmutableUnfold],
    [AllocateBoxed], [InvokeNative] and [InvokeNativeYield]: when the
    allocation answers the retry-after-GC sentinel (and neither it nor
    the collector touched the stack), the engine saves its state, runs
    the collector and leaves the opcode body through [DISPATCH] with
    the bytecode pointer, the stack pointer and every operand slot as
    they were before the attempt, so the same opcode byte is read
    again; none of the opcode's pops and pushes has happened. *)
Theorem allocation_failure_retries (fuel : nat) (opcode : Opcode)
        (s s1 : State) (st : Stack) :
  allocation opcode s = Some (Failure_retry_after_gc, s1) ->
  Process_stack (process s) = Some st ->
  Process_stack (process s1) = Process_stack (process s) ->
  (forall p, Process_stack (Process_CollectGarbage (program s) p) = Process_stack p) ->
  0 <= sp s + 1 < Z.of_nat (length (slots st)) ->
  bcp s <> 0 ->
  exists s' st' saved,
    execute fuel opcode s = Some (DISPATCH, s') /\
    SaveState s1 = Some (tt, saved) /\
    process s' = Process_CollectGarbage (program s) (process saved) /\
    bcp s' = bcp s /\
    sp s' = sp s /\
    Process_stack (process s') = Some st' /\
    same_operands (sp s) st st' /\
    byte_at (program s') (bcp s') = byte_at (program s) (bcp s).
Proof.
  intros Hall Hst Hframe Hgc Hi Hnz. rewrite Hst in Hframe.
  assert (Hmacro : forall exp k,
    exp s = Some (Failure_retry_after_gc, s1) -> registers_of s s1 ->
    exists s' st' saved,
      GC_AND_RETRY_ON_ALLOCATION_FAILURE exp k s = Some (DISPATCH, s') /\
      SaveState s1 = Some (tt, saved) /\
      process s' = Process_CollectGarbage (program s) (process saved) /\
      bcp s' = bcp s /\ sp s' = sp s /\
      Process_stack (process s') = Some st' /\
      same_operands (sp s) st st' /\
      byte_at (program s') (bcp s') = byte_at (program s) (bcp s)).
  { intros exp k Hexp Hreg.
    destruct (GC_AND_RETRY_retries exp k s s1 st)
      as (s' & st' & saved & Hrun & (Hp & Hsp & Hb & _) & Hst' & Hops & Hsave & Hproc);
      auto.
    exists s', st', saved. repeat split; auto; try apply Hops.
    now rewrite Hp, Hb. }
  destruct opcode; simpl in Hall; try discriminate; simpl.
  - (* InvokeNative *)
    unfold Op.InvokeNative.
    peel Hall reads_ReadByte. peel Hall reads_ReadByte.
    peel Hall reads_LocalPointer.
    apply Hmacro; eauto using registers_call_native.
  - (* InvokeNativeYield *)
    unfold Op.InvokeNativeYield.
    peel Hall reads_ReadByte. peel Hall reads_ReadByte.
    peel Hall reads_LocalPointer.
    apply Hmacro; eauto using registers_call_native.
  - (* Allocate *)
    unfold Op.Allocate.
    peel Hall reads_ReadInt32. peel Hall reads_class_at_checked.
    apply Hmacro; [exact Hall | eapply registers_call_process; exact Hall].
  - (* AllocateUnfold *)
    unfold Op.AllocateUnfold.
    peel Hall reads_ReadConstant.
    apply Hmacro; [exact Hall | eapply registers_call_process; exact Hall].
  - (* AllocateImmutable *)
    unfold Op.AllocateImmutable.
    peel Hall reads_ReadInt32. peel Hall reads_class_at_checked.
    peel Hall reads_NumberOfInstanceFields.
    peel Hall reads_operands_immutable.
    apply Hmacro; [exact Hall | eapply registers_call_process; exact Hall].
  - (* AllocateImmutableUnfold *)
    unfold Op.AllocateImmutableUnfold.
    peel Hall reads_ReadConstant.
    peel Hall reads_NumberOfInstanceFields.
    peel Hall reads_operands_immutable.
    apply Hmacro; [exact Hall | eapply registers_call_process; exact Hall].
  - (* AllocateBoxed *)
    unfold Op.AllocateBoxed.
    peel Hall reads_Local.
    apply Hmacro; [exact Hall | eapply registers_call_process; exact Hall].
Qed.

End Retry.

(** ** Natives that yield to a port *)

Section NativeYield.

Context {object_model : ObjectModel} {selectors : Selectors}
        {bytecodes : Bytecodes} {heap_ : Heap} {natives : Natives}
        {stack_walker : StackWalker} {method_lookup : MethodLookup}.

Lemma call_native_run s st native arguments result p :
  Process_stack (process s) = Some st ->
  0 <= arguments ->
  kNativeTable native (program s) (process s)
               (drop (Z.to_nat arguments) (slots st)) = Some (result, p) ->
  call_native native arguments s = Some (result, set_process p s).
Proof.
  intros Hst Ha Hn. unfold call_native. rewrite Hst.
  rewrite decide_True by exact Ha. now rewrite Hn.
Qed.

Lemma get_run {B} (k : State -> M B) s : bind get k s = k s s.
Proof. reflexivity. Qed.

(** C7. [InvokeNativeYield] after the native has answered [result],
    which is not the retry-after-GC sentinel.  A failure is wrapped by
    [ObjectFromFailure] and pushed, and the next opcode is dispatched.
    A regular value makes the engine pop the return address, drop
    [arity] slots and push null; with a null [result] the opcode is
    done, and otherwise [result] is taken as the port: the state is
    saved, the port is written to the yield target, it is asserted to
    be locked, and [Interpret] returns [kTargetYield]; restoring the
    saved state finds null on top of the stack. *)
Theorem InvokeNativeYield_effect (s : State) (st st' : Stack)
        (arity native result : Z) (p' : Process) :
  byte_at (program s) (bcp s + 1) = Some arity ->
  byte_at (program s) (bcp s + 2) = Some native ->
  Process_stack (process s) = Some st ->
  0 <= sp s - arity ->
  kNativeTable native (program s) (process s)
               (drop (Z.to_nat (sp s - arity)) (slots st)) = Some (result, p') ->
  result <> Failure_retry_after_gc ->
  Process_stack p' = Some st' ->
  let null := null_object (program s) in
  (IsFailure result = true ->
   0 <= sp s + 1 < Z.of_nat (length (slots st')) ->
   exists s',
     Op.InvokeNativeYield s = Some (DISPATCH, s') /\
     bcp s' = bcp s + kInvokeNativeYieldLength /\
     sp s' = sp s + 1 /\
     Process_stack (process s') =
       Some (upd st' (sp s + 1) (ObjectFromFailure (program s) result)) /\
     yield_target s' = yield_target s) /\
  (IsFailure result = false ->
   forall ra,
     slot_at st' (sp s) = Some ra -> ra <> 0 ->
     0 <= sp s - arity < Z.of_nat (length (slots st')) ->
     (result = null ->
      exists s',
        Op.InvokeNativeYield s = Some (DISPATCH, s') /\
        bcp s' = ra /\
        sp s' = sp s - 1 - arity + 1 /\
        Process_stack (process s') = Some (upd st' (sp s') null) /\
        yield_target s' = yield_target s) /\
     (result <> null ->
      forall port,
        ports p' !! result = Some port -> IsLocked port = true ->
        sp s - arity + 1 < Z.of_nat (length (slots st')) ->
        exists s' r,
          Op.InvokeNativeYield s = Some (Return_ kTargetYield, s') /\
          yield_target s' = Some result /\
          Process_stack (process s') =
            Some {| slots := <[Z.to_nat (sp s - arity + 1) := ra]>
                               (<[Z.to_nat (sp s - arity) := null]> (slots st'));
                    top := sp s - arity + 1 |} /\
          (RestoreState ;; Top) s' = Some (null, r) /\
          bcp r = ra /\ sp r = sp s - arity)).
Proof.
  intros Harity Hnative Hst Hargs Hcall Hretry Hst' null.
  assert (Hbody :
    Op.InvokeNativeYield s =
    (if IsFailure result then
       (s0 <- get ;;
        Push (ObjectFromFailure (program s0) result) ;;
        Advance kInvokeNativeYieldLength ;; ret DISPATCH)
     else
       (PopReturnAddress ;;
        Drop arity ;;
        s0 <- get ;;
        Push (null_object (program s0)) ;;
        if decide (result <> null_object (program s0)) then
          SaveState ;;
          modify (set_yield_target (Some result)) ;;
          s1 <- get ;;
          port <- lift (ports (process s1) !! result) ;;
          ASSERT (IsLocked port) ;;
          ret (Return_ kTargetYield)
        else ret DISPATCH)) (set_process p' s)).
  { unfold Op.InvokeNativeYield.
    rewrite (bind_run _ _ _ _ _ (ReadByte_run _ _ _ Harity)).
    rewrite (bind_run _ _ _ _ _ (ReadByte_run _ _ _ Hnative)).
    rewrite (bind_run _ _ s (sp s - arity) s) by reflexivity.
    unfold GC_AND_RETRY_ON_ALLOCATION_FAILURE.
    rewrite (bind_run _ _ _ _ _ (call_native_run _ _ _ _ _ _ Hst Hargs Hcall)).
    rewrite decide_False by exact Hretry.
    reflexivity. }
  rewrite Hbody. clear Hbody.
  split.
  - intros -> Hi. rewrite get_run.
    erewrite bind_run by (eapply Push_run; simpl; eauto).
    eexists. split; [reflexivity|]. simpl.
    repeat split. eapply Process_stack_set; simpl; eauto.
  - intros -> ra Hra Hnz Hi.
    unfold PopReturnAddress.
    erewrite bind_run; cycle 1.
    { erewrite bind_run by (eapply Pop_run; simpl; eauto).
      apply Goto_run, Hnz. }
    erewrite bind_run by reflexivity.
    rewrite get_run.
    erewrite bind_run; cycle 1.
    { eapply Push_run; simpl; eauto. lia. }
    cbn [program set_process set_sp set_bcp put_stack sp].
    replace (sp s - 1 - arity + 1) with (sp s - arity) by lia.
    fold null.
    split.
    + intros Hnull. rewrite decide_False by tauto.
      eexists. split; [reflexivity|]. simpl.
      repeat split. eapply Process_stack_set; simpl; eauto.
    + intros Hnull port Hport Hlocked Hi'.
      rewrite decide_True by exact Hnull.
      erewrite bind_run; cycle 1.
      { eapply SaveState_run.
        - eapply Process_stack_set; eauto.
        - cbn [slots upd sp set_sp put_stack set_process].
          rewrite length_insert. lia. }
      unfold bind at 1, modify. rewrite get_run.
      cbn [process set_yield_target set_process set_sp set_bcp put_stack
           Process_set_stack sp bcp slots upd].
      rewrite Process_set_stack_twice.
      assert (Hports : forall stk, ports (Process_set_stack stk p') = ports p').
      { intros stk. unfold Process_set_stack.
        destruct (heap p' !! coroutine p') as [[]|]; reflexivity. }
      rewrite Hports. unfold bind at 1, lift. rewrite Hport.
      unfold bind at 1. rewrite Hlocked. simpl ASSERT.
      eexists _, _. split; [reflexivity|].
      split; [reflexivity|].
      split.
      { cbn [process set_yield_target put_stack set_process].
        eapply Process_stack_set, Process_stack_set, Hst'. }
      unfold Top.
      erewrite bind_run; cycle 1.
      { eapply RestoreState_run.
        - cbn [process set_yield_target put_stack set_process].
          eapply Process_stack_set, Process_stack_set, Hst'.
        - unfold slot_at. cbn [slots top].
          rewrite decide_True by lia.
          apply list_lookup_insert_eq. rewrite length_insert. lia.
        - exact Hnz. }
      split; [|split].
      * eapply Local_run.
        -- cbn [process set_yield_target put_stack set_process set_sp set_bcp].
           eapply Process_stack_set, Process_stack_set, Hst'.
        -- unfold slot_at. cbn [slots top sp set_sp set_bcp].
           rewrite decide_True by lia.
           rewrite list_lookup_insert_ne by lia.
           replace (sp s - arity + 1 - 1 - 0) with (sp s - arity) by lia.
           apply list_lookup_insert_eq. lia.
      * reflexivity.
      * simpl. lia.
Qed.

End NativeYield.

(** ** Throwing and unwinding *)

Section Unwinding.

Context {object_model : ObjectModel} {selectors : Selectors}
        {bytecodes : Bytecodes} {heap_ : Heap} {natives : Natives}
        {stack_walker : StackWalker} {method_lookup : MethodLookup}.

Lemma Throw_unwinds fuel s st exception :
  Process_stack (process s) = Some st ->
  slot_at st (sp s) = Some exception ->
  0 <= sp s + 1 < Z.of_nat (length (slots st)) ->
  Op.Throw fuel s =
  match HandleThrow fuel (program s) (process (saved_state s st)) exception with
  | Some (Exited status p) =>
      Some (Exit status, set_process p (saved_state s st))
  | Some (Uncaught p) =>
      Some (Return_ kUncaughtException, set_process p (saved_state s st))
  | Some (Caught catch_bcp stack_delta p) =>
      (RestoreState ;;
       Goto catch_bcp ;;
       Drop (stack_delta - 1) ;;
       SetTop exception ;;
       ret DISPATCH) (set_process p (saved_state s st))
  | None => None
  end.
Proof.
  intros Hst Hex Hi. unfold Op.Throw.
  erewrite bind_run by (eapply Local_run; [exact Hst | rewrite Z.sub_0_r; exact Hex]).
  erewrite bind_run by (eapply SaveState_run; eauto).
  fold (saved_state s st).
  unfold unwind. unfold bind at 1. rewrite get_run.
  cbn [program saved_state put_stack set_process set_sp].
  unfold lift.
  destruct (HandleThrow _ _ _ _) as [[| |]|]; reflexivity.
Qed.

(** An answer of the unwinder does not depend on the rounds left over. *)
Lemma HandleThrow_fuel prog exception :
  forall (n m : nat) p unwound,
    (n <= m)%nat ->
    HandleThrow n prog p exception = Some unwound ->
    HandleThrow m prog p exception = Some unwound.
Proof.
  induction n as [|n IH]; intros m p unwound Hnm; [discriminate|].
  destruct m as [|m]; [lia|]. simpl.
  destruct (ComputeCatchBlock prog p) as [catch_bcp stack_delta].
  destruct (negb (catch_bcp =? 0)); [auto|].
  destruct (heap p !! coroutine p) as [[| | | | | | |stack_ [caller|]]|]; auto.
  apply IH. lia.
Qed.

(** C4. [Throw] when the unwinder finds a catch block: the engine has
    saved its state (the bytecode pointer is pushed), the unwinder
    answers a catch address and a stack delta, the engine restores its
    state (which pops the saved bytecode pointer off the stack the
    process now runs on), drops [stack_delta - 1] more slots, stores
    the exception in the slot on top and dispatches at the catch
    address. *)
Theorem Throw_caught (fuel : nat) (s : State) (st st' : Stack)
        (exception catch_bcp stack_delta saved_bcp : Z) (p' : Process) :
  Process_stack (process s) = Some st ->
  slot_at st (sp s) = Some exception ->
  0 <= sp s + 1 < Z.of_nat (length (slots st)) ->
  HandleThrow fuel (program s) (process (saved_state s st)) exception
    = Some (Caught catch_bcp stack_delta p') ->
  Process_stack p' = Some st' ->
  slot_at st' (top st') = Some saved_bcp ->
  saved_bcp <> 0 ->
  catch_bcp <> 0 ->
  0 <= top st' - 1 - (stack_delta - 1) < Z.of_nat (length (slots st')) ->
  exists s',
    SaveState s = Some (tt, saved_state s st) /\
    Process_stack (process (saved_state s st))
      = Some {| slots := <[Z.to_nat (sp s + 1) := bcp s]> (slots st);
                top := sp s + 1 |} /\
    Op.Throw fuel s = Some (DISPATCH, s') /\
    bcp s' = catch_bcp /\
    sp s' = top st' - 1 - (stack_delta - 1) /\
    Process_stack (process s') = Some (upd st' (sp s') exception) /\
    Top s' = Some (exception, s').
Proof.
  intros Hst Hex Hi Hthrow Hst' Hsaved Hnz Hcatch Hrange.
  eexists. split; [eapply SaveState_run; eauto|].
  split; [eapply Process_stack_set; eauto|].
  rewrite (Throw_unwinds _ _ _ _ Hst Hex Hi), Hthrow.
  erewrite bind_run by (eapply RestoreState_run; simpl; eauto).
  erewrite bind_run by (apply Goto_run, Hcatch).
  erewrite bind_run by reflexivity.
  erewrite bind_run; cycle 1.
  { eapply SetLocal_run; simpl; eauto. lia. }
  cbn [sp set_sp set_bcp]. rewrite Z.sub_0_r.
  split; [reflexivity|]. split; [reflexivity|]. split; [reflexivity|].
  split.
  - eapply Process_stack_set; simpl; eauto.
  - eapply Local_run.
    + eapply Process_stack_set; simpl; eauto.
    + cbn [sp put_stack set_process set_sp]. rewrite Z.sub_0_r.
      apply slot_at_upd_eq. lia.
Qed.

(** C5. One round of [HandleThrow] when the stack of the current
    coroutine has no catch block.  With a caller, the process is moved
    to the caller (whose stack becomes the stack of the process), the
    abandoned coroutine gets a null stack and itself as caller, and the
    search goes on in the caller.  Without a caller the header line is
    written to stdout and the exception is printed to stderr by its
    [Print()]; then, with a debug session attached, the session records
    the uncaught exception, the unwinder answers [NULL] and [Throw]
    leaves [Interpret] with [kUncaughtException]; with no debug session
    the process exits with the nonzero status 1. *)
Theorem HandleThrow_no_catch_block (fuel : nat) (prog : Program) (p : Process)
        (exception : Z) (stack_ : option Stack) (caller_ : option Z) :
  fst (ComputeCatchBlock prog p) = 0 ->
  heap p !! coroutine p = Some (HCoroutine stack_ caller_) ->
  (forall caller, caller_ = Some caller ->
     HandleThrow (S fuel) prog p exception
       = HandleThrow fuel prog (unwound_to caller p) exception /\
     coroutine (unwound_to caller p) = caller /\
     heap (unwound_to caller p) !! coroutine p
       = Some (HCoroutine None (Some (coroutine p))) /\
     (caller <> coroutine p ->
      heap (unwound_to caller p) !! caller = heap p !! caller /\
      forall st c, heap p !! caller = Some (HCoroutine (Some st) c) ->
                   Process_stack (unwound_to caller p) = Some st)) /\
  (caller_ = None ->
   let printed :=
     output p ++ [Write stdout (Literal (String.append "Uncaught exception:" newline));
                  Write stderr (Printed exception)] in
   (Session_is_debugging prog = true ->
    exists p',
      HandleThrow (S fuel) prog p exception = Some (Uncaught p') /\
      output p' = printed ++ [Session_UncaughtException] /\
      forall s st,
        program s = prog ->
        Process_stack (process s) = Some st ->
        slot_at st (sp s) = Some exception ->
        0 <= sp s + 1 < Z.of_nat (length (slots st)) ->
        process (saved_state s st) = p ->
        Op.Throw (S fuel) s
          = Some (Return_ kUncaughtException, set_process p' (saved_state s st))) /\
   (Session_is_debugging prog = false ->
    exists p',
      HandleThrow (S fuel) prog p exception = Some (Exited 1 p') /\
      output p' = printed /\
      forall s st,
        program s = prog ->
        Process_stack (process s) = Some st ->
        slot_at st (sp s) = Some exception ->
        0 <= sp s + 1 < Z.of_nat (length (slots st)) ->
        process (saved_state s st) = p ->
        Op.Throw (S fuel) s
          = Some (Exit 1, set_process p' (saved_state s st)))).
Proof.
  intros Hnone Hcur.
  destruct (ComputeCatchBlock prog p) as [catch_bcp stack_delta] eqn:Hwalk.
  simpl in Hnone. subst catch_bcp.
  split.
  - intros caller ->. split; [|split; [|split]].
    + simpl. rewrite Hwalk. simpl. rewrite Hcur. reflexivity.
    + reflexivity.
    + unfold unwound_to. simpl. apply lookup_insert_eq.
    + intros Hne. assert (Hkeep : heap (unwound_to caller p) !! caller = heap p !! caller).
      { unfold unwound_to. simpl. apply lookup_insert_ne. congruence. }
      split; [exact Hkeep|]. intros st c Hcaller.
      unfold Process_stack.
      change (coroutine (unwound_to caller p)) with caller.
      now rewrite Hkeep, Hcaller.
  - intros -> printed. split; intros Hdebug.
    + eexists. split; [|split].
      * simpl. rewrite Hwalk. simpl. rewrite Hcur, Hdebug. reflexivity.
      * simpl. subst printed. now rewrite <- !app_assoc.
      * intros s st Hprog Hst Hex Hi Hp.
        rewrite (Throw_unwinds _ _ _ _ Hst Hex Hi), Hprog, Hp.
        simpl. rewrite Hwalk. simpl. rewrite Hcur, Hdebug. reflexivity.
    + eexists. split; [|split].
      * simpl. rewrite Hwalk. simpl. rewrite Hcur, Hdebug. reflexivity.
      * simpl. subst printed. now rewrite <- !app_assoc.
      * intros s st Hprog Hst Hex Hi Hp.
        rewrite (Throw_unwinds _ _ _ _ Hst Hex Hi), Hprog, Hp.
        simpl. rewrite Hwalk. simpl. rewrite Hcur, Hdebug. reflexivity.
Qed.

End Unwinding.

(** ** The no-such-method trampoline *)

Section NoSuchMethod.

Context {object_model : ObjectModel} {selectors : Selectors}
        {bytecodes : Bytecodes} {heap_ : Heap} {natives : Natives}
        {stack_walker : StackWalker} {method_lookup : MethodLookup}.

Lemma EnterNoSuchMethod_selector s st return_address selector :
  Process_stack (process s) = Some st ->
  slot_at st (sp s) = Some return_address ->
  invoke_selector (program s) return_address = Some selector ->
  Op.EnterNoSuchMethod s =
  (receiver <- Local (ArityField_decode selector + 1) ;;
   Push (Smi_FromWord selector) ;;
   Push receiver ;;
   Push (Smi_FromWord selector) ;;
   Advance kEnterNoSuchMethodLength ;;
   ret DISPATCH) s.
Proof.
  intros Hst Hra Hsel. unfold Op.EnterNoSuchMethod.
  erewrite bind_run by (eapply Local_run; [exact Hst | rewrite Z.sub_0_r; exact Hra]).
  rewrite get_run. unfold invoke_selector in Hsel.
  destruct (byte_at (program s) (return_address - 5)) as [opcode|]; [|discriminate].
  destruct (Utils_ReadInt32 (program s) (return_address - 4)) as [operand|];
    [|discriminate].
  unfold bind at 1. unfold lift at 1.
  unfold bind at 1.
  destruct (IsInvokeFast opcode).
  - unfold bind at 1. unfold lift at 1. unfold bind at 1. unfold lift at 1.
    destruct (Array_get _ _); [|discriminate].
    injection Hsel as <-. reflexivity.
  - destruct (IsInvokeVtable opcode).
    + injection Hsel as <-. reflexivity.
    + unfold bind at 1. simpl in Hsel.
      destruct (IsInvokeNormal opcode); [|discriminate].
      injection Hsel as <-. reflexivity.
Qed.

(** C6. [EnterNoSuchMethod] recovers the selector of the invoke that
    precedes the return address on top of the stack and pushes the
    selector as a small integer, the receiver, and the selector again.
    [ExitNoSuchMethod] pops the handler's result and the selector, pops
    the return address into the bytecode pointer, drops [arity + 1]
    slots and pushes the result, where for a selector of kind [SETTER]
    the value pushed is the assigned value found on top of the stack
    after the return address has been popped. *)
Theorem NoSuchMethod_trampoline :
  (forall (s : State) (st : Stack) (return_address selector receiver : Z),
     Process_stack (process s) = Some st ->
     slot_at st (sp s) = Some return_address ->
     invoke_selector (program s) return_address = Some selector ->
     slot_at st (sp s - (ArityField_decode selector + 1)) = Some receiver ->
     0 <= sp s + 1 -> sp s + 3 < Z.of_nat (length (slots st)) ->
     exists s',
       Op.EnterNoSuchMethod s = Some (DISPATCH, s') /\
       bcp s' = bcp s + kEnterNoSuchMethodLength /\
       sp s' = sp s + 3 /\
       Process_stack (process s') =
         Some (upd (upd (upd st (sp s + 1) (Smi_FromWord selector))
                        (sp s + 2) receiver)
                   (sp s + 3) (Smi_FromWord selector))) /\
  (forall (s : State) (st : Stack) (result selector_smi return_address assigned : Z),
     Process_stack (process s) = Some st ->
     slot_at st (sp s) = Some result ->
     slot_at st (sp s - 1) = Some selector_smi ->
     slot_at st (sp s - 2) = Some return_address ->
     return_address <> 0 ->
     slot_at st (sp s - 3) = Some assigned ->
     let selector := Smi_value selector_smi in
     let arity := ArityField_decode selector in
     0 <= sp s - 3 - (arity + 1) + 1 < Z.of_nat (length (slots st)) ->
     exists s',
       Op.ExitNoSuchMethod s = Some (DISPATCH, s') /\
       bcp s' = return_address /\
       sp s' = sp s - 3 - (arity + 1) + 1 /\
       Process_stack (process s') =
         Some (upd st (sp s')
                   (if decide (KindField_decode selector = SETTER)
                    then assigned else result))).
Proof.
  split.
  - intros s st return_address selector receiver Hst Hra Hsel Hrecv Hlo Hhi.
    rewrite (EnterNoSuchMethod_selector _ _ _ _ Hst Hra Hsel).
    erewrite bind_run by (eapply Local_run; eauto).
    erewrite bind_run by (eapply Push_run; eauto; lia).
    erewrite bind_run; cycle 1.
    { eapply Push_run.
      - eapply Process_stack_set; simpl; eauto.
      - cbn [sp put_stack set_process set_sp slots upd].
        rewrite length_insert. lia. }
    erewrite bind_run; cycle 1.
    { eapply Push_run.
      - eapply Process_stack_set; simpl. eapply Process_stack_set; simpl; eauto.
      - cbn [sp put_stack set_process set_sp slots upd].
        rewrite !length_insert. lia. }
    eexists. split; [reflexivity|]. simpl.
    split; [reflexivity|]. split; [lia|].
    rewrite !Process_set_stack_twice.
    replace (sp s + 1 + 1) with (sp s + 2) by lia.
    replace (sp s + 2 + 1) with (sp s + 3) by lia.
    eapply Process_stack_set; eauto.
  - intros s st result selector_smi return_address assigned
           Hst Hres Hsel Hra Hnz Hassigned selector arity Hrange.
    unfold Op.ExitNoSuchMethod.
    erewrite bind_run by (eapply Pop_run; eauto).
    erewrite bind_run by (eapply Pop_run; simpl; eauto).
    unfold PopReturnAddress.
    erewrite bind_run; cycle 1.
    { erewrite bind_run; cycle 1.
      { eapply Pop_run; simpl; eauto.
        replace (sp s - 1 - 1) with (sp s - 2) by lia. exact Hra. }
      apply Goto_run, Hnz. }
    fold selector. fold arity.
    erewrite (bind_run _ _ _ (if decide (KindField_decode selector = SETTER)
                              then assigned else result)); cycle 1.
    { destruct (decide _); [|reflexivity].
      eapply Local_run; simpl; eauto.
      replace (sp s - 1 - 1 - 1 - 0) with (sp s - 3) by lia. exact Hassigned. }
    erewrite bind_run by reflexivity.
    erewrite bind_run; cycle 1.
    { eapply Push_run; simpl; eauto. lia. }
    eexists. split; [reflexivity|]. simpl.
    split; [reflexivity|].
    replace (sp s - 1 - 1 - 1 - (arity + 1) + 1) with (sp s - 3 - (arity + 1) + 1) by lia.
    split; [reflexivity|].
    eapply Process_stack_set; eauto.
Qed.

End NoSuchMethod.

(** ** Identity of values *)

Section Identity.

Context {object_model : ObjectModel} {selectors : Selectors}
        {bytecodes : Bytecodes} {heap_ : Heap} {natives : Natives}
        {stack_walker : StackWalker} {method_lookup : MethodLookup}.

Lemma HandleIdentical_other prog p left right :
  ~ both_doubles prog p left right ->
  ~ both_large_integers prog p left right ->
  HandleIdentical prog p left right = bool_object prog (left =? right).
Proof.
  intros Hd Hl. unfold HandleIdentical, bool_object.
  destruct (object_at prog p left) as [[]|] eqn:El;
    destruct (object_at prog p right) as [[]|] eqn:Er;
    try reflexivity.
  - exfalso. apply Hl. eexists _, _. eauto.
  - exfalso. apply Hd. eexists _, _. eauto.
Qed.

(** C8. [Identical] on two Doubles answers true exactly when both are
    NaN or they are equal as IEEE numbers, so it is true of two NaNs
    and of +0.0 and -0.0, whichever objects hold them; on two
    LargeIntegers it compares the 64-bit values; on any other pair of
    operands it is equality of the two pointers.  [IdenticalNonNumeric]
    is equality of the two pointers, hence false of two distinct
    objects even when both hold NaN. *)
Theorem Identical_cases (prog : Program) (p : Process) (left right : Z) :
  (forall l r,
     object_at prog p left = Some (HDouble l) ->
     object_at prog p right = Some (HDouble r) ->
     HandleIdentical prog p left right
       = bool_object prog (isnan l && isnan r || SFeqb l r) /\
     (l = S754_nan -> r = S754_nan ->
      HandleIdentical prog p left right = true_object prog) /\
     (l = S754_zero false -> r = S754_zero true ->
      HandleIdentical prog p left right = true_object prog)) /\
  (forall l r,
     object_at prog p left = Some (HLargeInteger l) ->
     object_at prog p right = Some (HLargeInteger r) ->
     HandleIdentical prog p left right = bool_object prog (l =? r)) /\
  (~ both_doubles prog p left right ->
   ~ both_large_integers prog p left right ->
   HandleIdentical prog p left right = bool_object prog (left =? right)) /\
  (forall (s : State) (st : Stack),
     program s = prog -> process s = p ->
     Process_stack p = Some st ->
     slot_at st (sp s) = Some right ->
     slot_at st (sp s - 1) = Some left ->
     0 <= sp s - 1 ->
     (exists s',
        Op.Identical s = Some (DISPATCH, s') /\
        bcp s' = bcp s + kIdenticalLength /\
        sp s' = sp s - 1 /\
        Process_stack (process s')
          = Some (upd st (sp s - 1) (HandleIdentical prog p left right))) /\
     (exists s',
        Op.IdenticalNonNumeric s = Some (DISPATCH, s') /\
        bcp s' = bcp s + kIdenticalNonNumericLength /\
        sp s' = sp s - 1 /\
        Process_stack (process s')
          = Some (upd st (sp s - 1) (bool_object prog (right =? left))) /\
        (left <> right ->
         object_at prog p left = Some (HDouble S754_nan) ->
         object_at prog p right = Some (HDouble S754_nan) ->
         Process_stack (process s')
           = Some (upd st (sp s - 1) (false_object prog))))).
Proof.
  split; [|split; [|split]].
  - intros l r Hl Hr.
    assert (Hgen : HandleIdentical prog p left right
                   = bool_object prog (isnan l && isnan r || SFeqb l r)).
    { unfold HandleIdentical. rewrite Hl, Hr.
      destruct (isnan l && isnan r); reflexivity. }
    split; [exact Hgen|]. split; intros -> ->; rewrite Hgen; reflexivity.
  - intros l r Hl Hr. unfold HandleIdentical. now rewrite Hl, Hr.
  - apply HandleIdentical_other.
  - intros s st Hprog Hproc Hst Hright Hleft Hlo.
    assert (Hlen : sp s < Z.of_nat (length (slots st))).
    { unfold slot_at in Hright. destruct (decide (0 <= sp s)); [|discriminate].
      apply lookup_lt_Some in Hright. lia. }
    subst prog p. split.
    + unfold Op.Identical.
      erewrite bind_run by (eapply Local_run; eauto).
      erewrite bind_run by (eapply Local_run; [eauto | rewrite Z.sub_0_r; eauto]).
      rewrite get_run.
      erewrite bind_run by reflexivity.
      erewrite bind_run; cycle 1.
      { eapply SetLocal_run; simpl; eauto. lia. }
      eexists. split; [reflexivity|]. simpl.
      rewrite Z.sub_0_r.
      repeat split. eapply Process_stack_set; eauto.
    + unfold Op.IdenticalNonNumeric.
      erewrite bind_run by (eapply Local_run; [eauto | rewrite Z.sub_0_r; eauto]).
      erewrite bind_run by (eapply Local_run; eauto).
      erewrite bind_run by reflexivity.
      erewrite bind_run by reflexivity.
      erewrite bind_run; cycle 1.
      { eapply SetLocal_run; simpl; eauto. lia. }
      eexists. split; [reflexivity|]. simpl.
      rewrite Z.sub_0_r.
      assert (Hres : Process_stack
                       (Process_set_stack
                          (upd st (sp s - 1)
                               (if right =? left then true_object (program s)
                                else false_object (program s))) (process s))
                     = Some (upd st (sp s - 1) (bool_object (program s) (right =? left))))
        by (eapply Process_stack_set; eauto).
      repeat split; [exact Hres|].
      intros Hne _ _. rewrite Hres.
      destruct (Z.eqb_spec right left); [congruence | reflexivity].
Qed.

End Identity.

(** ** The three ways of dispatching a method *)

Section DispatchEquivalence.

Context {object_model : ObjectModel} {selectors : Selectors}
        {bytecodes : Bytecodes} {heap_ : Heap} {natives : Natives}
        {stack_walker : StackWalker} {method_lookup : MethodLookup}.

Lemma cache_coherent_empty prog : cache_coherent prog ∅.
Proof. intros clazz selector entry Hlook. now rewrite lookup_empty in Hlook. Qed.

Lemma LookupEntry_coherent s receiver selector clazz :
  class_of (program s) (process s) receiver = Some clazz ->
  cache_coherent (program s) (cache (process s)) ->
  exists s',
    LookupEntry receiver selector s
      = Some (LookupEntrySlow (program s) clazz selector, s') /\
    registers_of s s' /\
    cache_coherent (program s) (cache (process s')) /\
    heap (process s') = heap (process s) /\
    coroutine (process s') = coroutine (process s).
Proof.
  intros Hclass Hcache. unfold LookupEntry. rewrite get_run.
  unfold bind at 1, lift. rewrite Hclass.
  destruct (cache (process s) !! (clazz, selector)) as [entry|] eqn:Hlook.
  - exists s. rewrite (Hcache _ _ _ Hlook). repeat split; auto.
  - eexists. split; [reflexivity|]. split; [now repeat split|].
    split; [|split; reflexivity]. simpl.
    intros clazz' selector' entry'.
    destruct (decide ((clazz, selector) = (clazz', selector'))) as [[= <- <-]|Hne].
    + rewrite lookup_insert_eq. now intros [= <-].
    + rewrite lookup_insert_ne by exact Hne. apply Hcache.
Qed.

Lemma dispatch_table_scan_finds table index class_id :
  forall (k fuel : nat) (offset lower upper function : Z),
    (k < fuel)%nat ->
    row_at table index (offset + 4 * Z.of_nat k) = Some (lower, upper, function) ->
    row_holds class_id lower upper = true ->
    (forall j : nat, (j < k)%nat ->
       exists lower' upper' function',
         row_at table index (offset + 4 * Z.of_nat j)
           = Some (lower', upper', function') /\
         row_holds class_id lower' upper' = false) ->
    dispatch_table_scan fuel table index class_id offset = Some function.
Proof.
  induction k as [|k IH]; intros fuel offset lower upper function Hfuel Hrow Hholds Hbefore.
  - destruct fuel as [|fuel]; [lia|]. simpl.
    replace (offset + 4 * Z.of_nat 0) with offset in Hrow by lia.
    unfold row_at in Hrow.
    destruct (Array_get table (index + offset)) as [l|]; [|discriminate].
    destruct (Array_get table (index + offset + 1)) as [u|]; [|discriminate].
    destruct (Array_get table (index + offset + 3)) as [f|]; [|discriminate].
    injection Hrow as -> -> ->.
    unfold row_holds in Hholds. apply andb_true_iff in Hholds as [Hl Hu].
    destruct (Z.ltb_spec class_id (Smi_value lower)); [lia|].
    unfold Z.geb. destruct (Z.compare_spec class_id (Smi_value upper)); try lia.
    reflexivity.
  - destruct fuel as [|fuel]; [lia|]. simpl.
    destruct (Hbefore 0%nat) as (l0 & u0 & f0 & Hrow0 & Hnot0); [lia|].
    replace (offset + 4 * Z.of_nat 0) with offset in Hrow0 by lia.
    unfold row_at in Hrow0.
    destruct (Array_get table (index + offset)) as [l|]; [|discriminate].
    destruct (Array_get table (index + offset + 1)) as [u|]; [|discriminate].
    destruct (Array_get table (index + offset + 3)) as [f|]; [|discriminate].
    injection Hrow0 as -> -> ->.
    assert (Hnext : dispatch_table_scan fuel table index class_id (offset + 4)
                    = Some function).
    { apply (IH fuel (offset + 4) lower upper function); [lia| |exact Hholds|].
      - rewrite <- Hrow. f_equal. lia.
      - intros j Hj. destruct (Hbefore (S j)) as (l' & u' & f' & Hr & Hn); [lia|].
        exists l', u', f'. split; [|exact Hn].
        rewrite <- Hr. f_equal. lia. }
    unfold row_holds in Hnot0. apply andb_false_iff in Hnot0.
    destruct (Z.ltb_spec class_id (Smi_value l0)); [exact Hnext|].
    unfold Z.geb. destruct (Z.compare_spec class_id (Smi_value u0)); try exact Hnext.
    destruct Hnot0 as [Hl|Hu].
    + apply Z.leb_gt in Hl. lia.
    + apply Z.ltb_ge in Hu. lia.
Qed.

(** The bound on the walk loses nothing: once the rows left to visit
    reach past the end of the table, more rounds change no answer. *)
Lemma dispatch_table_scan_fuel table index class_id :
  forall (n m : nat) (offset : Z),
    (n <= m)%nat ->
    Z.of_nat (length table) <= index + offset + 4 * Z.of_nat n ->
    dispatch_table_scan m table index class_id offset
    = dispatch_table_scan n table index class_id offset.
Proof.
  assert (Hout : forall i, Z.of_nat (length table) <= i -> Array_get table i = None).
  { intros i Hi. unfold Array_get. destruct (decide (0 <= i)); [|reflexivity].
    apply lookup_ge_None. lia. }
  induction n as [|n IH]; intros m offset Hnm Hlen.
  - destruct m as [|m]; [reflexivity|]. simpl.
    now rewrite Hout by lia.
  - destruct m as [|m]; [lia|]. simpl.
    destruct (Array_get table (index + offset)); [|reflexivity].
    rewrite (IH m (offset + 4)) by lia.
    reflexivity.
Qed.

Lemma InvokeMethodFast_target_fuel prog index class_id (fuel : nat) :
  (length (dispatch_table prog) <= fuel)%nat ->
  dispatch_table_scan fuel (dispatch_table prog) index class_id 4
  = InvokeMethodFast_target prog index class_id.
Proof.
  intros Hfuel. unfold InvokeMethodFast_target.
  destruct (Z_le_gt_dec 0 (index + 4)) as [Hin|Hout].
  - apply dispatch_table_scan_fuel; lia.
  - assert (Hfirst : Array_get (dispatch_table prog) (index + 4) = None).
    { unfold Array_get. rewrite decide_False by lia. reflexivity. }
    destruct fuel as [|fuel], (length (dispatch_table prog)) as [|n];
      simpl; rewrite ?Hfirst; reflexivity.
Qed.

Lemma row_at_in_table table index offset row :
  row_at table index offset = Some row ->
  0 <= index + offset /\ index + offset + 3 < Z.of_nat (length table).
Proof.
  unfold row_at, Array_get.
  destruct (decide (0 <= index + offset)); [|discriminate].
  destruct (table !! Z.to_nat (index + offset)); [|discriminate].
  destruct (decide (0 <= index + offset + 1)); [|discriminate].
  destruct (table !! Z.to_nat (index + offset + 1)); [|discriminate].
  destruct (decide (0 <= index + offset + 3)); [|discriminate].
  destruct (table !! Z.to_nat (index + offset + 3)) eqn:E; [|discriminate].
  intros _. apply lookup_lt_Some in E. lia.
Qed.

(** The three lookups on one process. *)
Lemma dispatch_resolution (s : State) (site : CallSite)
      (receiver clazz class_id : Z) :
  compiled_from_same_call_site (program s) (process s) site ->
  cache_coherent (program s) (cache (process s)) ->
  class_of (program s) (process s) receiver = Some clazz ->
  Class_id (program s) (process s) clazz = Some class_id ->
  exists function entry s',
    LookupEntry receiver (site_selector site) s = Some (entry, s') /\
    target entry = function /\
    cache_coherent (program s) (cache (process s')) /\
    InvokeMethodFast_target (program s) (site_index site) class_id
      = Some function /\
    InvokeMethodVtable_target (program s) (process s) class_id
                              (IdField_decode (site_vtable_selector site))
      = Some function /\
    function = resolve (program s) clazz (site_selector site) /\
    (IsSmi receiver = true -> clazz = smi_class (program s)).
Proof.
  intros [[_ Htable] [Hstub Hvtable]] Hcache Hclass Hid.
  destruct (LookupEntry_coherent s receiver (site_selector site) clazz Hclass Hcache)
    as (s' & Hlookup & _ & Hcache' & _ & _).
  eexists (resolve (program s) clazz (site_selector site)), _, s'.
  split; [exact Hlookup|]. split; [reflexivity|]. split; [exact Hcache'|].
  split; [|split; [|split; [reflexivity|]]].
  - destruct (Htable clazz class_id Hid) as (k & lower & upper & Hrow & Hholds & Hbefore).
    unfold InvokeMethodFast_target.
    eapply dispatch_table_scan_finds; eauto.
    assert (Hfirst : 0 <= site_index site + 4).
    { destruct k as [|k].
      - apply row_at_in_table in Hrow. lia.
      - destruct (Hbefore 0%nat) as (l0 & u0 & f0 & Hrow0 & _); [lia|].
        apply row_at_in_table in Hrow0. lia. }
    apply row_at_in_table in Hrow. lia.
  - destruct Hstub as (entry0_ref & entry0 & Hv0 & He0 & Hstub).
    destruct (Hvtable clazz class_id Hid)
      as (entry_ref & entry & stored & Hv & He & Hs & Hmethod).
    unfold InvokeMethodVtable_target, resolve, LookupEntrySlow.
    rewrite Hv, He, Hs.
    destruct (LookupMethod (program s) clazz (site_selector site)) as [function|].
    + destruct Hmethod as [-> Hf]. rewrite Z.eqb_refl. exact Hf.
    + simpl. destruct (Z.eqb_spec (Smi_value stored)
                                  (IdField_decode (site_vtable_selector site)));
        [contradiction|].
      simpl. now rewrite Hv0, He0.
  - intros Hsmi. unfold class_of in Hclass. rewrite Hsmi in Hclass.
    now injection Hclass as <-.
Qed.

(** Writing a slot of the current stack changes no other object. *)
Lemma object_at_set_stack prog p st0 st o h :
  Process_stack p = Some st0 ->
  object_at prog p o = Some h ->
  (forall stack_ caller_, h <> HCoroutine stack_ caller_) ->
  object_at prog (Process_set_stack st p) o = Some h.
Proof.
  unfold Process_stack, Process_set_stack, object_at.
  destruct (heap p !! coroutine p) as [[| | | | | | |[st1|] c]|] eqn:Hcur;
    try discriminate.
  intros _ Ho Hkind. simpl.
  destruct (decide (o = coroutine p)) as [->|Hne].
  - rewrite Hcur in Ho. injection Ho as <-. now destruct (Hkind (Some st1) c).
  - rewrite lookup_insert_ne by congruence. exact Ho.
Qed.

Lemma Class_id_set_stack prog p st0 st clazz class_id :
  Process_stack p = Some st0 ->
  Class_id prog p clazz = Some class_id ->
  Class_id prog (Process_set_stack st p) clazz = Some class_id.
Proof.
  intros Hst. unfold Class_id.
  destruct (object_at prog p clazz) as [h|] eqn:Ho; [|discriminate].
  destruct h; try discriminate. intros Hid.
  now erewrite object_at_set_stack by eauto.
Qed.

Lemma Array_elements_set_stack prog p st0 st array elements :
  Process_stack p = Some st0 ->
  Array_elements prog p array = Some elements ->
  Array_elements prog (Process_set_stack st p) array = Some elements.
Proof.
  intros Hst. unfold Array_elements.
  destruct (object_at prog p array) as [h|] eqn:Ho; [|discriminate].
  destruct h; try discriminate. intros He.
  now erewrite object_at_set_stack by eauto.
Qed.

Lemma InvokeMethodVtable_target_set_stack prog p st0 st class_id offset function :
  Process_stack p = Some st0 ->
  InvokeMethodVtable_target prog p class_id offset = Some function ->
  InvokeMethodVtable_target prog (Process_set_stack st p) class_id offset
    = Some function.
Proof.
  intros Hst. unfold InvokeMethodVtable_target.
  destruct (Array_get (vtable prog) (class_id + offset)) as [entry_ref|];
    [|discriminate].
  destruct (Array_elements prog p entry_ref) as [entry|] eqn:He; [|discriminate].
  rewrite (Array_elements_set_stack _ _ _ st _ _ Hst He).
  destruct (Array_get entry 0) as [stored|]; [|discriminate].
  destruct (negb (Smi_value stored =? offset)); [|auto].
  destruct (Array_get (vtable prog) 0) as [entry0_ref|]; [|discriminate].
  destruct (Array_elements prog p entry0_ref) as [entry0|] eqn:He0; [|discriminate].
  now rewrite (Array_elements_set_stack _ _ _ st _ _ Hst He0).
Qed.

Lemma PushReturnAddress_inv offset s s1 :
  PushReturnAddress offset s = Some (tt, s1) ->
  exists st,
    Process_stack (process s) = Some st /\
    s1 = put_stack (upd st (sp s + 1) (bcp s + offset)) (set_sp (sp s + 1) s).
Proof.
  unfold PushReturnAddress, ComputeReturnAddress, Push, SetLocal, store.
  unfold bind, get, ret, modify. simpl.
  destruct (Process_stack (process s)) as [st|]; [|discriminate].
  unfold slot_set. destruct (decide _); [|discriminate].
  intros [= <-]. exists st. split; [reflexivity|].
  unfold put_stack, upd. simpl. now rewrite Z.sub_0_r.
Qed.

Lemma after_PushReturnAddress {A} offset (k1 k2 : M A) s :
  (forall s1, PushReturnAddress offset s = Some (tt, s1) -> k1 s1 = k2 s1) ->
  (PushReturnAddress offset ;; k1) s = (PushReturnAddress offset ;; k2) s.
Proof.
  intros Hk. unfold bind.
  destruct (PushReturnAddress offset s) as [[[] s1]|] eqn:Hpush; [|reflexivity].
  now apply Hk.
Qed.

(** C2. For a call site compiled for the three invokes, and a receiver
    of a class known to the program, the three strategies end at the
    same function: the cache lookup of [InvokeMethod] (which leaves the
    cache coherent), the linear scan of [InvokeMethodFast] over rows of
    four words from offset 4 (the first row with
    [lower <= class_id < upper], function at row offset 3), and the
    lookup of [InvokeMethodVtable] at [vtable[class_id + offset]] with
    its fallback to [vtable[0]] when the stored offset differs.  That
    function is what the class answers to the selector, and each of the
    three opcodes, reading its own operand, pushes its return address
    and enters that function.  The class of a small-integer receiver is
    the program's smi class in all three. *)
Theorem dispatch_equivalence (s : State) (site : CallSite) (st : Stack)
        (receiver clazz class_id : Z) :
  compiled_from_same_call_site (program s) (process s) site ->
  cache_coherent (program s) (cache (process s)) ->
  class_of (program s) (process s) receiver = Some clazz ->
  Class_id (program s) (process s) clazz = Some class_id ->
  Process_stack (process s) = Some st ->
  slot_at st (sp s - ArityField_decode (site_selector site)) = Some receiver ->
  ArityField_decode (site_vtable_selector site)
    = ArityField_decode (site_selector site) ->
  (forall st', get_class (program s) (Process_set_stack st' (process s)) receiver
               = get_class (program s) (process s) receiver) ->
  exists function,
    function = resolve (program s) clazz (site_selector site) /\
    (exists entry s',
       LookupEntry receiver (site_selector site) s = Some (entry, s') /\
       target entry = function /\
       cache_coherent (program s) (cache (process s'))) /\
    InvokeMethodFast_target (program s) (site_index site) class_id
      = Some function /\
    InvokeMethodVtable_target (program s) (process s) class_id
                              (IdField_decode (site_vtable_selector site))
      = Some function /\
    (IsSmi receiver = true -> clazz = smi_class (program s)) /\
    (Utils_ReadInt32 (program s) (bcp s + 1) = Some (site_selector site) ->
     Op.InvokeMethod s
       = (PushReturnAddress kInvokeMethodLength ;;
          LookupEntry receiver (site_selector site) ;;
          Op.enter function) s) /\
    (Utils_ReadInt32 (program s) (bcp s + 1) = Some (site_index site) ->
     Op.InvokeMethodFast s
       = (PushReturnAddress kInvokeMethodFastLength ;; Op.enter function) s) /\
    (Utils_ReadInt32 (program s) (bcp s + 1) = Some (site_vtable_selector site) ->
     Op.InvokeMethodVtable s
       = (PushReturnAddress kInvokeMethodVtableLength ;; Op.enter function) s).
Proof.
  intros Hsite Hcache Hclass Hid Hst Hreceiver Harity Hframe.
  destruct (dispatch_resolution s site receiver clazz class_id Hsite Hcache Hclass Hid)
    as (function & entry & s' & Hlookup & Htarget & Hcache' & Hfast & Hvtable
        & Hresolve & Hsmi).
  exists function. split; [exact Hresolve|].
  split; [now exists entry, s'|].
  split; [exact Hfast|]. split; [exact Hvtable|]. split; [exact Hsmi|].
  assert (Hpushed : forall offset s1,
    PushReturnAddress offset s = Some (tt, s1) ->
    program s1 = program s /\
    cache (process s1) = cache (process s) /\
    class_of (program s1) (process s1) receiver = Some clazz /\
    Class_id (program s1) (process s1) clazz = Some class_id /\
    InvokeMethodVtable_target (program s1) (process s1) class_id
                              (IdField_decode (site_vtable_selector site))
      = Some function).
  { intros offset s1 Hpush.
    apply PushReturnAddress_inv in Hpush as (st0 & Hst0 & ->).
    cbn [program process put_stack set_process set_sp].
    split; [reflexivity|]. split.
    { unfold Process_set_stack.
      destruct (heap (process s) !! coroutine (process s)) as [[]|]; reflexivity. }
    split; [|split].
    - unfold class_of in *. destruct (IsSmi receiver); [exact Hclass|].
      now rewrite Hframe.
    - eapply Class_id_set_stack; eauto.
    - eapply InvokeMethodVtable_target_set_stack; eauto. }
  split; [|split].
  - intros Hread. unfold Op.InvokeMethod.
    rewrite (bind_run _ _ _ _ _ (ReadInt32_run _ _ _ Hread)).
    erewrite bind_run by (eapply Local_run; eauto).
    apply after_PushReturnAddress. intros s1 Hpush.
    destruct (Hpushed _ _ Hpush) as (Hprog & Hc & Hclass1 & _ & _).
    destruct (LookupEntry_coherent s1 receiver (site_selector site) clazz)
      as (s2 & Hlookup1 & _); [exact Hclass1 | now rewrite Hprog, Hc |].
    rewrite !(bind_run _ _ _ _ _ Hlookup1).
    rewrite Hprog. fold (resolve (program s) clazz (site_selector site)).
    now rewrite <- Hresolve.
  - intros Hread. unfold Op.InvokeMethodFast.
    rewrite (bind_run _ _ _ _ _ (ReadInt32_run _ _ _ Hread)).
    rewrite get_run.
    destruct Hsite as [[(selector_smi & Hselector & Hvalue) _] _].
    unfold bind at 1, lift at 1. rewrite Hselector, Hvalue.
    erewrite bind_run by (eapply Local_run; eauto).
    apply after_PushReturnAddress. intros s1 Hpush.
    destruct (Hpushed _ _ Hpush) as (Hprog & _ & Hclass1 & Hid1 & _).
    rewrite get_run.
    unfold bind at 1, lift at 1. rewrite Hclass1.
    unfold bind at 1, lift at 1. rewrite Hid1.
    unfold bind at 1, lift at 1. now rewrite Hprog, Hfast.
  - intros Hread. unfold Op.InvokeMethodVtable.
    rewrite (bind_run _ _ _ _ _ (ReadInt32_run _ _ _ Hread)).
    rewrite Harity.
    erewrite bind_run by (eapply Local_run; eauto).
    apply after_PushReturnAddress. intros s1 Hpush.
    destruct (Hpushed _ _ Hpush) as (Hprog & _ & Hclass1 & Hid1 & Hvtable1).
    rewrite get_run.
    unfold bind at 1, lift at 1. rewrite Hclass1.
    unfold bind at 1, lift at 1. rewrite Hid1.
    unfold bind at 1, lift at 1. now rewrite Hvtable1.
Qed.

End DispatchEquivalence.

(** ** Raw memory *)

Section Memory.

Lemma store_bytes_below n : forall address v m m' a,
  store_bytes n address v m = Some m' -> a < address -> m' !! a = m !! a.
Proof.
  induction n as [|n IH]; intros address v m m' a; simpl.
  - now intros [= ->].
  - destruct (m !! address); [|discriminate]. intros Hs Ha.
    rewrite (IH _ _ _ _ a Hs) by lia.
    apply lookup_insert_ne. lia.
Qed.

Lemma store_bytes_mapped n : forall address v m,
  mapped m address n -> is_Some (store_bytes n address v m).
Proof.
  induction n as [|n IH]; intros address v m Hm; simpl.
  - eauto.
  - destruct (Hm 0) as [b Hb]; [lia|]. rewrite Z.add_0_r in Hb. rewrite Hb.
    apply IH. intros i Hi.
    destruct (Hm (i + 1)) as [b' Hb']; [lia|].
    rewrite lookup_insert_ne by lia.
    replace (address + 1 + i) with (address + (i + 1)) by lia. eauto.
Qed.

Lemma load_store_bytes n : forall address v m m',
  store_bytes n address v m = Some m' ->
  load_bytes n address m' = Some (v mod 256 ^ Z.of_nat n).
Proof.
  induction n as [|n IH]; intros address v m m'; simpl load_bytes.
  - intros _. now rewrite Z.mod_1_r.
  - simpl store_bytes. destruct (m !! address); [|discriminate]. intros Hs.
    rewrite (store_bytes_below _ _ _ _ _ address Hs) by lia.
    rewrite lookup_insert_eq, (IH _ _ _ _ Hs).
    f_equal. rewrite Nat2Z.inj_succ, Z.pow_succ_r by lia.
    rewrite Z.rem_mul_r by lia. reflexivity.
Qed.

Lemma wrap_signed_mod bits z :
  0 < bits -> wrap_signed bits (z mod 2 ^ bits) = wrap_signed bits z.
Proof.
  intros Hb. unfold wrap_signed. now rewrite Zplus_mod_idemp_l.
Qed.

Lemma wrap_signed_idem bits z :
  0 < bits -> wrap_signed bits (wrap_signed bits z) = wrap_signed bits z.
Proof.
  intros Hb. unfold wrap_signed.
  replace ((z + 2 ^ (bits - 1)) mod 2 ^ bits - 2 ^ (bits - 1) + 2 ^ (bits - 1))
    with ((z + 2 ^ (bits - 1)) mod 2 ^ bits) by lia.
  now rewrite Zmod_mod.
Qed.

Lemma convert_mod t z :
  convert t (convert t z mod 2 ^ (8 * Z.of_nat (sizeof t))) = convert t z.
Proof.
  unfold convert. assert (0 < 8 * Z.of_nat (sizeof t)) by (destruct t; simpl; lia).
  destruct (is_signed t).
  - rewrite wrap_signed_mod by assumption. now apply wrap_signed_idem.
  - now rewrite !Zmod_mod.
Qed.

Lemma load_store_typed t address v m m' :
  store_typed t address v m = Some m' ->
  load_typed t address m' = Some (convert t v).
Proof.
  unfold store_typed, load_typed. intros Hs.
  rewrite (load_store_bytes _ _ _ _ _ Hs).
  replace (256 ^ Z.of_nat (sizeof t)) with (2 ^ (8 * Z.of_nat (sizeof t))).
  - now rewrite convert_mod.
  - rewrite Z.pow_mul_r by lia. reflexivity.
Qed.

End Memory.

(** ** Properties of the foreign natives *)

Section ForeignProperties.

Context {object_model : ObjectModel} {heap_ : Heap} {platform : Platform}
        {libc : Libc} {foreign_code : ForeignCode}.

Lemma AsForeignWord_set_memory prog p m object :
  FFI.AsForeignWord prog (set_memory m p) object = FFI.AsForeignWord prog p object.
Proof. reflexivity. Qed.

Lemma ToInteger_memory prog p v :
  (forall q z, memory (snd (Process_NewInteger prog q z)) = memory q) ->
  memory (snd (FFI.ToInteger prog p v)) = memory p.
Proof.
  intros Hframe. unfold FFI.ToInteger.
  destruct (Smi_IsValid _); [reflexivity | apply Hframe].
Qed.

(** C9. The typed accessors.  For each of the eight accessor types,
    [ForeignSet] at a mapped address answers its value operand, and a
    [ForeignGet] at the same address afterwards answers the integer of
    the stored value, which is the word of the operand converted to
    that type.  In particular, in a buffer obtained from
    [ForeignAllocate(8)], [ForeignSetInt32(addr, -1)] followed by
    [ForeignGetInt32(addr)] answers the small integer -1. *)
Theorem foreign_accessors_round_trip (prog : Program) :
  (forall (t : ctype) (p : Process) (address_object value address w : Z),
     FFI.AsForeignWord prog p address_object = Some address ->
     FFI.AsForeignWord prog p value = Some w ->
     mapped (memory p) address (sizeof t) ->
     exists p',
       FFI.ForeignSet t prog p [address_object; value] = Some (value, p') /\
       FFI.ForeignGet t prog p' [address_object]
         = Some (FFI.ToInteger prog p' (convert t w))) /\
  (forall (p p1 : Process) (size_object address_object address : Z)
          (m : gmap Z Z),
     let minus_one := Smi_FromWord (-1) in
     IsSmi minus_one = true ->
     Smi_value minus_one = -1 ->
     Smi_IsValid (-1) = true ->
     (forall q z, memory (snd (Process_NewInteger prog q z)) = memory q) ->
     FFI.AsForeignWord prog p size_object = Some 8 ->
     calloc (memory p) 1 8 = (address, m) ->
     address <> 0 ->
     (forall i, 0 <= i < 8 -> m !! (address + i) = Some 0) ->
     FFI.ForeignAllocate prog p [size_object] = Some (address_object, p1) ->
     FFI.AsForeignWord prog p1 address_object = Some address ->
     exists p2,
       FFI.ForeignSetInt32 prog p1 [address_object; minus_one]
         = Some (minus_one, p2) /\
       FFI.ForeignGetInt32 prog p2 [address_object] = Some (minus_one, p2)).
Proof.
  assert (Hround : forall (t : ctype) (p : Process) (address_object value address w : Z),
     FFI.AsForeignWord prog p address_object = Some address ->
     FFI.AsForeignWord prog p value = Some w ->
     mapped (memory p) address (sizeof t) ->
     exists p',
       FFI.ForeignSet t prog p [address_object; value] = Some (value, p') /\
       FFI.ForeignGet t prog p' [address_object]
         = Some (FFI.ToInteger prog p' (convert t w))).
  { intros t p address_object value address w Haddr Hw Hmapped.
    destruct (store_bytes_mapped (sizeof t) address (convert t w) (memory p) Hmapped)
      as [m' Hm'].
    exists (set_memory m' p). split.
    - unfold FFI.ForeignSet, FFI.foreign_word. simpl.
      rewrite Haddr. simpl. rewrite Hw. simpl.
      unfold store_typed. rewrite Hm'. reflexivity.
    - unfold FFI.ForeignGet, FFI.foreign_word. simpl.
      rewrite AsForeignWord_set_memory, Haddr. simpl.
      rewrite (load_store_typed t address w (memory p) m' Hm'). reflexivity. }
  split; [exact Hround|].
  intros p p1 size_object address_object address m minus_one
         Hsmi Hvalue Hvalid Hframe Hsize Hcalloc Hnz Hzero Halloc Haddr.
  assert (Hmapped : mapped (memory p1) address (sizeof int32)).
  { unfold FFI.ForeignAllocate, FFI.foreign_word in Halloc. simpl in Halloc.
    rewrite Hsize in Halloc. simpl in Halloc. rewrite Hcalloc in Halloc.
    injection Halloc as Hto.
    assert (Hmem : memory p1 = m).
    { pose proof (ToInteger_memory prog (set_memory m p) address Hframe) as Hkeep.
      now rewrite Hto in Hkeep. }
    intros i Hi. rewrite Hmem.
    rewrite (Hzero i) by (simpl in Hi; lia). eauto. }
  assert (Hone : FFI.AsForeignWord prog p1 minus_one = Some (-1)).
  { unfold FFI.AsForeignWord. now rewrite Hsmi, Hvalue. }
  destruct (Hround int32 p1 address_object minus_one address (-1) Haddr Hone Hmapped)
    as (p2 & Hset & Hget).
  exists p2. split; [exact Hset|].
  unfold FFI.ForeignGetInt32. rewrite Hget.
  unfold FFI.ToInteger.
  change (wrap_signed 64 (convert int32 (-1))) with (-1).
  now rewrite Hvalid.
Qed.

(** [to_int32] is the low 32 bits read as a signed integer. *)
Lemma to_int32_spec raw :
  - 2 ^ 31 <= to_int32 raw < 2 ^ 31 /\
  to_int32 raw mod 2 ^ 32 = raw mod 2 ^ 32.
Proof.
  unfold to_int32. split.
  - pose proof (Z.mod_pos_bound (raw + 2 ^ 31) (2 ^ 32)). lia.
  - rewrite Zminus_mod, Zmod_mod, <- Zminus_mod. f_equal. lia.
Qed.

(** C10. Each of [ForeignCall0] to [ForeignCall6] receives the result
    of the foreign function through a pointer to a function returning
    [int]: whatever word the function leaves, the integer handed to
    [ToInteger] is its low 32 bits read as a signed integer, also where
    the machine word has 64 bits.  The arguments are handed over as
    machine words: a small integer arrives with its full value. *)
Theorem foreign_call_result_is_int (prog : Program) (p : Process)
        (arguments : list Z) (address : Z) :
  FFI.foreign_word prog p arguments 0 = Some address ->
  let answer words :=
    Some (FFI.ToInteger prog (snd (call_foreign address words p))
                        (to_int32 (fst (call_foreign address words p)))) in
  FFI.ForeignCall0 prog p arguments = answer [] /\
  (forall a0,
     FFI.foreign_word prog p arguments 1 = Some a0 ->
     FFI.ForeignCall1 prog p arguments = answer [a0]) /\
  (forall a0 a1,
     FFI.foreign_word prog p arguments 1 = Some a0 ->
     FFI.foreign_word prog p arguments 2 = Some a1 ->
     FFI.ForeignCall2 prog p arguments = answer [a0; a1]) /\
  (forall a0 a1 a2,
     FFI.foreign_word prog p arguments 1 = Some a0 ->
     FFI.foreign_word prog p arguments 2 = Some a1 ->
     FFI.foreign_word prog p arguments 3 = Some a2 ->
     FFI.ForeignCall3 prog p arguments = answer [a0; a1; a2]) /\
  (forall a0 a1 a2 a3,
     FFI.foreign_word prog p arguments 1 = Some a0 ->
     FFI.foreign_word prog p arguments 2 = Some a1 ->
     FFI.foreign_word prog p arguments 3 = Some a2 ->
     FFI.foreign_word prog p arguments 4 = Some a3 ->
     FFI.ForeignCall4 prog p arguments = answer [a0; a1; a2; a3]) /\
  (forall a0 a1 a2 a3 a4,
     FFI.foreign_word prog p arguments 1 = Some a0 ->
     FFI.foreign_word prog p arguments 2 = Some a1 ->
     FFI.foreign_word prog p arguments 3 = Some a2 ->
     FFI.foreign_word prog p arguments 4 = Some a3 ->
     FFI.foreign_word prog p arguments 5 = Some a4 ->
     FFI.ForeignCall5 prog p arguments = answer [a0; a1; a2; a3; a4]) /\
  (forall a0 a1 a2 a3 a4 a5,
     FFI.foreign_word prog p arguments 1 = Some a0 ->
     FFI.foreign_word prog p arguments 2 = Some a1 ->
     FFI.foreign_word prog p arguments 3 = Some a2 ->
     FFI.foreign_word prog p arguments 4 = Some a3 ->
     FFI.foreign_word prog p arguments 5 = Some a4 ->
     FFI.foreign_word prog p arguments 6 = Some a5 ->
     FFI.ForeignCall6 prog p arguments = answer [a0; a1; a2; a3; a4; a5]) /\
  (forall raw, - 2 ^ 31 <= to_int32 raw < 2 ^ 31 /\
               to_int32 raw mod 2 ^ 32 = raw mod 2 ^ 32) /\
  to_int32 (2 ^ 32 + 5) = 5 /\
  to_int32 (2 ^ 31) = - 2 ^ 31 /\
  (forall (i : nat) object,
     arguments !! i = Some object -> IsSmi object = true ->
     FFI.foreign_word prog p arguments i = Some (Smi_value object)).
Proof.
  intros Haddr answer.
  assert (Hcall : forall words,
    (let '(result, p') := FFI.call_int address words p in
     Some (FFI.ToInteger prog p' result)) = answer words).
  { intros words. unfold FFI.call_int, answer.
    now destruct (call_foreign address words p). }
  repeat match goal with |- _ /\ _ => split end.
  - unfold FFI.ForeignCall0. rewrite Haddr. apply Hcall.
  - intros a0 H0.
    unfold FFI.ForeignCall1. rewrite Haddr. simpl. rewrite H0. apply Hcall.
  - intros a0 a1 H0 H1.
    unfold FFI.ForeignCall2. rewrite Haddr. simpl. rewrite H0. simpl.
    rewrite H1. apply Hcall.
  - intros a0 a1 a2 H0 H1 H2.
    unfold FFI.ForeignCall3. rewrite Haddr. simpl. rewrite H0. simpl.
    rewrite H1. simpl. rewrite H2. apply Hcall.
  - intros a0 a1 a2 a3 H0 H1 H2 H3.
    unfold FFI.ForeignCall4. rewrite Haddr. simpl. rewrite H0. simpl.
    rewrite H1. simpl. rewrite H2. simpl. rewrite H3. apply Hcall.
  - intros a0 a1 a2 a3 a4 H0 H1 H2 H3 H4.
    unfold FFI.ForeignCall5. rewrite Haddr. simpl. rewrite H0. simpl.
    rewrite H1. simpl. rewrite H2. simpl. rewrite H3. simpl. rewrite H4.
    apply Hcall.
  - intros a0 a1 a2 a3 a4 a5 H0 H1 H2 H3 H4 H5.
    unfold FFI.ForeignCall6. rewrite Haddr. simpl. rewrite H0. simpl.
    rewrite H1. simpl. rewrite H2. simpl. rewrite H3. simpl. rewrite H4.
    simpl. rewrite H5. apply Hcall.
  - apply to_int32_spec.
  - reflexivity.
  - reflexivity.
  - intros i object Hi Hsmi. unfold FFI.foreign_word, FFI.AsForeignWord.
    rewrite Hi. simpl. now rewrite Hsmi.
Qed.

End ForeignProperties.

(** ** The properties on the example program *)

Section Witnesses.

#[local] Existing Instance Example.object_model.
#[local] Existing Instance Example.selectors.
#[local] Existing Instance Example.bytecodes.
#[local] Existing Instance Example.heap_.
#[local] Existing Instance Example.natives.
#[local] Existing Instance Example.stack_walker.
#[local] Existing Instance Example.method_lookup.
#[local] Existing Instance Example.platform.
#[local] Existing Instance Example.libc.
#[local] Existing Instance Example.foreign_code.

(** [Return 1 1] at 500 on the example frame: the result 88 replaces
    the receiver and execution goes on at 535. *)
Lemma Return_effect_witness :
  exists s',
    Op.Return (Example.state_on 17 Example.frame 3 500) = Some (DISPATCH, s') /\
    bcp s' = 535 /\
    sp s' = 3 + (- 1 - 1 + 1) - 1 /\
    Process_stack (process s') = Some (upd Example.frame (sp s') 88) /\
    Top s' = Some (88, s').
Proof.
  apply (Return_effect (Example.state_on 17 Example.frame 3 500)
                       Example.frame 1 1 88 535);
    try reflexivity; try (cbn; lia).
Defined.

(** [Allocate 0] at 510 on a full heap: one collection, and the opcode
    is dispatched again on the same stack. *)
Lemma allocation_failure_retries_witness :
  let s := Example.state_on 17 Example.frame 3 510 in
  exists s' st' saved,
    execute 1 kAllocate s = Some (DISPATCH, s') /\
    SaveState s = Some (tt, saved) /\
    process s' = Process_CollectGarbage (program s) (process saved) /\
    bcp s' = bcp s /\
    sp s' = sp s /\
    Process_stack (process s') = Some st' /\
    same_operands (sp s) Example.frame st' /\
    byte_at (program s') (bcp s') = byte_at (program s) (bcp s).
Proof.
  intros s.
  apply (allocation_failure_retries 1 kAllocate s s Example.frame);
    try reflexivity; try (cbn; lia).
Defined.

(** The send native at 520 answers the locked port 4096: the engine
    yields to it and leaves null on top of the saved stack. *)
Lemma InvokeNativeYield_effect_witness :
  let s := Example.state_on 17 Example.frame 2 520 in
  exists s' r,
    Op.InvokeNativeYield s = Some (Return_ kTargetYield, s') /\
    yield_target s' = Some 4096 /\
    Process_stack (process s') =
      Some {| slots := <[Z.to_nat (2 - 1 + 1) := 535]>
                         (<[Z.to_nat (2 - 1) := 9]> (slots Example.frame));
              top := 2 - 1 + 1 |} /\
    (RestoreState ;; Top) s' = Some (9, r) /\
    bcp r = 535 /\ sp r = 2 - 1.
Proof.
  intros s.
  destruct (InvokeNativeYield_effect s Example.frame Example.frame 1 0 4096 (process s))
    as [_ Hregular]; try reflexivity; try (cbn; lia).
  destruct (Hregular eq_refl 535) as [_ Hport]; try reflexivity; try (cbn; lia).
  apply (Hport ltac:(cbn; lia) {| IsLocked := true; ref_count := 1 |});
    try reflexivity; try (cbn; lia).
Defined.

(** A throw of 44 on coroutine 33, which has a catch block at 700 two
    slots down. *)
Lemma Throw_caught_witness :
  let s := Example.state_on 33 Example.frame 2 540 in
  exists s',
    SaveState s = Some (tt, saved_state s Example.stack33) /\
    Process_stack (process (saved_state s Example.stack33))
      = Some {| slots := <[Z.to_nat (2 + 1) := 540]> (slots Example.stack33);
                top := 2 + 1 |} /\
    Op.Throw 1 s = Some (DISPATCH, s') /\
    bcp s' = 700 /\
    sp s' = 3 - 1 - (2 - 1) /\
    Process_stack (process s')
      = Some (upd {| slots := <[3%nat := 540]> (slots Example.stack33); top := 3 |}
                  (sp s') 44) /\
    Top s' = Some (44, s').
Proof.
  intros s.
  apply (Throw_caught 1 s Example.stack33
                      {| slots := <[3%nat := 540]> (slots Example.stack33); top := 3 |}
                      44 700 2 540 (process (saved_state s Example.stack33)));
    try reflexivity; try (cbn; lia).
Defined.

(** Unwinding out of coroutine 17 into its caller 33, and an uncaught
    exception on coroutine 49 with no debug session. *)
Lemma HandleThrow_no_catch_block_witness :
  let p := Example.process_on 17 Example.frame in
  let q := Example.process_on 49 Example.frame in
  (HandleThrow 2 Example.prog p 44
     = HandleThrow 1 Example.prog (unwound_to 33 p) 44 /\
   coroutine (unwound_to 33 p) = 33 /\
   heap (unwound_to 33 p) !! 17 = Some (HCoroutine None (Some 17)) /\
   Process_stack (unwound_to 33 p) = Some Example.stack33) /\
  exists q',
    HandleThrow 1 Example.prog q 44 = Some (Exited 1 q') /\
    output q' = [Write stdout (Literal (String.append "Uncaught exception:" newline));
                 Write stderr (Printed 44)].
Proof.
  intros p q. split.
  - destruct (HandleThrow_no_catch_block 1 Example.prog p 44 (Some Example.frame) (Some 33))
      as [Hcaller _]; try reflexivity.
    destruct (Hcaller 33 eq_refl) as (Hretry & Hcurrent & Hdone & Hstack).
    split; [exact Hretry|]. split; [exact Hcurrent|]. split; [exact Hdone|].
    apply (Hstack ltac:(cbn; lia)) with (c := None). reflexivity.
  - destruct (HandleThrow_no_catch_block 0 Example.prog q 44 (Some Example.stack33) None)
      as [_ Hnone]; try reflexivity.
    destruct (Hnone eq_refl) as [_ Hexit].
    destruct (Hexit eq_refl) as (q' & Hrun & Hout & _).
    exists q'. split; assumption.
Defined.

(** The trampoline around the invoke at 530: entering pushes the
    selector [foo], the receiver 401 and the selector; leaving with the
    answer 10 resumes at 535 with 10 in place of the receiver. *)
Lemma NoSuchMethod_trampoline_witness :
  (exists s',
     Op.EnterNoSuchMethod (Example.state_on 17 Example.frame 2 550)
       = Some (DISPATCH, s') /\
     bcp s' = 550 + kEnterNoSuchMethodLength /\
     sp s' = 2 + 3 /\
     Process_stack (process s') =
       Some (upd (upd (upd Example.frame (2 + 1) (Smi_FromWord 3072))
                      (2 + 2) 401)
                 (2 + 3) (Smi_FromWord 3072))) /\
  (exists s',
     Op.ExitNoSuchMethod (Example.state_on 17 Example.exit_frame 4 560)
       = Some (DISPATCH, s') /\
     bcp s' = 535 /\
     sp s' = 4 - 3 - (0 + 1) + 1 /\
     Process_stack (process s') = Some (upd Example.exit_frame (sp s') 10)).
Proof.
  destruct NoSuchMethod_trampoline as [Henter Hexit]. split.
  - apply (Henter (Example.state_on 17 Example.frame 2 550) Example.frame 535 3072 401);
      try reflexivity; try (cbn; lia).
  - apply (Hexit (Example.state_on 17 Example.exit_frame 4 560)
                 Example.exit_frame 10 6144 535 401);
      try reflexivity; try (cbn; lia).
  vm_compute. split; [discriminate | reflexivity].
Defined.

(** Two distinct Doubles holding NaN: identical, but not identical as
    non-numeric values. *)
Lemma Identical_cases_witness :
  let s := Example.state_on 17 Example.doubles_frame 1 570 in
  HandleIdentical (program s) (process s) 601 605 = true_object (program s) /\
  exists s',
    Op.IdenticalNonNumeric s = Some (DISPATCH, s') /\
    Process_stack (process s')
      = Some (upd Example.doubles_frame 0 (false_object (program s))).
Proof.
  intros s.
  destruct (Identical_cases (program s) (process s) 601 605)
    as (Hdoubles & _ & _ & Hopcodes).
  split.
  - destruct (Hdoubles S754_nan S754_nan eq_refl eq_refl) as (_ & Hnan & _).
    apply Hnan; reflexivity.
  - destruct (Hopcodes s Example.doubles_frame eq_refl eq_refl eq_refl eq_refl eq_refl)
      as [_ (s' & Hrun & _ & _ & _ & Hfalse)]; [cbn; lia|].
    exists s'. split; [exact Hrun|].
    apply Hfalse; [cbn; lia | reflexivity | reflexivity].
Defined.

(** In a buffer of 8 bytes from [ForeignAllocate], storing -1 as an
    [int32] and reading it back answers the small integer -1. *)
Lemma foreign_accessors_round_trip_witness :
  let p := Example.process_on 17 Example.frame in
  let m := Example.zero_fill 8 8192 ∅ in
  exists p2,
    FFI.ForeignSetInt32 Example.prog (set_memory m p) [16384; Smi_FromWord (-1)]
      = Some (Smi_FromWord (-1), p2) /\
    FFI.ForeignGetInt32 Example.prog p2 [16384] = Some (Smi_FromWord (-1), p2).
Proof.
  intros p m.
  destruct (foreign_accessors_round_trip Example.prog) as [_ Hbuffer].
  apply (Hbuffer p (set_memory m p) 16 16384 8192 m);
    try reflexivity; try (cbn; lia).
  intros i Hi.
  assert (Hcases : i = 0 \/ i = 1 \/ i = 2 \/ i = 3 \/ i = 4 \/ i = 5 \/ i = 6 \/ i = 7)
    by lia.
  destruct Hcases as [->|[->|[->|[->|[->|[->|[->| ->]]]]]]]; reflexivity.
Defined.

(** A foreign function that leaves [2 ^ 32 + 5] in the return register
    is seen to answer 5. *)
Lemma foreign_call_result_is_int_witness :
  let p := Example.process_on 17 Example.frame in
  FFI.ForeignCall0 Example.prog p [16384] = Some (Smi_FromWord 5, p) /\
  FFI.ForeignCall1 Example.prog p [16384; Smi_FromWord (2 ^ 40)]
    = Some (Smi_FromWord 5, p).
Proof.
  intros p.
  destruct (foreign_call_result_is_int Example.prog p [16384; Smi_FromWord (2 ^ 40)] 8192)
    as (_ & Hone & _); [reflexivity|].
  destruct (foreign_call_result_is_int Example.prog p [16384] 8192)
    as (Hzero & _); [reflexivity|].
  split.
  - rewrite Hzero. reflexivity.
  - rewrite (Hone (2 ^ 40) eq_refl). reflexivity.
Defined.

Ltac lookup_cases H :=
  repeat (apply lookup_insert_Some in H;
          destruct H as [[? ?]|[? H]]; subst; try discriminate);
  try (rewrite lookup_empty in H; discriminate).

Lemma example_classes clazz class_id st :
  Class_id Example.prog (Example.process_on 17 st) clazz = Some class_id ->
  (clazz = 101 /\ class_id = 0) \/ (clazz = 105 /\ class_id = 7).
Proof.
  unfold Class_id, object_at.
  cbn [heap Example.process_on program_heap Example.prog].
  match goal with
  | |- context [match ?m !! clazz with _ => _ end] =>
      destruct (m !! clazz) as [h|] eqn:Hprocess
  end.
  - intros Hclass. lookup_cases Hprocess.
  - match goal with
    | |- context [match ?m !! clazz with _ => _ end] =>
        destruct (m !! clazz) as [h|] eqn:Hprogram
    end; [|discriminate].
    intros Hclass. lookup_cases Hprogram; injection Hclass as <-; auto.
Qed.

Lemma example_call_site_compiled st :
  compiled_from_same_call_site Example.prog (Example.process_on 17 st) Example.site.
Proof.
  split; split.
  - exists 6144. split; reflexivity.
  - intros clazz class_id Hclass.
    apply example_classes in Hclass as [[-> ->]|[-> ->]].
    + exists 1%nat, 0, (2 * (2 ^ 62 - 1)). split; [reflexivity|]. split; [reflexivity|].
      intros j Hj. assert (j = 0%nat) as -> by lia.
      exists 14, 16, 201. split; reflexivity.
    + exists 0%nat, 14, 16. split; [reflexivity|]. split; [reflexivity|].
      intros j Hj. lia.
  - exists 301, [0; 0; 205; 0]. repeat split.
  - intros clazz class_id Hclass.
    apply example_classes in Hclass as [[-> ->]|[-> ->]].
    + exists 301, [0; 0; 205; 0], 0. repeat split. vm_compute. discriminate.
    + exists 305, [4; 0; 201; 0], 4. repeat split.
Qed.

(** The call site of [foo] on a receiver of class 105, whose id is 7:
    the cache, the dispatch table and the vtable all answer the
    function 201, and the invoke at 530 enters it. *)
Lemma dispatch_equivalence_witness :
  let s := Example.state_on 17 Example.frame 1 530 in
  LookupEntry 401 3072 s
    = Some ({| target := 201; tag := 1 |},
            set_process (set_cache {[ (105, 3072) := {| target := 201; tag := 1 |} ]}
                                   (process s)) s) /\
  InvokeMethodFast_target (program s) 0 7 = Some 201 /\
  InvokeMethodVtable_target (program s) (process s) 7 2 = Some 201 /\
  Op.InvokeMethodFast s = (PushReturnAddress 5 ;; Op.enter 201) s.
Proof.
  intros s.
  destruct (dispatch_equivalence s Example.site Example.frame 401 105 7)
    as (function & Hresolve & _ & Hfast & Hvtable & _ & _ & Hopcode & _);
    try reflexivity.
  - apply example_call_site_compiled.
  - apply cache_coherent_empty.
  - vm_compute in Hresolve. subst function.
    split; [reflexivity|]. split; [exact Hfast|]. split; [exact Hvtable|].
    apply Hopcode. reflexivity.
Defined.

End Witnesses.

(** * Further properties of the engine *)

(** ** Saving and restoring the state *)

Section SaveRestore.

Ltac run_with lemma := erewrite bind_run by (eapply lemma; eauto).

Lemma slot_at_saved st i b :
  0 <= i < Z.of_nat (length (slots st)) ->
  slot_at {| slots := <[Z.to_nat i := b]> (slots st); top := i |} i = Some b.
Proof.
  intros Hi. unfold slot_at. cbn [slots].
  rewrite decide_True by lia. apply list_lookup_insert_eq. lia.
Qed.

Lemma same_operands_saved st i b :
  same_operands (i - 1) st {| slots := <[Z.to_nat i := b]> (slots st); top := i |}.
Proof.
  split; cbn [slots].
  - apply length_insert.
  - intros j Hj. unfold slot_at. cbn [slots].
    destruct (decide (0 <= j)); [|reflexivity].
    apply list_lookup_insert_ne. lia.
Qed.

(** X1. [SaveState] followed by [RestoreState] gives back the stack
    pointer and the bytecode pointer and leaves every operand slot as it
    was; the bytecode pointer sits in the slot above the operands and
    the stack object records that slot as its top.  A [NULL] bytecode
    pointer is saved but cannot be restored. *)
Theorem SaveState_RestoreState_round_trip (s : State) (st : Stack) :
  Process_stack (process s) = Some st ->
  0 <= sp s + 1 < Z.of_nat (length (slots st)) ->
  (bcp s <> 0 ->
   exists s1 s2 st',
     SaveState s = Some (tt, s1) /\
     RestoreState s1 = Some (tt, s2) /\
     registers_of s s2 /\
     Process_stack (process s2) = Some st' /\
     same_operands (sp s) st st' /\
     top st' = sp s + 1 /\
     slot_at st' (sp s + 1) = Some (bcp s)) /\
  (bcp s = 0 -> (SaveState ;; RestoreState) s = None).
Proof.
  intros Hst Hi.
  set (saved := {| slots := <[Z.to_nat (sp s + 1) := bcp s]> (slots st);
                   top := sp s + 1 |}).
  assert (Hsaved : Process_stack (process (put_stack saved (set_sp (sp s + 1) s)))
                   = Some saved)
    by (eapply Process_stack_set; simpl; eauto).
  assert (Hslot : slot_at saved (top saved) = Some (bcp s))
    by (apply slot_at_saved; exact Hi).
  split.
  - intros Hnz. eexists _, _, saved.
    split; [eapply SaveState_run; eauto|].
    split; [eapply RestoreState_run; eauto|].
    split; [repeat split; simpl; lia|].
    split; [exact Hsaved|].
    split; [|split; [reflexivity | exact Hslot]].
    replace (sp s) with (sp s + 1 - 1) at 1 by lia.
    apply same_operands_saved.
  - intros Hz. erewrite bind_run by (eapply SaveState_run; eauto).
    unfold RestoreState, bind at 1, get.
    unfold bind at 1, lift. fold saved. rewrite Hsaved.
    unfold bind at 1, modify.
    erewrite bind_run by (eapply Pop_run; simpl; eauto).
    unfold bind, modify, ASSERT. rewrite Hz. reflexivity.
Qed.

End SaveRestore.

(** ** Subroutines, negation, boxes and fields *)

Section LocalOpcodes.

Context {object_model : ObjectModel} {selectors : Selectors}
        {bytecodes : Bytecodes} {heap_ : Heap} {natives : Natives}
        {stack_walker : StackWalker} {method_lookup : MethodLookup}
        {more_bytecodes : MoreBytecodes} {tables : Tables}.

Lemma to_int32_idem z : to_int32 (to_int32 z) = to_int32 z.
Proof.
  unfold to_int32.
  replace ((z + 2 ^ 31) mod 2 ^ 32 - 2 ^ 31 + 2 ^ 31)
    with ((z + 2 ^ 31) mod 2 ^ 32) by lia.
  now rewrite Z.mod_mod by lia.
Qed.

Lemma ReadInt32_int32 prog a v :
  Utils_ReadInt32 prog a = Some v -> to_int32 v = v.
Proof.
  unfold Utils_ReadInt32.
  destruct (byte_at prog a); [|discriminate].
  destruct (byte_at prog (a + 1)); [|discriminate].
  destruct (byte_at prog (a + 2)); [|discriminate].
  destruct (byte_at prog (a + 3)); [|discriminate].
  intros [= <-]. apply to_int32_idem.
Qed.

Lemma negate_run v s : v <> - 2 ^ 31 -> negate v s = Some (- v, s).
Proof.
  intros Hv. unfold negate, ASSERT, bind.
  now destruct (Z.eqb_spec v (- 2 ^ 31)).
Qed.

Lemma upd_id st i v : slot_at st i = Some v -> upd st i v = st.
Proof.
  unfold slot_at, upd. destruct (decide (0 <= i)); [|discriminate].
  intros Hv. rewrite list_insert_id by exact Hv. now destruct st.
Qed.

Lemma upd_upd st i v w : upd (upd st i v) i w = upd st i w.
Proof. unfold upd. cbn [slots top]. now rewrite list_insert_insert_eq. Qed.

Lemma put_stack_id s st : Process_stack (process s) = Some st -> put_stack st s = s.
Proof.
  intros Hst. unfold put_stack. rewrite Process_set_stack_id by exact Hst.
  now destruct s.
Qed.

Lemma Process_stack_put s st0 st :
  Process_stack (process s) = Some st0 ->
  Process_stack (process (put_stack st s)) = Some st.
Proof. intros Hst. simpl. eapply Process_stack_set; eauto. Qed.

Lemma slot_at_bound st i v :
  slot_at st i = Some v -> 0 <= i < Z.of_nat (length (slots st)).
Proof.
  unfold slot_at. destruct (decide (0 <= i)); [|discriminate].
  intros Hv. apply lookup_lt_Some in Hv. lia.
Qed.

(** X2. [SubroutineCall] leaves its return delta on the stack as a small
    integer and jumps by its first operand; wherever the subroutine
    ends, a [SubroutineReturn] that finds the stack as the call left it
    pops the delta, jumps back by exactly that delta and leaves the
    stack as it was before the call. *)
Theorem Subroutine_round_trip (s : State) (st : Stack) (delta return_delta : Z) :
  Utils_ReadInt32 (program s) (bcp s + 1) = Some delta ->
  Utils_ReadInt32 (program s) (bcp s + 5) = Some return_delta ->
  Process_stack (process s) = Some st ->
  0 <= sp s + 1 < Z.of_nat (length (slots st)) ->
  Smi_value (Smi_FromWord return_delta) = return_delta ->
  return_delta <> - 2 ^ 31 ->
  exists s1,
    Ops.SubroutineCall s = Some (DISPATCH, s1) /\
    bcp s1 = bcp s + delta /\
    sp s1 = sp s + 1 /\
    Top s1 = Some (Smi_FromWord return_delta, s1) /\
    forall b, exists s2,
      Ops.SubroutineReturn (set_bcp b s1) = Some (DISPATCH, s2) /\
      bcp s2 = b - return_delta /\
      sp s2 = sp s /\
      process s2 = process s1 /\
      exists st', Process_stack (process s2) = Some st' /\
                  same_operands (sp s) st st'.
Proof.
  intros Hd Hr Hst Hi Hsmi Hmin.
  set (st1 := upd st (sp s + 1) (Smi_FromWord return_delta)).
  assert (Hst1 : forall b,
    Process_stack (process (set_bcp b (put_stack st1 (set_sp (sp s + 1) s))))
    = Some st1) by (intros b; simpl; eapply Process_stack_set; eauto).
  assert (Htop : slot_at st1 (sp s + 1) = Some (Smi_FromWord return_delta))
    by (apply slot_at_upd_eq; exact Hi).
  eexists. split.
  { unfold Ops.SubroutineCall.
    rewrite (bind_run _ _ _ _ _ (ReadInt32_run _ _ _ Hd)).
    rewrite (bind_run _ _ _ _ _ (ReadInt32_run _ _ _ Hr)).
    unfold PushDelta.
    erewrite bind_run by (eapply Push_run; eauto).
    reflexivity. }
  split; [reflexivity|]. split; [reflexivity|].
  split.
  { unfold Top. eapply Local_run; [apply Hst1|].
    simpl. rewrite Z.sub_0_r. exact Htop. }
  intros b. eexists. split.
  { unfold Ops.SubroutineReturn, PopDelta.
    erewrite bind_run; cycle 1.
    { erewrite bind_run by (eapply Pop_run; [apply Hst1 | exact Htop]).
      reflexivity. }
    rewrite Hsmi, (ReadInt32_int32 _ _ _ Hr).
    rewrite (bind_run _ _ _ _ _ (negate_run _ _ Hmin)).
    reflexivity. }
  simpl. split; [lia|]. split; [lia|]. split; [reflexivity|].
  exists st1. split; [eapply Process_stack_set; eauto|].
  subst st1. split; cbn [slots upd].
  - apply length_insert.
  - intros i Hle. apply slot_at_upd_ne; lia.
Qed.

(** X3. [Negate] swaps the two boolean singletons on top of the stack,
    so two of them in a row leave the process as it was and the
    bytecode pointer two opcodes further; on any other value it does
    not go on (the source has [UNIMPLEMENTED()] there). *)
Theorem Negate_involution (s : State) (st : Stack) (condition : Object) :
  Process_stack (process s) = Some st ->
  slot_at st (sp s) = Some condition ->
  (forall b : bool, condition = bool_object (program s) b ->
   exists s1 s2,
     Ops.Negate s = Some (DISPATCH, s1) /\
     Top s1 = Some (bool_object (program s) (negb b), s1) /\
     Ops.Negate s1 = Some (DISPATCH, s2) /\
     process s2 = process s /\
     sp s2 = sp s /\
     bcp s2 = bcp s + kNegateLength + kNegateLength) /\
  (condition <> true_object (program s) ->
   condition <> false_object (program s) ->
   Ops.Negate s = None).
Proof.
  intros Hst Hc.
  assert (Hi := slot_at_bound _ _ _ Hc).
  assert (Hstep : forall (s0 : State) st0 c,
    Process_stack (process s0) = Some st0 ->
    slot_at st0 (sp s0) = Some (bool_object (program s0) c) ->
    Ops.Negate s0 =
      Some (DISPATCH,
            set_bcp (bcp s0 + kNegateLength)
              (put_stack (upd st0 (sp s0) (bool_object (program s0) (negb c))) s0))).
  { intros s0 st0 c Hst0 Hc0.
    assert (Hi0 := slot_at_bound _ _ _ Hc0).
    unfold Ops.Negate.
    erewrite bind_run
      by (eapply Local_run; [exact Hst0 | rewrite Z.sub_0_r; exact Hc0]).
    rewrite get_run.
    assert (Hset : forall v,
      SetTop v s0 = Some (tt, put_stack (upd st0 (sp s0) v) s0)).
    { intros v. unfold SetTop.
      erewrite SetLocal_run by (eauto; rewrite Z.sub_0_r; exact Hi0).
      now rewrite Z.sub_0_r. }
    destruct c; cbn [bool_object negb].
    - rewrite decide_True by reflexivity.
      erewrite bind_run by apply Hset. reflexivity.
    - destruct (decide (false_object (program s0) = true_object (program s0)))
        as [Heq|Hne].
      + erewrite bind_run by apply Hset. now rewrite Heq.
      + rewrite decide_True by reflexivity.
        erewrite bind_run by apply Hset. reflexivity. }
  split.
  - intros b ->. eexists _, _.
    split; [eapply Hstep; eauto|].
    split.
    { unfold Top. eapply Local_run.
      - eapply Process_stack_set; eauto.
      - simpl. rewrite Z.sub_0_r. apply slot_at_upd_eq. exact Hi. }
    split.
    { eapply Hstep.
      - eapply Process_stack_set; eauto.
      - simpl. apply slot_at_upd_eq. exact Hi. }
    cbn [process sp bcp program set_bcp put_stack set_process].
    rewrite negb_involutive, upd_upd, (upd_id _ _ _ Hc).
    rewrite Process_set_stack_twice, (Process_set_stack_id _ _ Hst).
    repeat split.
  - intros Ht Hf. unfold Ops.Negate.
    erewrite bind_run
      by (eapply Local_run; [exact Hst | rewrite Z.sub_0_r; exact Hc]).
    rewrite get_run.
    rewrite decide_False by exact Ht. rewrite decide_False by exact Hf.
    reflexivity.
Qed.

Lemma Process_stack_set_heap_ne p o h :
  o <> coroutine p ->
  Process_stack (set_heap (<[o := h]> (heap p)) p) = Process_stack p.
Proof.
  intros Hne. unfold Process_stack. cbn [heap coroutine set_heap].
  now rewrite lookup_insert_ne by exact Hne.
Qed.

Lemma not_the_coroutine p o st h :
  Process_stack p = Some st -> heap p !! o = Some h ->
  (forall stack caller, h <> HCoroutine stack caller) ->
  o <> coroutine p.
Proof.
  unfold Process_stack. intros Hst Ho Hh ->. rewrite Ho in Hst.
  destruct h as [| | | | | | |stack caller]; try discriminate.
  now apply (Hh stack caller).
Qed.

(** X4. [StoreBoxed n] writes the value on top of the stack into the box
    in local [n] without moving the stack pointer and without touching
    any other object; a [LoadBoxed n] right after it pushes that very
    value. *)
Theorem StoreBoxed_LoadBoxed (s : State) (st : Stack)
        (offset value boxed old : Z) :
  byte_at (program s) (bcp s + 1) = Some offset ->
  byte_at (program s) (bcp s + kStoreBoxedLength + 1) = Some offset ->
  Process_stack (process s) = Some st ->
  slot_at st (sp s) = Some value ->
  slot_at st (sp s - offset) = Some boxed ->
  heap (process s) !! boxed = Some (HBoxed old) ->
  0 <= sp s + 1 < Z.of_nat (length (slots st)) ->
  exists s1 s2,
    Ops.StoreBoxed s = Some (DISPATCH, s1) /\
    sp s1 = sp s /\
    Process_stack (process s1) = Some st /\
    heap (process s1) !! boxed = Some (HBoxed value) /\
    (forall o, o <> boxed -> heap (process s1) !! o = heap (process s) !! o) /\
    Ops.LoadBoxed s1 = Some (DISPATCH, s2) /\
    sp s2 = sp s + 1 /\
    bcp s2 = bcp s + kStoreBoxedLength + kLoadBoxedLength /\
    Top s2 = Some (value, s2).
Proof.
  intros Hb Hb' Hst Hv Hbox Hold Hi.
  assert (Hne : boxed <> coroutine (process s))
    by (eapply not_the_coroutine; eauto; discriminate).
  set (p1 := set_heap (<[boxed := HBoxed value]> (heap (process s))) (process s)).
  set (s1 := set_bcp (bcp s + kStoreBoxedLength) (set_process p1 s)).
  assert (Hst1 : Process_stack (process s1) = Some st).
  { subst s1 p1. cbn [process set_bcp set_process].
    rewrite Process_stack_set_heap_ne by exact Hne. exact Hst. }
  assert (Hnew : heap (process s1) !! boxed = Some (HBoxed value))
    by (subst s1 p1; cbn; apply lookup_insert_eq).
  exists s1. eexists. split.
  { unfold Ops.StoreBoxed.
    rewrite (bind_run _ _ _ _ _ (ReadByte_run _ _ _ Hb)).
    erewrite bind_run
      by (eapply Local_run; [exact Hst | rewrite Z.sub_0_r; exact Hv]).
    erewrite bind_run by (eapply Local_run; eauto).
    unfold Boxed_set_value, bind at 1. rewrite Hold. reflexivity. }
  split; [reflexivity|]. split; [exact Hst1|]. split; [exact Hnew|].
  split.
  { intros o Ho. subst s1 p1. cbn. now apply lookup_insert_ne. }
  split.
  { unfold Ops.LoadBoxed.
    erewrite bind_run by (apply ReadByte_run; exact Hb').
    erewrite bind_run by (eapply Local_run; [exact Hst1 | exact Hbox]).
    erewrite bind_run; cycle 1.
    { unfold Boxed_value. rewrite get_run. unfold object_at.
      rewrite Hnew. reflexivity. }
    erewrite bind_run by (eapply Push_run; [exact Hst1 | exact Hi]).
    reflexivity. }
  split; [reflexivity|]. split; [reflexivity|].
  unfold Top. eapply Local_run.
  - cbn [process set_bcp put_stack set_process set_sp].
    eapply Process_stack_set. exact Hst1.
  - simpl. rewrite Z.sub_0_r. apply slot_at_upd_eq. exact Hi.
Qed.

(** X5. [StoreField i] pops the value and the instance, writes the value
    into field [i] of the instance and pushes the value back: one slot
    less, the value on top, the other fields of the instance and all
    other objects but the stack untouched.  Whenever that instance is
    later on top of the stack with field [i] not written in between,
    [LoadField i] replaces it by the stored value. *)
Theorem StoreField_LoadField (s : State) (st : Stack)
        (index value instance : Z) (fields : list Z) :
  byte_at (program s) (bcp s + 1) = Some index ->
  Process_stack (process s) = Some st ->
  slot_at st (sp s) = Some value ->
  slot_at st (sp s - 1) = Some instance ->
  heap (process s) !! instance = Some (HInstance fields) ->
  0 <= index < Z.of_nat (length fields) ->
  exists s1,
    Ops.StoreField s = Some (DISPATCH, s1) /\
    sp s1 = sp s - 1 /\
    bcp s1 = bcp s + kStoreFieldLength /\
    Top s1 = Some (value, s1) /\
    heap (process s1) !! instance
      = Some (HInstance (<[Z.to_nat index := value]> fields)) /\
    (forall o, o <> instance -> o <> coroutine (process s) ->
               heap (process s1) !! o = heap (process s) !! o) /\
    forall (s2 : State) (st2 : Stack),
      byte_at (program s2) (bcp s2 + 1) = Some index ->
      Process_stack (process s2) = Some st2 ->
      slot_at st2 (sp s2) = Some instance ->
      heap (process s2) !! instance = heap (process s1) !! instance ->
      exists s3,
        Ops.LoadField s2 = Some (DISPATCH, s3) /\
        sp s3 = sp s2 /\
        bcp s3 = bcp s2 + kLoadFieldLength /\
        Top s3 = Some (value, s3).
Proof.
  intros Hb Hst Hv Hin Hfields Hindex.
  assert (Hne : instance <> coroutine (process s))
    by (eapply not_the_coroutine; eauto; discriminate).
  assert (Hi := slot_at_bound _ _ _ Hin).
  set (p1 := set_heap (<[instance := HInstance (<[Z.to_nat index := value]> fields)]>
                         (heap (process s))) (process s)).
  assert (Hst1 : Process_stack p1 = Some st)
    by (subst p1; rewrite Process_stack_set_heap_ne by exact Hne; exact Hst).
  eexists. split.
  { unfold Ops.StoreField.
    erewrite bind_run by (eapply Pop_run; eauto).
    erewrite bind_run by (eapply Pop_run; simpl; eauto).
    erewrite bind_run by (apply ReadByte_run; simpl; exact Hb).
    erewrite bind_run; cycle 1.
    { unfold SetInstanceField. cbn [process set_sp]. rewrite Hfields.
      rewrite decide_True by exact Hindex. reflexivity. }
    erewrite bind_run; cycle 1.
    { eapply Push_run; [exact Hst1 | simpl; lia]. }
    reflexivity. }
  cbn [sp bcp process set_bcp put_stack set_process set_sp].
  replace (sp s - 1 - 1 + 1) with (sp s - 1) by lia.
  split; [reflexivity|]. split; [reflexivity|].
  split.
  { unfold Top. eapply Local_run.
    - cbn [process set_bcp put_stack set_process set_sp].
      eapply Process_stack_set. exact Hst1.
    - cbn [sp set_bcp put_stack set_process set_sp].
      rewrite Z.sub_0_r. apply slot_at_upd_eq. exact Hi. }
  assert (Hheap1 : forall o, o <> coroutine (process s) ->
    heap (Process_set_stack (upd st (sp s - 1) value) p1) !! o = heap p1 !! o).
  { intros o Ho. unfold Process_set_stack.
    destruct (heap p1 !! coroutine p1) as [[]|]; try reflexivity.
    cbn [heap set_heap]. apply lookup_insert_ne.
    subst p1. cbn [coroutine set_heap]. congruence. }
  assert (Hnew : heap (Process_set_stack (upd st (sp s - 1) value) p1) !! instance
                 = Some (HInstance (<[Z.to_nat index := value]> fields))).
  { rewrite Hheap1 by exact Hne. subst p1. cbn. apply lookup_insert_eq. }
  split; [exact Hnew|].
  split.
  { intros o Ho Hco. rewrite Hheap1 by exact Hco. subst p1. cbn.
    now apply lookup_insert_ne. }
  intros s2 st2 Hb2 Hst2 Htop2 Hsame. fold p1 in Hsame. rewrite Hnew in Hsame.
  assert (Hi2 := slot_at_bound _ _ _ Htop2).
  eexists. split.
  { unfold Ops.LoadField.
    erewrite bind_run by (eapply Pop_run; eauto).
    erewrite bind_run by (apply ReadByte_run; simpl; exact Hb2).
    erewrite bind_run; cycle 1.
    { unfold GetInstanceField. rewrite get_run. unfold object_at.
      cbn [process set_sp]. rewrite Hsame.
      unfold lift, Array_get. rewrite decide_True by lia.
      rewrite list_lookup_insert_eq by lia. reflexivity. }
    erewrite bind_run; cycle 1.
    { eapply Push_run; [exact Hst2 | simpl; lia]. }
    reflexivity. }
  cbn [sp bcp process set_bcp put_stack set_process set_sp].
  replace (sp s2 - 1 + 1) with (sp s2) by lia.
  split; [reflexivity|]. split; [reflexivity|].
  unfold Top. eapply Local_run.
  - cbn [process set_bcp put_stack set_process set_sp].
    eapply Process_stack_set. exact Hst2.
  - cbn [sp set_bcp put_stack set_process set_sp].
    rewrite Z.sub_0_r. apply slot_at_upd_eq. exact Hi2.
Qed.

End LocalOpcodes.

(** ** Giving up the processor: stack overflow and yield *)

Section Surrender.

Context {object_model : ObjectModel} {selectors : Selectors}
        {bytecodes : Bytecodes} {heap_ : Heap} {natives : Natives}
        {stack_walker : StackWalker} {method_lookup : MethodLookup}
        {more_bytecodes : MoreBytecodes} {tables : Tables}.

Lemma HasStackSpaceFor_run size s :
  HasStackSpaceFor size s
    = Some (sp s + size <? Process_stack_limit (process s), s).
Proof. reflexivity. Qed.

(** X6. The opcode [StackOverflowCheck size].  With room for [size] more
    slots it only steps over itself.  Without room the state is saved
    and the process is asked to grow the stack: when it declines, the
    engine returns [kInterrupt] with the bytecode pointer still at the
    check, saved in the slot above the operands, so that the check runs
    again on resumption; when it grows the stack and hands back the
    saved frame, execution goes on behind the check with the stack
    pointer and the operands as before. *)
Theorem StackOverflowCheck_cases (s : State) (st : Stack) (size : Z) :
  Utils_ReadInt32 (program s) (bcp s + 1) = Some size ->
  Process_stack (process s) = Some st ->
  0 <= sp s + 1 < Z.of_nat (length (slots st)) ->
  bcp s <> 0 ->
  (sp s + size < Process_stack_limit (process s) ->
   Ops.StackOverflowCheck s
     = Some (DISPATCH, set_bcp (bcp s + kStackOverflowCheckLength) s)) /\
  (Process_stack_limit (process s) <= sp s + size ->
   forall grown p',
     Process_HandleStackOverflow (program s) (process (saved_state s st)) size
       = (grown, p') ->
     (grown = false ->
      Ops.StackOverflowCheck s
        = Some (Return_ kInterrupt, set_process p' (saved_state s st)) /\
      bcp (saved_state s st) = bcp s /\
      slot_at {| slots := <[Z.to_nat (sp s + 1) := bcp s]> (slots st);
                 top := sp s + 1 |} (sp s + 1) = Some (bcp s)) /\
     (grown = true ->
      forall st',
        Process_stack p' = Some st' ->
        top st' = sp s + 1 ->
        slot_at st' (sp s + 1) = Some (bcp s) ->
        exists s',
          Ops.StackOverflowCheck s = Some (DISPATCH, s') /\
          process s' = p' /\
          sp s' = sp s /\
          bcp s' = bcp s + kStackOverflowCheckLength)).
Proof.
  intros Hsize Hst Hi Hnz.
  assert (Hsave : SaveState s = Some (tt, saved_state s st))
    by (unfold saved_state; eapply SaveState_run; eauto).
  split.
  - intros Hroom. unfold Ops.StackOverflowCheck.
    rewrite (bind_run _ _ _ _ _ (ReadInt32_run _ _ _ Hsize)).
    erewrite bind_run; cycle 1.
    { unfold StackOverflowCheck.
      rewrite (bind_run _ _ _ _ _ (HasStackSpaceFor_run _ _)).
      destruct (Z.ltb_spec (sp s + size) (Process_stack_limit (process s)));
        [reflexivity | lia]. }
    reflexivity.
  - intros Hfull grown p' Hgrow.
    assert (Hhead : StackOverflowCheck size s =
      if negb grown then Some (false, set_process p' (saved_state s st))
      else (RestoreState ;; ret true) (set_process p' (saved_state s st))).
    { unfold StackOverflowCheck.
      rewrite (bind_run _ _ _ _ _ (HasStackSpaceFor_run _ _)).
      destruct (Z.ltb_spec (sp s + size) (Process_stack_limit (process s)));
        [lia|].
      rewrite (bind_run _ _ _ _ _ Hsave).
      unfold bind at 1, call_process.
      change (program (saved_state s st)) with (program s).
      rewrite Hgrow. now destruct grown. }
    split.
    + intros ->. split; [|split].
      * unfold Ops.StackOverflowCheck.
        rewrite (bind_run _ _ _ _ _ (ReadInt32_run _ _ _ Hsize)).
        erewrite bind_run by exact Hhead. reflexivity.
      * reflexivity.
      * apply slot_at_saved. exact Hi.
    + intros -> st' Hst' Htop Hslot. eexists. split.
      * unfold Ops.StackOverflowCheck.
        rewrite (bind_run _ _ _ _ _ (ReadInt32_run _ _ _ Hsize)).
        erewrite bind_run; cycle 1.
        { rewrite Hhead. cbn [negb].
          erewrite bind_run; [reflexivity|].
          eapply RestoreState_run; [exact Hst' | rewrite Htop; exact Hslot | exact Hnz]. }
        reflexivity.
      * cbn. rewrite Htop. repeat split; lia.
Qed.

(** X7. [ProcessYield] puts null in place of the value on top of the
    stack, steps over itself and saves the state; it returns
    [kTerminate] when the value was the true object and [kYield] for
    any other value.  Restoring the saved state resumes behind the
    yield with null on top. *)
Theorem ProcessYield_effect (s : State) (st : Stack) (value : Object) :
  Process_stack (process s) = Some st ->
  slot_at st (sp s) = Some value ->
  0 <= sp s + 1 < Z.of_nat (length (slots st)) ->
  bcp s + kProcessYieldLength <> 0 ->
  exists s1 s2,
    Ops.ProcessYield s
      = Some (Return_ (if value =? true_object (program s)
                       then kTerminate else kYield), s1) /\
    RestoreState s1 = Some (tt, s2) /\
    sp s2 = sp s /\
    bcp s2 = bcp s + kProcessYieldLength /\
    Top s2 = Some (null_object (program s), s2) /\
    exists st',
      Process_stack (process s2) = Some st' /\
      same_operands (sp s - 1) st st'.
Proof.
  intros Hst Hv Hi Hnz.
  assert (Hb := slot_at_bound _ _ _ Hv).
  set (null := null_object (program s)).
  set (st1 := upd st (sp s) null).
  set (s0 := set_bcp (bcp s + kProcessYieldLength) (put_stack st1 s)).
  assert (Hst0 : Process_stack (process s0) = Some st1)
    by (subst s0; simpl; eapply Process_stack_set; eauto).
  assert (Hlen : length (slots st1) = length (slots st))
    by (subst st1; cbn [slots upd]; apply length_insert).
  set (saved := {| slots := <[Z.to_nat (sp s + 1) := bcp s0]> (slots st1);
                   top := sp s + 1 |}).
  assert (Hsave : SaveState s0 = Some (tt, put_stack saved (set_sp (sp s + 1) s0))).
  { subst saved. erewrite SaveState_run by (eauto; rewrite Hlen; exact Hi).
    reflexivity. }
  assert (Hsaved : Process_stack (process (put_stack saved (set_sp (sp s + 1) s0)))
                   = Some saved)
    by (eapply Process_stack_put; simpl; exact Hst0).
  eexists _, _. split.
  { unfold Ops.ProcessYield.
    erewrite bind_run
      by (eapply Local_run; [exact Hst | rewrite Z.sub_0_r; exact Hv]).
    rewrite get_run.
    erewrite bind_run; cycle 1.
    { unfold SetTop. eapply SetLocal_run; [exact Hst | rewrite Z.sub_0_r; exact Hb]. }
    rewrite Z.sub_0_r. erewrite bind_run by reflexivity.
    fold null st1 s0. rewrite (bind_run _ _ _ _ _ Hsave). reflexivity. }
  split.
  { eapply RestoreState_run; [exact Hsaved| |exact Hnz].
    subst saved. apply slot_at_saved. rewrite Hlen. exact Hi. }
  cbn [sp bcp set_bcp set_sp put_stack set_process top saved].
  split; [lia|]. split; [reflexivity|].
  assert (Hfinal : Process_stack
            (process (set_bcp (bcp s0)
               (set_sp (sp s + 1 - 1) (put_stack saved (set_sp (sp s + 1) s0)))))
          = Some saved) by exact Hsaved.
  split.
  { unfold Top. eapply Local_run; [exact Hfinal|].
    cbn [sp set_bcp set_sp]. subst saved. unfold slot_at. cbn [slots].
    rewrite decide_True by lia.
    rewrite list_lookup_insert_ne by lia.
    subst st1. cbn [slots upd].
    replace (sp s + 1 - 1 - 0) with (sp s) by lia.
    apply list_lookup_insert_eq. lia. }
  exists saved. split; [exact Hfinal|].
  subst saved st1. split; cbn [slots upd].
  - now rewrite !length_insert.
  - intros i Hle. unfold slot_at. cbn [slots].
    destruct (decide (0 <= i)); [|reflexivity].
    rewrite !list_lookup_insert_ne by lia. reflexivity.
Qed.

End Surrender.

(** ** Switching coroutines *)

Section Coroutines.

Context {object_model : ObjectModel} {selectors : Selectors}
        {bytecodes : Bytecodes} {heap_ : Heap} {natives : Natives}
        {stack_walker : StackWalker} {method_lookup : MethodLookup}
        {more_bytecodes : MoreBytecodes} {tables : Tables}.

(** The stack a coroutine is left with when it hands over: null in the
    two operand slots, the bytecode pointer above them. *)
Lemma suspended_slots (st : Stack) (sp_ bcp_ null : Z) :
  0 <= sp_ - 1 -> sp_ + 1 < Z.of_nat (length (slots st)) ->
  let st' := {| slots := <[Z.to_nat (sp_ + 1) := bcp_]>
                           (slots (upd (upd st sp_ null) (sp_ - 1) null));
                top := sp_ + 1 |} in
  slot_at st' (sp_ + 1) = Some bcp_ /\
  slot_at st' sp_ = Some null /\
  slot_at st' (sp_ - 1) = Some null /\
  length (slots st') = length (slots st) /\
  forall i, i < sp_ - 1 -> slot_at st' i = slot_at st i.
Proof.
  intros Hlo Hhi st'. subst st'. unfold slot_at, upd. cbn [slots top].
  rewrite !length_insert.
  repeat split.
  - rewrite decide_True by lia. apply list_lookup_insert_eq.
    rewrite !length_insert. lia.
  - rewrite decide_True by lia. rewrite list_lookup_insert_ne by lia.
    rewrite list_lookup_insert_ne by lia.
    apply list_lookup_insert_eq. lia.
  - rewrite decide_True by lia. rewrite list_lookup_insert_ne by lia.
    apply list_lookup_insert_eq. rewrite length_insert. lia.
  - intros i Hi. destruct (decide (0 <= i)); [|reflexivity].
    rewrite !list_lookup_insert_ne by lia. reflexivity.
Qed.

Lemma put_stack_set_sp st1 st2 n s :
  put_stack st2 (set_sp n (put_stack st1 s)) = put_stack st2 (set_sp n s).
Proof.
  unfold put_stack, set_process, set_sp. simpl.
  now rewrite Process_set_stack_twice.
Qed.

Ltac norm :=
  cbn [program process sp bcp yield_target put_stack set_process set_sp set_bcp];
  rewrite ?Process_set_stack_twice.

Lemma CoroutineChange_run (s : State) (stA stB : Stack)
      (argument target_ b : Z) (callerA callerB : option Z) :
  heap (process s) !! coroutine (process s) = Some (HCoroutine (Some stA) callerA) ->
  slot_at stA (sp s) = Some argument ->
  slot_at stA (sp s - 1) = Some target_ ->
  sp s + 1 < Z.of_nat (length (slots stA)) ->
  target_ <> coroutine (process s) ->
  heap (process s) !! target_ = Some (HCoroutine (Some stB) callerB) ->
  slot_at stB (top stB) = Some b ->
  b <> 0 ->
  0 <= top stB - 2 ->
  exists s',
    Ops.CoroutineChange s = Some (DISPATCH, s') /\
    program s' = program s /\
    coroutine (process s') = target_ /\
    bcp s' = b + kCoroutineChangeLength /\
    sp s' = top stB - 2 /\
    heap (process s') !! target_
      = Some (HCoroutine (Some (upd stB (top stB - 2) argument)) callerB) /\
    heap (process s') !! coroutine (process s)
      = Some (HCoroutine
                (Some {| slots := <[Z.to_nat (sp s + 1) := bcp s]>
                                    (slots (upd (upd stA (sp s) (null_object (program s)))
                                                (sp s - 1) (null_object (program s))));
                         top := sp s + 1 |})
                callerA) /\
    forall o, o <> coroutine (process s) -> o <> target_ ->
              heap (process s') !! o = heap (process s) !! o.
Proof.
  intros HA Harg Htarget Hroom Hne HB Hb Hnz Hdeep.
  assert (Hst : Process_stack (process s) = Some stA)
    by (unfold Process_stack; now rewrite HA).
  assert (Hi0 := slot_at_bound _ _ _ Harg).
  assert (Hi1 := slot_at_bound _ _ _ Htarget).
  assert (HiB := slot_at_bound _ _ _ Hb).
  set (null := null_object (program s)).
  set (st1 := upd stA (sp s) null).
  set (st2 := upd st1 (sp s - 1) null).
  set (saved := {| slots := <[Z.to_nat (sp s + 1) := bcp s]> (slots st2);
                   top := sp s + 1 |}).
  assert (Hlen2 : length (slots st2) = length (slots stA))
    by (subst st2 st1; cbn [slots upd]; now rewrite !length_insert).
  set (pA := Process_set_stack saved (process s)).
  assert (HpA : heap pA = <[coroutine (process s) := HCoroutine (Some saved) callerA]>
                            (heap (process s)) /\
                coroutine pA = coroutine (process s)).
  { subst pA. unfold Process_set_stack. rewrite HA. split; reflexivity. }
  destruct HpA as [HheapA HcoA].
  set (pB := Process_UpdateCoroutine target_ pA).
  assert (HstB : Process_stack pB = Some stB).
  { subst pB. unfold Process_stack, Process_UpdateCoroutine.
    cbn [heap coroutine set_coroutine]. rewrite HheapA.
    rewrite lookup_insert_ne by congruence. now rewrite HB. }
  set (stB' := upd stB (top stB - 2) argument).
  eexists. split.
  { unfold Ops.CoroutineChange.
    erewrite bind_run
      by (eapply Local_run; [exact Hst | rewrite Z.sub_0_r; exact Harg]).
    rewrite get_run.
    erewrite bind_run
      by (eapply SetLocal_run; [exact Hst | rewrite Z.sub_0_r; exact Hi0]).
    rewrite Z.sub_0_r. fold null st1.
    erewrite bind_run; cycle 1.
    { eapply Local_run; [eapply Process_stack_put; exact Hst|].
      norm. subst st1.
      rewrite slot_at_upd_ne by lia. exact Htarget. }
    erewrite bind_run; cycle 1.
    { eapply SetLocal_run; [eapply Process_stack_put; exact Hst|].
      norm. subst st1. cbn [slots upd].
      rewrite length_insert. exact Hi1. }
    rewrite put_stack_twice.
    change (sp (put_stack st1 s)) with (sp s). fold st2.
    erewrite bind_run; cycle 1.
    { eapply SaveState_run; [eapply Process_stack_put; exact Hst|].
      norm. rewrite Hlen2. lia. }
    rewrite put_stack_set_sp.
    change (sp (put_stack st2 s)) with (sp s).
    change (bcp (put_stack st2 s)) with (bcp s). fold saved.
    erewrite bind_run by reflexivity.
    change (process (put_stack saved (set_sp (sp s + 1) s))) with pA.
    fold pB.
    erewrite bind_run; cycle 1.
    { eapply RestoreState_run; [exact HstB | exact Hb | exact Hnz]. }
    erewrite bind_run by reflexivity.
    erewrite bind_run by reflexivity.
    erewrite bind_run; cycle 1.
    { unfold SetTop. eapply SetLocal_run; [exact HstB|].
      cbn [sp set_sp set_bcp]. lia. }
    reflexivity. }
  cbn [program process sp bcp put_stack set_process set_sp set_bcp].
  replace (top stB - 1 - 1 - 0) with (top stB - 2) by lia.
  fold stB'.
  assert (HheapB : heap (Process_set_stack stB' pB)
                   = <[target_ := HCoroutine (Some stB') callerB]> (heap pA)).
  { unfold Process_set_stack. subst pB. unfold Process_UpdateCoroutine.
    cbn [heap coroutine set_coroutine]. rewrite HheapA.
    rewrite lookup_insert_ne by congruence. rewrite HB. cbn [heap set_heap].
    reflexivity. }
  split; [reflexivity|].
  split.
  { unfold Process_set_stack.
    destruct (heap pB !! coroutine pB) as [[]|]; reflexivity. }
  split; [reflexivity|]. split; [lia|].
  rewrite HheapB, HheapA.
  split; [apply lookup_insert_eq|].
  split.
  { rewrite lookup_insert_ne by exact Hne. apply lookup_insert_eq. }
  intros o HoA HoB.
  rewrite lookup_insert_ne by congruence.
  now rewrite lookup_insert_ne by congruence.
Qed.

(** X8. [CoroutineChange] from coroutine A to a coroutine B suspended at
    bytecode [b]: A is left with null in its two operand slots and its
    bytecode pointer saved above them; the process runs B behind the
    change that suspended it, with the argument in place of B's two
    operands; no other object is touched.  When B later changes back to
    A with an argument, A resumes behind its own [CoroutineChange] with
    that argument in place of its two operands and every slot below
    them as it was. *)
Theorem CoroutineChange_round_trip (s : State) (stA stB : Stack)
        (argument B b : Z) (callerA callerB : option Z) :
  let A := coroutine (process s) in
  heap (process s) !! A = Some (HCoroutine (Some stA) callerA) ->
  slot_at stA (sp s) = Some argument ->
  slot_at stA (sp s - 1) = Some B ->
  sp s + 1 < Z.of_nat (length (slots stA)) ->
  B <> A ->
  heap (process s) !! B = Some (HCoroutine (Some stB) callerB) ->
  slot_at stB (top stB) = Some b ->
  b <> 0 ->
  0 <= top stB - 2 ->
  bcp s <> 0 ->
  exists s1 stA1,
    Ops.CoroutineChange s = Some (DISPATCH, s1) /\
    coroutine (process s1) = B /\
    bcp s1 = b + kCoroutineChangeLength /\
    sp s1 = top stB - 2 /\
    Process_stack (process s1) = Some (upd stB (top stB - 2) argument) /\
    heap (process s1) !! A = Some (HCoroutine (Some stA1) callerA) /\
    slot_at stA1 (sp s) = Some (null_object (program s)) /\
    slot_at stA1 (sp s - 1) = Some (null_object (program s)) /\
    (forall o, o <> A -> o <> B -> heap (process s1) !! o = heap (process s) !! o) /\
    forall (t : State) (st : Stack) (answer : Z) (caller : option Z),
      program t = program s ->
      coroutine (process t) = B ->
      heap (process t) !! B = Some (HCoroutine (Some st) caller) ->
      slot_at st (sp t) = Some answer ->
      slot_at st (sp t - 1) = Some A ->
      sp t + 1 < Z.of_nat (length (slots st)) ->
      heap (process t) !! A = heap (process s1) !! A ->
      exists t' stA2,
        Ops.CoroutineChange t = Some (DISPATCH, t') /\
        coroutine (process t') = A /\
        bcp t' = bcp s + kCoroutineChangeLength /\
        sp t' = sp s - 1 /\
        Process_stack (process t') = Some stA2 /\
        slot_at stA2 (sp s - 1) = Some answer /\
        forall i, i < sp s - 1 -> slot_at stA2 i = slot_at stA i.
Proof.
  intros A HA Harg HB_ Hroom Hne HB Hb Hnz Hdeep Hbcp.
  assert (Hi1 := slot_at_bound _ _ _ HB_).
  destruct (suspended_slots stA (sp s) (bcp s) (null_object (program s)))
    as (Hsaved & Hnull0 & Hnull1 & Hlen & Hbelow); [lia | exact Hroom |].
  destruct (CoroutineChange_run s stA stB argument B b callerA callerB)
    as (s1 & Hrun & Hprog & Hco & Hbcp1 & Hsp1 & HheapB & HheapA & Hframe); auto.
  fold A in HheapA, Hframe.
  set (stA1 := {| slots := <[Z.to_nat (sp s + 1) := bcp s]>
                             (slots (upd (upd stA (sp s) (null_object (program s)))
                                         (sp s - 1) (null_object (program s))));
                  top := sp s + 1 |}) in *.
  exists s1, stA1.
  split; [exact Hrun|]. split; [exact Hco|]. split; [exact Hbcp1|].
  split; [exact Hsp1|].
  split; [unfold Process_stack; now rewrite Hco, HheapB|].
  split; [exact HheapA|]. split; [exact Hnull0|]. split; [exact Hnull1|].
  split; [exact Hframe|].
  intros t st answer caller Hprogt Hcot HtB Hans HtA Hroomt Hsame.
  rewrite HheapA in Hsame.
  destruct (CoroutineChange_run t st stA1 answer A (bcp s) caller callerA)
    as (t' & Hrun' & _ & Hco' & Hbcp' & Hsp' & HheapA' & _);
    rewrite ?Hcot; subst stA1; cbn [top]; auto; try lia.
  exists t'. eexists.
  split; [exact Hrun'|]. split; [exact Hco'|]. split; [exact Hbcp'|].
  cbn [top] in Hsp', HheapA'.
  split; [lia|].
  split; [unfold Process_stack; now rewrite Hco', HheapA'|].
  replace (sp s + 1 - 2) with (sp s - 1) by lia.
  split.
  - apply slot_at_upd_eq. rewrite Hlen. lia.
  - intros i Hi. rewrite slot_at_upd_ne by lia. now apply Hbelow.
Qed.

End Coroutines.

(** ** Static calls and their return *)

Section StaticCalls.

Context {object_model : ObjectModel} {selectors : Selectors}
        {bytecodes : Bytecodes} {heap_ : Heap} {natives : Natives}
        {stack_walker : StackWalker} {method_lookup : MethodLookup}
        {more_bytecodes : MoreBytecodes} {tables : Tables}.

Ltac peel Hall lemma :=
  let Hstep := fresh "Hstep" in
  let Heq := fresh "Heq" in
  apply bind_inv in Hall as (? & ? & Hstep & Hall);
  assert (Heq := Hstep); apply lemma in Heq; subst;
  rewrite (bind_run _ _ _ _ _ Hstep).

(** The tail shared by the invokes once the target is known, when the
    stack has room. *)
Lemma call_run (s : State) (st : Stack) (offset target_ arity bytecode : Z) :
  Process_stack (process s) = Some st ->
  0 <= sp s + 1 < Z.of_nat (length (slots st)) ->
  object_at (program s) (process s) target_ = Some (HFunction arity bytecode) ->
  bytecode <> 0 ->
  sp s + 1 < Process_stack_limit
               (Process_set_stack (upd st (sp s + 1) (bcp s + offset)) (process s)) ->
  (PushReturnAddress offset ;;
   address <- bytecode_address_for target_ 0 ;;
   Goto address ;;
   ok <- StackOverflowCheck 0 ;;
   if negb ok then ret (Return_ kInterrupt) else ret DISPATCH) s
  = Some (DISPATCH,
          set_bcp bytecode
            (put_stack (upd st (sp s + 1) (bcp s + offset)) (set_sp (sp s + 1) s))).
Proof.
  intros Hst Hi Hfun Hnz Hroom.
  erewrite bind_run; cycle 1.
  { unfold PushReturnAddress, ComputeReturnAddress.
    erewrite bind_run by reflexivity. eapply Push_run; eauto. }
  erewrite bind_run; cycle 1.
  { unfold bytecode_address_for. rewrite get_run.
    cbn [program process put_stack set_process set_sp].
    erewrite object_at_set_stack by (eauto; discriminate).
    reflexivity. }
  rewrite Z.add_0_r.
  erewrite bind_run by (apply Goto_run; exact Hnz).
  erewrite bind_run; cycle 1.
  { unfold StackOverflowCheck.
    rewrite (bind_run _ _ _ _ _ (HasStackSpaceFor_run _ _)).
    cbn [sp process set_bcp put_stack set_process set_sp].
    destruct (Z.ltb_spec (sp s + 1 + 0)
                (Process_stack_limit
                   (Process_set_stack (upd st (sp s + 1) (bcp s + offset)) (process s))));
      [reflexivity|].
    lia. }
  reflexivity.
Qed.

(** X9. Each of [InvokeStatic], [InvokeFactory], [InvokeStaticUnfold]
    and [InvokeFactoryUnfold] pushes the address [kInvokeStaticLength]
    behind itself and, the stack having room, enters its target at the
    function's first bytecode, leaving the operands alone.  A [Return locals args] in the
    callee that finds this return address under its [locals] slots
    comes back to exactly that address with the [args] arguments
    replaced by the result. *)
Theorem static_call_and_return (opcode : MoreOpcode) (s : State) (st : Stack)
        (target_ arity bytecode : Z) :
  static_target opcode s = Some (target_, s) ->
  object_at (program s) (process s) target_ = Some (HFunction arity bytecode) ->
  bytecode <> 0 ->
  Process_stack (process s) = Some st ->
  0 <= sp s + 1 < Z.of_nat (length (slots st)) ->
  sp s + 1 < Process_stack_limit
               (Process_set_stack (upd st (sp s + 1) (bcp s + kInvokeStaticLength))
                                  (process s)) ->
  exists s1 st1,
    execute_more opcode s = Some (DISPATCH, s1) /\
    bcp s1 = bytecode /\
    sp s1 = sp s + 1 /\
    Process_stack (process s1) = Some st1 /\
    slot_at st1 (sp s1) = Some (bcp s + kInvokeStaticLength) /\
    same_operands (sp s) st st1 /\
    forall (t : State) (stt : Stack) (locals args result : Z),
      byte_at (program t) (bcp t + 1) = Some locals ->
      byte_at (program t) (bcp t + 2) = Some args ->
      Process_stack (process t) = Some stt ->
      sp t = sp s1 + locals ->
      slot_at stt (sp t) = Some result ->
      slot_at stt (sp s1) = Some (bcp s + kInvokeStaticLength) ->
      bcp s + kInvokeStaticLength <> 0 ->
      0 <= args <= sp s + 1 ->
      length (slots stt) = length (slots st) ->
      exists t',
        Op.Return t = Some (DISPATCH, t') /\
        bcp t' = bcp s + kInvokeStaticLength /\
        sp t' = sp s - args + 1 /\
        Top t' = Some (result, t').
Proof.
  intros Htarget Hfun Hnz Hst Hi Hroom.
  set (st1 := upd st (sp s + 1) (bcp s + kInvokeStaticLength)).
  set (s1 := set_bcp bytecode (put_stack st1 (set_sp (sp s + 1) s))).
  assert (Hcall : execute_more opcode s = Some (DISPATCH, s1)).
  { pose proof (call_run s st kInvokeStaticLength target_ arity bytecode
                         Hst Hi Hfun Hnz Hroom) as Htail.
    destruct opcode; try discriminate; cbn [execute_more static_target] in *.
    - unfold Ops.InvokeStatic.
      peel Htarget reads_ReadInt32. rewrite get_run in Htarget. rewrite get_run.
      unfold lift in Htarget.
      destruct (static_method_at (program s) x) as [f|] eqn:Hm; [|discriminate].
      injection Htarget as ->. unfold lift at 1, bind at 1. exact Htail.
    - unfold Ops.InvokeFactory, Ops.InvokeStatic.
      peel Htarget reads_ReadInt32. rewrite get_run in Htarget. rewrite get_run.
      unfold lift in Htarget.
      destruct (static_method_at (program s) x) as [f|] eqn:Hm; [|discriminate].
      injection Htarget as ->. unfold lift at 1, bind at 1. exact Htail.
    - unfold Ops.InvokeStaticUnfold.
      rewrite (bind_run _ _ _ _ _ Htarget). exact Htail.
    - unfold Ops.InvokeFactoryUnfold, Ops.InvokeStaticUnfold.
      rewrite (bind_run _ _ _ _ _ Htarget). exact Htail. }
  exists s1, st1. split; [exact Hcall|].
  split; [reflexivity|]. split; [reflexivity|].
  split; [subst s1; simpl; eapply Process_stack_set; eauto|].
  split; [subst s1 st1; simpl; apply slot_at_upd_eq; exact Hi|].
  split.
  { subst st1. split; cbn [slots upd].
    - apply length_insert.
    - intros i Hle. apply slot_at_upd_ne; lia. }
  intros t stt locals args result Hl Ha Hstt Hsp Hres Hra Hranz Hdeep Hlen.
  change (sp s1) with (sp s + 1) in Hsp, Hra.
  assert (Hra' : slot_at stt (sp t - locals) = Some (bcp s + kInvokeStaticLength))
    by (replace (sp t - locals) with (sp s + 1) by lia; exact Hra).
  eexists. split.
  { unfold Op.Return.
    rewrite (bind_run _ _ _ _ _ (ReadByte_run _ _ _ Hl)).
    rewrite (bind_run _ _ _ _ _ (ReadByte_run _ _ _ Ha)).
    erewrite bind_run
      by (eapply Local_run; [exact Hstt | rewrite Z.sub_0_r; exact Hres]).
    erewrite bind_run by reflexivity.
    unfold PopReturnAddress.
    erewrite bind_run; cycle 1.
    { erewrite bind_run by (eapply Pop_run; simpl; eauto).
      apply Goto_run, Hranz. }
    erewrite bind_run by reflexivity.
    erewrite bind_run; cycle 1.
    { eapply Push_run; simpl; eauto. rewrite Hlen. lia. }
    reflexivity. }
  cbn [sp bcp set_bcp put_stack set_process set_sp].
  split; [reflexivity|]. split; [lia|].
  unfold Top. eapply Local_run.
  - cbn [process set_bcp put_stack set_process set_sp].
    eapply Process_stack_set; eauto.
  - cbn [sp set_bcp put_stack set_process set_sp].
    rewrite Z.sub_0_r. apply slot_at_upd_eq. rewrite Hlen. lia.
Qed.

End StaticCalls.

(** ** Statics and conditional branches *)

Section StaticsAndBranches.

Context {object_model : ObjectModel} {selectors : Selectors}
        {bytecodes : Bytecodes} {heap_ : Heap} {natives : Natives}
        {stack_walker : StackWalker} {method_lookup : MethodLookup}
        {more_bytecodes : MoreBytecodes} {tables : Tables}.

Lemma return_to_caller (t : State) (stt : Stack) (locals args result ra : Z) :
  byte_at (program t) (bcp t + 1) = Some locals ->
  byte_at (program t) (bcp t + 2) = Some args ->
  Process_stack (process t) = Some stt ->
  slot_at stt (sp t) = Some result ->
  slot_at stt (sp t - locals) = Some ra ->
  ra <> 0 ->
  0 <= sp t - locals - 1 - args + 1 < Z.of_nat (length (slots stt)) ->
  exists t',
    Op.Return t = Some (DISPATCH, t') /\
    bcp t' = ra /\
    sp t' = sp t - locals - args /\
    Top t' = Some (result, t').
Proof.
  intros Hl Ha Hstt Hres Hra Hnz Hrange.
  eexists. split.
  { unfold Op.Return.
    rewrite (bind_run _ _ _ _ _ (ReadByte_run _ _ _ Hl)).
    rewrite (bind_run _ _ _ _ _ (ReadByte_run _ _ _ Ha)).
    erewrite bind_run
      by (eapply Local_run; [exact Hstt | rewrite Z.sub_0_r; exact Hres]).
    erewrite bind_run by reflexivity.
    unfold PopReturnAddress.
    erewrite bind_run; cycle 1.
    { erewrite bind_run by (eapply Pop_run; simpl; eauto).
      apply Goto_run, Hnz. }
    erewrite bind_run by reflexivity.
    erewrite bind_run; cycle 1.
    { eapply Push_run; simpl; eauto. }
    reflexivity. }
  cbn [sp bcp set_bcp put_stack set_process set_sp].
  split; [reflexivity|]. split; [lia|].
  unfold Top. eapply Local_run.
  - cbn [process set_bcp put_stack set_process set_sp].
    eapply Process_stack_set; eauto.
  - cbn [sp set_bcp put_stack set_process set_sp].
    rewrite Z.sub_0_r. apply slot_at_upd_eq. exact Hrange.
Qed.

Lemma statics_get_run (s : State) (elements : list Z) (index value : Z) :
  heap (process s) !! Process_statics (process s) = Some (HArray elements) ->
  Array_get elements index = Some value ->
  statics_get index s = Some (value, s).
Proof.
  intros Hstatics Hvalue. unfold statics_get. rewrite get_run, Hstatics.
  unfold lift. now rewrite Hvalue.
Qed.

(** X10. [StoreStatic i] writes the value on top of the stack into static
    [i] without moving the stack pointer and leaves every other static
    as it was; a [LoadStatic i] right after it pushes that very value. *)
Theorem StoreStatic_LoadStatic (s : State) (st : Stack)
        (index value : Z) (elements : list Z) :
  Utils_ReadInt32 (program s) (bcp s + 1) = Some index ->
  Utils_ReadInt32 (program s) (bcp s + kStoreStaticLength + 1) = Some index ->
  Process_stack (process s) = Some st ->
  slot_at st (sp s) = Some value ->
  heap (process s) !! Process_statics (process s) = Some (HArray elements) ->
  0 <= index < Z.of_nat (length elements) ->
  (forall h, Process_statics (set_heap h (process s)) = Process_statics (process s)) ->
  0 <= sp s + 1 < Z.of_nat (length (slots st)) ->
  exists s1 s2,
    Ops.StoreStatic s = Some (DISPATCH, s1) /\
    sp s1 = sp s /\
    Process_stack (process s1) = Some st /\
    heap (process s1) !! Process_statics (process s)
      = Some (HArray (<[Z.to_nat index := value]> elements)) /\
    (forall j, j <> index ->
       Array_get (<[Z.to_nat index := value]> elements) j = Array_get elements j) /\
    Ops.LoadStatic s1 = Some (DISPATCH, s2) /\
    sp s2 = sp s + 1 /\
    bcp s2 = bcp s + kStoreStaticLength + kLoadStaticLength /\
    Top s2 = Some (value, s2).
Proof.
  intros Hb Hb' Hst Hv Hstatics Hindex Hframe Hi.
  set (statics := Process_statics (process s)) in *.
  assert (Hne : statics <> coroutine (process s))
    by (eapply not_the_coroutine; eauto; discriminate).
  set (p1 := set_heap (<[statics := HArray (<[Z.to_nat index := value]> elements)]>
                         (heap (process s))) (process s)).
  set (s1 := set_bcp (bcp s + kStoreStaticLength) (set_process p1 s)).
  assert (Hst1 : Process_stack (process s1) = Some st).
  { subst s1 p1. cbn [process set_bcp set_process].
    rewrite Process_stack_set_heap_ne by exact Hne. exact Hst. }
  assert (Hnew : heap (process s1) !! statics
                 = Some (HArray (<[Z.to_nat index := value]> elements)))
    by (subst s1 p1; cbn; apply lookup_insert_eq).
  assert (Hsame : Process_statics (process s1) = statics)
    by (subst s1 p1; cbn [process set_bcp set_process]; apply Hframe).
  exists s1. eexists. split.
  { unfold Ops.StoreStatic.
    rewrite (bind_run _ _ _ _ _ (ReadInt32_run _ _ _ Hb)).
    erewrite bind_run
      by (eapply Local_run; [exact Hst | rewrite Z.sub_0_r; exact Hv]).
    unfold statics_set, bind at 1. fold statics. rewrite Hstatics.
    rewrite decide_True by exact Hindex. reflexivity. }
  split; [reflexivity|]. split; [exact Hst1|]. split; [exact Hnew|].
  split.
  { intros j Hj. unfold Array_get. destruct (decide (0 <= j)); [|reflexivity].
    apply list_lookup_insert_ne. lia. }
  split.
  { unfold Ops.LoadStatic.
    erewrite bind_run by (apply ReadInt32_run; exact Hb').
    erewrite bind_run; cycle 1.
    { eapply statics_get_run; [rewrite Hsame; exact Hnew|].
      unfold Array_get. rewrite decide_True by lia.
      apply list_lookup_insert_eq. lia. }
    erewrite bind_run by (eapply Push_run; [exact Hst1 | exact Hi]).
    reflexivity. }
  split; [reflexivity|]. split; [reflexivity|].
  unfold Top. eapply Local_run.
  - cbn [process set_bcp put_stack set_process set_sp].
    eapply Process_stack_set. exact Hst1.
  - simpl. rewrite Z.sub_0_r. apply slot_at_upd_eq. exact Hi.
Qed.

(** X11. [LoadStaticInit i] on a static that holds a plain value pushes
    the value and steps over itself.  On a static that holds an
    initializer it calls, the stack having room, the function of the
    initializer, leaving the address behind itself as return address; when that function returns
    a result with no arguments to drop, execution is behind the
    [LoadStaticInit] with the result pushed, just where the value would
    have been. *)
Theorem LoadStaticInit_cases (s : State) (st : Stack) (index value : Z)
        (elements : list Z) :
  Utils_ReadInt32 (program s) (bcp s + 1) = Some index ->
  heap (process s) !! Process_statics (process s) = Some (HArray elements) ->
  Array_get elements index = Some value ->
  Process_stack (process s) = Some st ->
  0 <= sp s + 1 < Z.of_nat (length (slots st)) ->
  (Initializer_function (program s) (process s) value = None ->
   exists s1,
     Ops.LoadStaticInit s = Some (DISPATCH, s1) /\
     sp s1 = sp s + 1 /\
     bcp s1 = bcp s + kLoadStaticInitLength /\
     Top s1 = Some (value, s1)) /\
  (forall target_ arity bytecode,
     Initializer_function (program s) (process s) value = Some target_ ->
     object_at (program s) (process s) target_ = Some (HFunction arity bytecode) ->
     bytecode <> 0 ->
     sp s + 1 < Process_stack_limit
                  (Process_set_stack
                     (upd st (sp s + 1) (bcp s + kLoadStaticInitLength)) (process s)) ->
     exists s1 st1,
       Ops.LoadStaticInit s = Some (DISPATCH, s1) /\
       bcp s1 = bytecode /\
       sp s1 = sp s + 1 /\
       Process_stack (process s1) = Some st1 /\
       slot_at st1 (sp s1) = Some (bcp s + kLoadStaticInitLength) /\
       same_operands (sp s) st st1 /\
       forall (t : State) (stt : Stack) (locals result : Z),
         byte_at (program t) (bcp t + 1) = Some locals ->
         byte_at (program t) (bcp t + 2) = Some 0 ->
         Process_stack (process t) = Some stt ->
         sp t = sp s1 + locals ->
         slot_at stt (sp t) = Some result ->
         slot_at stt (sp s1) = Some (bcp s + kLoadStaticInitLength) ->
         bcp s + kLoadStaticInitLength <> 0 ->
         length (slots stt) = length (slots st) ->
         exists t',
           Op.Return t = Some (DISPATCH, t') /\
           bcp t' = bcp s + kLoadStaticInitLength /\
           sp t' = sp s + 1 /\
           Top t' = Some (result, t')).
Proof.
  intros Hb Hstatics Hvalue Hst Hi.
  assert (Hget := statics_get_run s elements index value Hstatics Hvalue).
  split.
  - intros Hplain. eexists. split.
    { unfold Ops.LoadStaticInit.
      rewrite (bind_run _ _ _ _ _ (ReadInt32_run _ _ _ Hb)).
      rewrite (bind_run _ _ _ _ _ Hget). rewrite get_run, Hplain.
      erewrite bind_run by (eapply Push_run; [exact Hst | exact Hi]).
      reflexivity. }
    split; [reflexivity|]. split; [reflexivity|].
    unfold Top. eapply Local_run.
    + cbn [process set_bcp put_stack set_process set_sp].
      eapply Process_stack_set. exact Hst.
    + simpl. rewrite Z.sub_0_r. apply slot_at_upd_eq. exact Hi.
  - intros target_ arity bytecode Hinit Hfun Hnz Hroom.
    set (st1 := upd st (sp s + 1) (bcp s + kLoadStaticInitLength)).
    set (s1 := set_bcp bytecode (put_stack st1 (set_sp (sp s + 1) s))).
    exists s1, st1. split.
    { unfold Ops.LoadStaticInit.
      rewrite (bind_run _ _ _ _ _ (ReadInt32_run _ _ _ Hb)).
      rewrite (bind_run _ _ _ _ _ Hget). rewrite get_run, Hinit.
      exact (call_run s st kLoadStaticInitLength target_ arity bytecode
                      Hst Hi Hfun Hnz Hroom). }
    split; [reflexivity|]. split; [reflexivity|].
    split; [subst s1; simpl; eapply Process_stack_set; eauto|].
    split; [subst s1 st1; simpl; apply slot_at_upd_eq; exact Hi|].
    split.
    { subst st1. split; cbn [slots upd].
      - apply length_insert.
      - intros i Hle. apply slot_at_upd_ne; lia. }
    intros t stt locals result Hl Ha Hstt Hsp Hres Hra Hranz Hlen.
    change (sp s1) with (sp s + 1) in Hsp, Hra.
    destruct (return_to_caller t stt locals 0 result
                               (bcp s + kLoadStaticInitLength))
      as (t' & Hrun & Hbcp & Hsp' & Htop); auto.
    + replace (sp t - locals) with (sp s + 1) by lia. exact Hra.
    + rewrite Hlen. lia.
    + exists t'. split; [exact Hrun|]. split; [exact Hbcp|].
      split; [lia | exact Htop].
Qed.

Lemma Branch_run (s : State) (st : Stack) (condition true_offset false_offset : Z) :
  Process_stack (process s) = Some st ->
  slot_at st (sp s) = Some condition ->
  Branch true_offset false_offset s
  = Some (tt, set_bcp (bcp s + (if decide (condition = true_object (program s))
                                then true_offset else false_offset))
                      (set_sp (sp s - 1) s)).
Proof.
  intros Hst Hc. unfold Branch.
  erewrite bind_run by (eapply Pop_run; eauto).
  reflexivity.
Qed.

Lemma StackOverflowCheck_room (s : State) (size : Z) :
  sp s + size < Process_stack_limit (process s) ->
  StackOverflowCheck size s = Some (true, s).
Proof.
  intros Hroom. unfold StackOverflowCheck.
  rewrite (bind_run _ _ _ _ _ (HasStackSpaceFor_run _ _)).
  destruct (Z.ltb_spec (sp s + size) (Process_stack_limit (process s)));
    [reflexivity | lia].
Qed.

(** X12. The conditional branches.  Each pops the condition and nothing
    else, and only the true object counts as true: null, the false
    object and every other value take the other way.  In each pair, for
    one operand and one condition, exactly one of the two opcodes jumps
    by the operand (backwards for the [Back] opcodes) and the other
    falls through; [BranchBackIfFalse] falls through by the length of
    [BranchBackIfTrue].  The [Back] opcodes are taken where the stack
    has room, so that their overflow poll passes. *)
Theorem conditional_branches (s : State) (st : Stack) (condition : Object) :
  Process_stack (process s) = Some st ->
  slot_at st (sp s) = Some condition ->
  let taken := condition =? true_object (program s) in
  let after (offset : Z) :=
    Some (DISPATCH, set_bcp (bcp s + offset) (set_sp (sp s - 1) s)) in
  (forall delta,
     Utils_ReadInt32 (program s) (bcp s + 1) = Some delta ->
     Ops.BranchIfTrueLong s
       = after (if taken then delta else kBranchIfTrueLongLength) /\
     Ops.BranchIfFalseLong s
       = after (if taken then kBranchIfFalseLongLength else delta)) /\
  (sp s < Process_stack_limit (process s) ->
   (forall byte,
      byte_at (program s) (bcp s + 1) = Some byte ->
      Ops.BranchBackIfTrue s
        = after (if taken then - byte else kBranchBackIfTrueLength) /\
      Ops.BranchBackIfFalse s
        = after (if taken then kBranchBackIfTrueLength else - byte)) /\
   (forall delta,
      Utils_ReadInt32 (program s) (bcp s + 1) = Some delta ->
      delta <> - 2 ^ 31 ->
      Ops.BranchBackIfTrueLong s
        = after (if taken then - delta else kBranchBackIfTrueLongLength) /\
      Ops.BranchBackIfFalseLong s
        = after (if taken then kBranchBackIfFalseLongLength else - delta))).
Proof.
  intros Hst Hc taken after.
  assert (Hbranch : forall t f,
    (Branch t f ;; ret DISPATCH) s = after (if taken then t else f)).
  { intros t f. rewrite (bind_run _ _ _ _ _ (Branch_run s st condition t f Hst Hc)).
    subst taken after.
    destruct (Z.eqb_spec condition (true_object (program s)));
      [rewrite decide_True by assumption | rewrite decide_False by assumption];
      reflexivity. }
  split.
  - intros delta Hd. split.
    + unfold Ops.BranchIfTrueLong.
      rewrite (bind_run _ _ _ _ _ (ReadInt32_run _ _ _ Hd)). apply Hbranch.
    + unfold Ops.BranchIfFalseLong.
      rewrite (bind_run _ _ _ _ _ (ReadInt32_run _ _ _ Hd)).
      rewrite Hbranch. now destruct taken.
  - intros Hroom.
    assert (Hcheck : StackOverflowCheck 0 s = Some (true, s))
      by (apply StackOverflowCheck_room; lia).
    split.
    + intros byte Hb. split.
      * unfold Ops.BranchBackIfTrue.
        rewrite (bind_run _ _ _ _ _ Hcheck). cbn [negb].
        rewrite (bind_run _ _ _ _ _ (ReadByte_run _ _ _ Hb)). apply Hbranch.
      * unfold Ops.BranchBackIfFalse.
        rewrite (bind_run _ _ _ _ _ Hcheck). cbn [negb].
        rewrite (bind_run _ _ _ _ _ (ReadByte_run _ _ _ Hb)).
        rewrite Hbranch. now destruct taken.
    + intros delta Hd Hmin. split.
      * unfold Ops.BranchBackIfTrueLong.
        rewrite (bind_run _ _ _ _ _ Hcheck). cbn [negb].
        rewrite (bind_run _ _ _ _ _ (ReadInt32_run _ _ _ Hd)).
        rewrite (bind_run _ _ _ _ _ (negate_run _ _ Hmin)). apply Hbranch.
      * unfold Ops.BranchBackIfFalseLong.
        rewrite (bind_run _ _ _ _ _ Hcheck). cbn [negb].
        rewrite (bind_run _ _ _ _ _ (ReadInt32_run _ _ _ Hd)).
        rewrite (bind_run _ _ _ _ _ (negate_run _ _ Hmin)).
        rewrite Hbranch. now destruct taken.
Qed.

End StaticsAndBranches.

(** ** Allocation that succeeds *)

Section AllocationSuccess.

Context {object_model : ObjectModel} {selectors : Selectors}
        {bytecodes : Bytecodes} {heap_ : Heap} {natives : Natives}
        {stack_walker : StackWalker} {method_lookup : MethodLookup}
        {more_bytecodes : MoreBytecodes} {tables : Tables}.

Ltac peel Hall lemma :=
  let Hstep := fresh "Hstep" in
  let Heq := fresh "Heq" in
  apply bind_inv in Hall as (? & ? & Hstep & Hall);
  assert (Heq := Hstep); apply lemma in Heq; subst;
  rewrite (bind_run _ _ _ _ _ Hstep).

(** The loop that fills the fields: field [i] of the first [k] receives
    the operand [k - 1 - i] slots below the top. *)
Lemma fill_fields_run (instance : Z) (st : Stack) :
  forall (k : nat) (s : State) (fs : list Z),
    Process_stack (process s) = Some st ->
    heap (process s) !! instance = Some (HInstance fs) ->
    (k <= length fs)%nat ->
    Z.of_nat k <= sp s + 1 ->
    sp s < Z.of_nat (length (slots st)) ->
    exists s' fs',
      Op.fill_fields instance k s = Some (tt, s') /\
      sp s' = sp s - Z.of_nat k /\
      bcp s' = bcp s /\
      program s' = program s /\
      Process_stack (process s') = Some st /\
      heap (process s') !! instance = Some (HInstance fs') /\
      length fs' = length fs /\
      (forall i : nat, (i < k)%nat ->
         fs' !! i = slot_at st (sp s - (Z.of_nat k - 1 - Z.of_nat i))) /\
      (forall i : nat, (k <= i)%nat -> fs' !! i = fs !! i).
Proof.
  induction k as [|k IH]; intros s fs Hst Hfs Hk Hdeep Hsp.
  - exists s, fs. cbn [Op.fill_fields]. repeat split; try lia; auto.
  - assert (Hne : instance <> coroutine (process s))
      by (eapply not_the_coroutine; eauto; discriminate).
    assert (Htop : exists v, slot_at st (sp s) = Some v).
    { unfold slot_at. rewrite decide_True by lia.
      apply lookup_lt_is_Some. lia. }
    destruct Htop as [v Hv].
    set (p1 := set_heap (<[instance := HInstance (<[k := v]> fs)]>
                           (heap (process s))) (process s)).
    set (s1 := set_process p1 (set_sp (sp s - 1) s)).
    assert (Hst1 : Process_stack (process s1) = Some st).
    { subst s1 p1. cbn [process set_process].
      rewrite Process_stack_set_heap_ne by exact Hne. exact Hst. }
    destruct (IH s1 (<[k := v]> fs)) as
      (s' & fs' & Hrun & Hsp' & Hbcp' & Hprog' & Hst' & Hfs' & Hlen' & Hlow & Hhigh).
    + exact Hst1.
    + subst s1 p1. cbn. apply lookup_insert_eq.
    + rewrite length_insert. lia.
    + subst s1. cbn [sp set_process set_sp]. lia.
    + subst s1. cbn [sp set_process set_sp]. lia.
    + exists s', fs'. split.
      { cbn [Op.fill_fields].
        erewrite bind_run by (eapply Pop_run; eauto).
        erewrite bind_run; cycle 1.
        { unfold SetInstanceField. cbn [process set_sp]. rewrite Hfs.
          rewrite decide_True by lia. rewrite Nat2Z.id. reflexivity. }
        exact Hrun. }
      subst s1. cbn [sp bcp program set_process set_sp] in *.
      split; [lia|]. split; [exact Hbcp'|]. split; [exact Hprog'|].
      split; [exact Hst'|]. split; [exact Hfs'|].
      split; [now rewrite Hlen', length_insert|].
      split.
      * intros i Hi. destruct (decide (i = k)) as [->|Hik].
        -- rewrite Hhigh by lia. rewrite list_lookup_insert_eq by lia.
           rewrite <- Hv. f_equal. lia.
        -- rewrite Hlow by lia. f_equal. lia.
      * intros i Hi. rewrite Hhigh by lia.
        apply list_lookup_insert_ne. lia.
Qed.

Lemma call_process_inv {A} (f : Program -> Process -> A * Process) s a s1 :
  call_process f s = Some (a, s1) ->
  f (program s) (process s) = (a, process s1) /\ s1 = set_process (process s1) s.
Proof.
  unfold call_process. destruct (f _ _) as [a' p]. intros [= <- <-].
  split; reflexivity.
Qed.

(** X13. When the allocation of [Allocate], [AllocateUnfold],
    [AllocateImmutable] or [AllocateImmutableUnfold] succeeds with a
    fresh instance that has one field per instance field of the class,
    the opcode pops as many operands as the class has fields and stores
    them so that field [i] holds the operand that was pushed [i]-th,
    then pushes the instance and steps over itself: the stack pointer
    moves by [1 - fields]. *)
Theorem allocation_fills_fields (fuel : nat) (opcode : Opcode)
        (s s1 : State) (st : Stack) (klass instance id fields : Z)
        (fresh_fields : list Z) :
  allocated_class opcode s = Some (klass, s) ->
  allocation opcode s = Some (instance, s1) ->
  instance <> Failure_retry_after_gc ->
  object_at (program s) (process s) klass = Some (HClass id fields) ->
  object_at (program s) (process s1) klass = Some (HClass id fields) ->
  heap (process s1) !! instance = Some (HInstance fresh_fields) ->
  Z.of_nat (length fresh_fields) = fields ->
  Process_stack (process s1) = Some st ->
  fields <= sp s + 1 ->
  0 <= sp s + 1 < Z.of_nat (length (slots st)) ->
  exists s' filled,
    execute fuel opcode s = Some (DISPATCH, s') /\
    sp s' = sp s - fields + 1 /\
    bcp s' = bcp s + allocate_length opcode /\
    Top s' = Some (instance, s') /\
    heap (process s') !! instance = Some (HInstance filled) /\
    Z.of_nat (length filled) = fields /\
    forall i, 0 <= i < fields ->
      filled !! Z.to_nat i = slot_at st (sp s - fields + 1 + i).
Proof.
  intros Hklass Hall Hok Hclass Hclass1 Hinst Hlen Hst Hdeep Hi.
  assert (Hne : instance <> coroutine (process s1))
    by (eapply not_the_coroutine; eauto; discriminate).
  assert (Htail : forall len,
    registers_of s s1 ->
    exists s' filled,
      (Op.fill_fields instance (Z.to_nat fields) ;;
       Push instance ;; Advance len ;; ret DISPATCH) s1 = Some (DISPATCH, s') /\
      sp s' = sp s - fields + 1 /\
      bcp s' = bcp s + len /\
      Top s' = Some (instance, s') /\
      heap (process s') !! instance = Some (HInstance filled) /\
      Z.of_nat (length filled) = fields /\
      forall i, 0 <= i < fields ->
        filled !! Z.to_nat i = slot_at st (sp s - fields + 1 + i)).
  { intros len (Hprog & Hsp & Hbcp & _).
    destruct (fill_fields_run instance st (Z.to_nat fields) s1 fresh_fields)
      as (s2 & filled & Hrun & Hsp2 & Hbcp2 & Hprog2 & Hst2 & Hfilled & Hlen2
          & Hlow & _); auto; try lia.
    rewrite Z2Nat.id in Hsp2 by lia.
    eexists _, filled. split.
    { rewrite (bind_run _ _ _ _ _ Hrun).
      erewrite bind_run by (eapply Push_run; [exact Hst2 | lia]).
      reflexivity. }
    cbn [sp bcp process set_bcp put_stack set_process set_sp].
    split; [lia|]. split; [lia|].
    split.
    { unfold Top. eapply Local_run.
      - cbn [process set_bcp put_stack set_process set_sp].
        eapply Process_stack_set; exact Hst2.
      - cbn [sp set_bcp put_stack set_process set_sp].
        rewrite Z.sub_0_r. apply slot_at_upd_eq. lia. }
    split.
    { unfold Process_set_stack.
      destruct (heap (process s2) !! coroutine (process s2)) as [[]|] eqn:Hco;
        try exact Hfilled.
      cbn [heap set_heap]. rewrite lookup_insert_ne; [exact Hfilled|].
      intros Heq. rewrite Heq, Hfilled in Hco. discriminate. }
    split; [lia|].
    intros i Hrange. rewrite Hlow by lia.
    f_equal. rewrite Z2Nat.id by lia. rewrite Z2Nat.id by lia. lia. }
  assert (Hfields : forall (t : State),
    program t = program s ->
    object_at (program s) (process t) klass = Some (HClass id fields) ->
    Class_NumberOfInstanceFields klass t = Some (fields, t)).
  { intros t Hp Ho. unfold Class_NumberOfInstanceFields. rewrite get_run.
    rewrite Hp, Ho. reflexivity. }
  assert (Hnew : forall immutable,
    Op.NewInstance klass immutable s = Some (instance, s1) ->
    registers_of s s1).
  { intros immutable Hcall. unfold Op.NewInstance in Hcall.
    eapply registers_call_process. exact Hcall. }
  assert (Hmacro : forall exp k,
    exp s = Some (instance, s1) ->
    GC_AND_RETRY_ON_ALLOCATION_FAILURE exp k s = k instance s1).
  { intros exp k Hexp. unfold GC_AND_RETRY_ON_ALLOCATION_FAILURE.
    rewrite (bind_run _ _ _ _ _ Hexp). now rewrite decide_False by exact Hok. }
  destruct opcode; try discriminate;
    cbn [allocated_class allocation execute allocate_length] in *.
  - (* Allocate *)
    unfold Op.Allocate.
    peel Hklass reads_ReadInt32.
    rewrite (bind_run _ _ _ _ _ Hstep) in Hall.
    rewrite (bind_run _ _ _ _ _ Hklass) in Hall.
    rewrite (bind_run _ _ _ _ _ Hklass).
    rewrite (Hmacro _ _ Hall).
    destruct (Hnew _ Hall) as (Hprog & ?).
    rewrite (bind_run _ _ _ _ _ (Hfields s1 Hprog Hclass1)).
    apply Htail. eapply Hnew; eauto.
  - (* AllocateUnfold *)
    unfold Op.AllocateUnfold.
    rewrite (bind_run _ _ _ _ _ Hklass) in Hall.
    rewrite (bind_run _ _ _ _ _ Hklass).
    rewrite (Hmacro _ _ Hall).
    destruct (Hnew _ Hall) as (Hprog & ?).
    rewrite (bind_run _ _ _ _ _ (Hfields s1 Hprog Hclass1)).
    apply Htail. eapply Hnew; eauto.
  - (* AllocateImmutable *)
    unfold Op.AllocateImmutable.
    peel Hklass reads_ReadInt32.
    rewrite (bind_run _ _ _ _ _ Hstep) in Hall.
    rewrite (bind_run _ _ _ _ _ Hklass) in Hall.
    rewrite (bind_run _ _ _ _ _ Hklass).
    rewrite (bind_run _ _ _ _ _ (Hfields s eq_refl Hclass)) in Hall.
    rewrite (bind_run _ _ _ _ _ (Hfields s eq_refl Hclass)).
    peel Hall reads_operands_immutable.
    rewrite (Hmacro _ _ Hall).
    apply Htail. eapply Hnew; eauto.
  - (* AllocateImmutableUnfold *)
    unfold Op.AllocateImmutableUnfold.
    rewrite (bind_run _ _ _ _ _ Hklass) in Hall.
    rewrite (bind_run _ _ _ _ _ Hklass).
    rewrite (bind_run _ _ _ _ _ (Hfields s eq_refl Hclass)) in Hall.
    rewrite (bind_run _ _ _ _ _ (Hfields s eq_refl Hclass)).
    peel Hall reads_operands_immutable.
    rewrite (Hmacro _ _ Hall).
    apply Htail. eapply Hnew; eauto.
Qed.

End AllocationSuccess.

(** ** Natives that answer at once *)

Section NativeCalls.

Context {object_model : ObjectModel} {selectors : Selectors}
        {bytecodes : Bytecodes} {heap_ : Heap} {natives : Natives}
        {stack_walker : StackWalker} {method_lookup : MethodLookup}.

(** X14. [InvokeNative] after the native has answered [result], which
    is not the retry-after-GC sentinel.  A failure is wrapped by
    [ObjectFromFailure] and pushed above the arguments, and execution
    goes on behind the invoke, inside the method of the native, with
    the return address still on the stack.  Any other result makes the
    engine leave the method at once: the return address is popped into
    the bytecode pointer, the [arity] arguments are dropped and the
    result is pushed in their place. *)
Theorem InvokeNative_effect (s : State) (st st' : Stack)
        (arity native result : Z) (p' : Process) :
  byte_at (program s) (bcp s + 1) = Some arity ->
  byte_at (program s) (bcp s + 2) = Some native ->
  Process_stack (process s) = Some st ->
  0 <= sp s - arity ->
  kNativeTable native (program s) (process s)
               (drop (Z.to_nat (sp s - arity)) (slots st)) = Some (result, p') ->
  result <> Failure_retry_after_gc ->
  Process_stack p' = Some st' ->
  (IsFailure result = true ->
   0 <= sp s + 1 < Z.of_nat (length (slots st')) ->
   exists s',
     Op.InvokeNative s = Some (DISPATCH, s') /\
     bcp s' = bcp s + kInvokeNativeLength /\
     sp s' = sp s + 1 /\
     Process_stack (process s') =
       Some (upd st' (sp s + 1) (ObjectFromFailure (program s) result)) /\
     forall i, i <= sp s ->
       slot_at (upd st' (sp s + 1) (ObjectFromFailure (program s) result)) i
       = slot_at st' i) /\
  (IsFailure result = false ->
   forall ra,
     slot_at st' (sp s) = Some ra -> ra <> 0 ->
     0 <= sp s - arity < Z.of_nat (length (slots st')) ->
     exists s',
       Op.InvokeNative s = Some (DISPATCH, s') /\
       bcp s' = ra /\
       sp s' = sp s - arity /\
       Process_stack (process s') = Some (upd st' (sp s - arity) result) /\
       Top s' = Some (result, s')).
Proof.
  intros Ha Hn Hst Hdeep Hnative Hok Hst'.
  assert (Hhead : forall k,
    (arity0 <- ReadByte 1 ;;
     native0 <- ReadByte 2 ;;
     arguments <- LocalPointer arity0 ;;
     GC_AND_RETRY_ON_ALLOCATION_FAILURE (call_native native0 arguments)
       (k arity0)) s
    = k arity result (set_process p' s)).
  { intros k.
    rewrite (bind_run _ _ _ _ _ (ReadByte_run _ _ _ Ha)).
    rewrite (bind_run _ _ _ _ _ (ReadByte_run _ _ _ Hn)).
    rewrite (bind_run _ _ s (sp s - arity) s) by reflexivity.
    unfold GC_AND_RETRY_ON_ALLOCATION_FAILURE.
    erewrite bind_run by (eapply call_native_run; eauto).
    now rewrite decide_False by exact Hok. }
  split.
  - intros Hfail Hi. eexists. split.
    { unfold Op.InvokeNative. rewrite Hhead, Hfail, get_run.
      erewrite bind_run by (eapply Push_run; [exact Hst' | exact Hi]).
      reflexivity. }
    cbn [sp bcp process program set_bcp put_stack set_process set_sp].
    split; [reflexivity|]. split; [reflexivity|].
    split; [eapply Process_stack_set; exact Hst'|].
    intros i Hle. apply slot_at_upd_ne; lia.
  - intros Hfail ra Hra Hnz Hrange. eexists. split.
    { unfold Op.InvokeNative. rewrite Hhead, Hfail.
      unfold PopReturnAddress.
      erewrite bind_run; cycle 1.
      { erewrite bind_run by (eapply Pop_run; [exact Hst' | exact Hra]).
        apply Goto_run, Hnz. }
      erewrite bind_run by reflexivity.
      erewrite bind_run; cycle 1.
      { eapply Push_run; [exact Hst'|].
        cbn [sp set_bcp set_sp set_process]. lia. }
      reflexivity. }
    cbn [sp bcp process program set_bcp put_stack set_process set_sp].
    replace (sp s - 1 - arity + 1) with (sp s - arity) by lia.
    split; [reflexivity|]. split; [reflexivity|].
    split; [eapply Process_stack_set; exact Hst'|].
    unfold Top. eapply Local_run.
    + cbn [process set_bcp put_stack set_process set_sp].
      eapply Process_stack_set; exact Hst'.
    + cbn [sp set_bcp put_stack set_process set_sp].
      rewrite Z.sub_0_r. apply slot_at_upd_eq. lia.
Qed.

End NativeCalls.

(** ** Testing for a method without calling it *)

Section InvokeTests.

Context {object_model : ObjectModel} {selectors : Selectors}
        {bytecodes : Bytecodes} {heap_ : Heap} {natives : Natives}
        {stack_walker : StackWalker} {method_lookup : MethodLookup}
        {more_bytecodes : MoreBytecodes} {tables : Tables}.

(** The walk of [InvokeMethodFast] and that of [InvokeTestFast] stop at
    the same row. *)
Lemma scans_stop_at_same_row table index class_id :
  forall (fuel : nat) (offset function : Z),
    dispatch_table_scan fuel table index class_id offset = Some function ->
    exists row_offset lower upper,
      row_at table index row_offset = Some (lower, upper, function) /\
      row_holds class_id lower upper = true /\
      dispatch_table_scan_upper fuel table index class_id offset = Some upper.
Proof.
  induction fuel as [|fuel IH]; intros offset function; [discriminate|].
  cbn [dispatch_table_scan dispatch_table_scan_upper].
  destruct (Array_get table (index + offset)) as [lower|] eqn:Hl; [|discriminate].
  destruct (Z.ltb_spec class_id (Smi_value lower)) as [|Hlow]; [apply IH|].
  destruct (Array_get table (index + offset + 1)) as [upper|] eqn:Hu;
    [|discriminate].
  unfold Z.geb.
  destruct (Z.compare_spec class_id (Smi_value upper)) as [| Hup |];
    try apply IH.
  intros Hf. exists offset, lower, upper.
  split; [unfold row_at; now rewrite Hl, Hu, Hf|].
  split; [|reflexivity].
  unfold row_holds. apply andb_true_iff. split; [apply Z.leb_le | apply Z.ltb_lt]; lia.
Qed.

Lemma SetTop_run s st v :
  Process_stack (process s) = Some st ->
  0 <= sp s < Z.of_nat (length (slots st)) ->
  SetTop v s = Some (tt, put_stack (upd st (sp s) v) s).
Proof.
  intros Hst Hi. unfold SetTop.
  erewrite SetLocal_run by (eauto; rewrite Z.sub_0_r; exact Hi).
  now rewrite Z.sub_0_r.
Qed.

(** X15. Where [InvokeMethodFast] with dispatch-table index [index]
    finds a function for the class of the receiver, [InvokeTestFast]
    with the same index stops at the very row that carries that
    function, and answers in place of the receiver whether the upper
    bound of that row differs from the largest small integer. *)
Theorem InvokeTestFast_same_row (s : State) (st : Stack)
        (index receiver clazz class_id function : Z) :
  Utils_ReadInt32 (program s) (bcp s + 1) = Some index ->
  Process_stack (process s) = Some st ->
  slot_at st (sp s) = Some receiver ->
  class_of (program s) (process s) receiver = Some clazz ->
  Class_id (program s) (process s) clazz = Some class_id ->
  InvokeMethodFast_target (program s) index class_id = Some function ->
  exists s' row_offset lower upper,
    Ops.InvokeTestFast s = Some (DISPATCH, s') /\
    row_at (dispatch_table (program s)) index row_offset
      = Some (lower, upper, function) /\
    row_holds class_id lower upper = true /\
    sp s' = sp s /\
    bcp s' = bcp s + kInvokeTestFastLength /\
    Top s' = Some (bool_object (program s)
                     (negb (upper =? Smi_FromWord Smi_kMaxValue)), s').
Proof.
  intros Hindex Hst Hrec Hclass Hid Htarget.
  assert (Hi := slot_at_bound _ _ _ Hrec).
  destruct (scans_stop_at_same_row _ _ _ _ _ _ Htarget)
    as (row_offset & lower & upper & Hrow & Hholds & Hupper).
  eexists _, row_offset, lower, upper. split.
  { unfold Ops.InvokeTestFast.
    rewrite (bind_run _ _ _ _ _ (ReadInt32_run _ _ _ Hindex)).
    erewrite bind_run
      by (eapply Local_run; [exact Hst | rewrite Z.sub_0_r; exact Hrec]).
    rewrite get_run. unfold lift at 1, bind at 1. rewrite Hclass.
    unfold lift at 1, bind at 1. rewrite Hid.
    unfold lift at 1, bind at 1. unfold InvokeTestFast_upper. rewrite Hupper.
    unfold ToBool. rewrite (bind_run _ _ s _ s) by reflexivity.
    erewrite bind_run by (eapply SetTop_run; eauto).
    reflexivity. }
  split; [exact Hrow|]. split; [exact Hholds|].
  split; [reflexivity|]. split; [reflexivity|].
  unfold Top. eapply Local_run.
  - cbn [process set_bcp]. eapply Process_stack_put; exact Hst.
  - cbn [sp set_bcp put_stack set_process]. rewrite Z.sub_0_r.
    apply slot_at_upd_eq. exact Hi.
Qed.

(** X16. Where [InvokeMethodVtable] finds a function for the class of
    the receiver, [InvokeTestVtable] with the same selector answers, in
    place of the receiver, whether the vtable entry at class id plus
    offset stores that offset: true exactly when the invoke calls the
    function of that entry, false exactly when it falls back to the
    function of entry 0. *)
Theorem InvokeTestVtable_tells_fallback (s : State) (st : Stack)
        (selector receiver clazz class_id function : Z) :
  Utils_ReadInt32 (program s) (bcp s + 1) = Some selector ->
  Process_stack (process s) = Some st ->
  slot_at st (sp s) = Some receiver ->
  class_of (program s) (process s) receiver = Some clazz ->
  Class_id (program s) (process s) clazz = Some class_id ->
  let offset := IdField_decode selector in
  InvokeMethodVtable_target (program s) (process s) class_id offset
    = Some function ->
  exists s' (answer : bool) entry_ref entry,
    Ops.InvokeTestVtable s = Some (DISPATCH, s') /\
    sp s' = sp s /\
    bcp s' = bcp s + kInvokeTestVtableLength /\
    Top s' = Some (bool_object (program s) answer, s') /\
    Array_get (vtable (program s)) (if answer then class_id + offset else 0)
      = Some entry_ref /\
    Array_elements (program s) (process s) entry_ref = Some entry /\
    Array_get entry 2 = Some function.
Proof.
  intros Hsel Hst Hrec Hclass Hid offset Htarget.
  assert (Hi := slot_at_bound _ _ _ Hrec).
  unfold InvokeMethodVtable_target in Htarget.
  destruct (Array_get (vtable (program s)) (class_id + offset))
    as [entry_ref|] eqn:Hentry; [|discriminate].
  destruct (Array_elements (program s) (process s) entry_ref)
    as [entry|] eqn:Helements; [|discriminate].
  destruct (Array_get entry 0) as [stored|] eqn:Hstored; [|discriminate].
  assert (Hrun : Ops.InvokeTestVtable s
    = Some (DISPATCH,
            set_bcp (bcp s + kInvokeTestVtableLength)
              (put_stack (upd st (sp s)
                            (bool_object (program s) (Smi_value stored =? offset)))
                         s))).
  { unfold Ops.InvokeTestVtable.
    rewrite (bind_run _ _ _ _ _ (ReadInt32_run _ _ _ Hsel)).
    erewrite bind_run
      by (eapply Local_run; [exact Hst | rewrite Z.sub_0_r; exact Hrec]).
    rewrite get_run. unfold lift at 1, bind at 1. rewrite Hclass.
    unfold lift at 1, bind at 1. rewrite Hid.
    unfold lift at 1, bind at 1. unfold InvokeTestVtable_stored.
    fold offset. rewrite Hentry, Helements, Hstored.
    unfold ToBool. rewrite (bind_run _ _ s _ s) by reflexivity.
    erewrite bind_run by (eapply SetTop_run; eauto).
    reflexivity. }
  assert (Htop : forall b,
    Top (set_bcp (bcp s + kInvokeTestVtableLength)
           (put_stack (upd st (sp s) b) s))
    = Some (b, set_bcp (bcp s + kInvokeTestVtableLength)
                 (put_stack (upd st (sp s) b) s))).
  { intros b. unfold Top. eapply Local_run.
    - cbn [process set_bcp]. eapply Process_stack_put; exact Hst.
    - cbn [sp set_bcp put_stack set_process]. rewrite Z.sub_0_r.
      apply slot_at_upd_eq. exact Hi. }
  destruct (Z.eqb_spec (Smi_value stored) offset) as [Heq|Hneq];
    cbn [negb] in Htarget.
  - eexists _, true, entry_ref, entry.
    split; [exact Hrun|]. split; [reflexivity|]. split; [reflexivity|].
    split; [apply Htop|]. auto.
  - destruct (Array_get (vtable (program s)) 0) as [entry0_ref|] eqn:Hentry0;
      [|discriminate].
    destruct (Array_elements (program s) (process s) entry0_ref)
      as [entry0|] eqn:Helements0; [|discriminate].
    eexists _, false, entry0_ref, entry0.
    split; [exact Hrun|]. split; [reflexivity|]. split; [reflexivity|].
    split; [apply Htop|]. auto.
Qed.

End InvokeTests.

(** ** Unwinding through several coroutines *)

Section UnwindingRounds.

Context {object_model : ObjectModel} {selectors : Selectors}
        {bytecodes : Bytecodes} {heap_ : Heap} {natives : Natives}
        {stack_walker : StackWalker} {method_lookup : MethodLookup}.

Lemma unwind_rounds_frame (k : nat) : forall p pk,
  unwind_rounds k p = Some pk ->
  output pk = output p /\ cache pk = cache p /\ memory pk = memory p /\
  ports pk = ports p /\ debug_info pk = debug_info p /\
  (forall o,
     heap pk !! o = heap p !! o \/
     (heap pk !! o = Some (HCoroutine None (Some o)) /\
      exists stack_ caller, heap p !! o = Some (HCoroutine stack_ (Some caller)))) /\
  (forall (j : nat) pj,
     (j < k)%nat -> unwind_rounds j p = Some pj ->
     heap pk !! coroutine pj = Some (HCoroutine None (Some (coroutine pj)))).
Proof.
  induction k as [|k IH]; intros p pk Hk.
  - injection Hk as <-. repeat split; auto. intros j pj Hj. lia.
  - cbn [unwind_rounds] in Hk.
    destruct (heap p !! coroutine p) as [[| | | | | | |st [caller|]]|] eqn:Hcur;
      try discriminate.
    destruct (IH _ _ Hk) as (Ho & Hc & Hm & Hp & Hd & Hheap & Hdone).
    split; [exact Ho|]. split; [exact Hc|]. split; [exact Hm|].
    split; [exact Hp|]. split; [exact Hd|].
    assert (Hfirst : forall o,
      heap (unwound_to caller p) !! o = heap p !! o \/
      (heap (unwound_to caller p) !! o = Some (HCoroutine None (Some o)) /\
       exists stack_ c, heap p !! o = Some (HCoroutine stack_ (Some c)))).
    { intros o. unfold unwound_to. cbn [heap set_heap].
      destruct (decide (o = coroutine p)) as [->|Hne].
      - right. rewrite lookup_insert_eq. split; [reflexivity|]. eauto.
      - left. apply lookup_insert_ne. congruence. }
    split.
    + intros o. destruct (Hheap o) as [Hsame|[Hmark (st' & c' & Hwas)]].
      * rewrite Hsame. apply Hfirst.
      * right. split; [exact Hmark|].
        destruct (Hfirst o) as [Hsame|[_ Hwas']]; [|exact Hwas'].
        rewrite Hsame in Hwas. eauto.
    + intros j pj Hj Hpj. destruct j as [|j].
      * injection Hpj as <-.
        destruct (Hheap (coroutine p)) as [Hsame|[Hmark _]]; [|exact Hmark].
        rewrite Hsame. unfold unwound_to. cbn [heap set_heap].
        apply lookup_insert_eq.
      * cbn [unwind_rounds] in Hpj. rewrite Hcur in Hpj.
        apply (Hdone j); [lia | exact Hpj].
Qed.

(** X17. An exception that no coroutine catches for [k] rounds:
    [HandleThrow] walks [k] callers up and goes on from there as if
    thrown in the coroutine it has reached.  Every coroutine it has
    passed is left done, with no stack and itself as caller; every
    other object, the lookup cache, the ports and the memory are
    untouched, and nothing has been printed.  When the coroutine
    reached has a catch block, that block is the answer. *)
Theorem HandleThrow_unwinds_to_catcher (k : nat) (prog : Program)
        (p pk : Process) (exception : Z) :
  unwind_rounds k p = Some pk ->
  (forall (j : nat) pj,
     (j < k)%nat -> unwind_rounds j p = Some pj ->
     fst (ComputeCatchBlock prog pj) = 0) ->
  (forall n : nat,
     HandleThrow (k + n) prog p exception = HandleThrow n prog pk exception) /\
  (forall catch_bcp stack_delta (fuel : nat),
     ComputeCatchBlock prog pk = (catch_bcp, stack_delta) ->
     catch_bcp <> 0 -> (k < fuel)%nat ->
     HandleThrow fuel prog p exception = Some (Caught catch_bcp stack_delta pk)) /\
  (forall (j : nat) pj,
     (j < k)%nat -> unwind_rounds j p = Some pj ->
     heap pk !! coroutine pj = Some (HCoroutine None (Some (coroutine pj)))) /\
  (forall o,
     heap pk !! o = heap p !! o \/
     (heap pk !! o = Some (HCoroutine None (Some o)) /\
      exists stack_ caller, heap p !! o = Some (HCoroutine stack_ (Some caller)))) /\
  output pk = output p /\ cache pk = cache p /\ memory pk = memory p /\
  ports pk = ports p.
Proof.
  intros Hk Hnone.
  assert (Hrounds : forall n : nat,
    HandleThrow (k + n) prog p exception = HandleThrow n prog pk exception).
  { clear -Hk Hnone. revert p Hk Hnone.
    induction k as [|k IH]; intros p Hk Hnone n.
    - injection Hk as <-. reflexivity.
    - cbn [unwind_rounds] in Hk.
      destruct (heap p !! coroutine p) as [[| | | | | | |st [caller|]]|] eqn:Hcur;
        try discriminate.
      change (S k + n)%nat with (S (k + n)). cbn [HandleThrow].
      pose proof (Hnone 0%nat p ltac:(lia) eq_refl) as Hzero.
      destruct (ComputeCatchBlock prog p) as [c d]. cbn [fst] in Hzero.
      subst c. cbn [Z.eqb negb]. rewrite Hcur.
      apply (IH (unwound_to caller p) Hk).
      intros j pj Hj Hpj. apply (Hnone (S j) pj); [lia|].
      cbn [unwind_rounds]. now rewrite Hcur. }
  destruct (unwind_rounds_frame _ _ _ Hk) as (Ho & Hc & Hm & Hp & _ & Hheap & Hdone).
  split; [exact Hrounds|].
  split; [|repeat split; auto].
  intros catch_bcp stack_delta fuel Hcatch Hnz Hfuel.
  replace fuel with (k + S (fuel - k - 1))%nat by lia.
  rewrite Hrounds. cbn [HandleThrow]. rewrite Hcatch.
  destruct (Z.eqb_spec catch_bcp 0); [contradiction|]. reflexivity.
Qed.

End UnwindingRounds.

(** ** Leaving the dispatch loop *)

Section LeavingInterpret.

Context {object_model : ObjectModel} {selectors : Selectors}
        {bytecodes : Bytecodes} {heap_ : Heap} {natives : Natives}
        {stack_walker : StackWalker} {method_lookup : MethodLookup}
        {more_bytecodes : MoreBytecodes} {tables : Tables}.

(** A process that declines to grow the stack leaves the stack alone. *)
Hypothesis declined_overflow_keeps_stack :
  forall prog p size p',
    Process_HandleStackOverflow prog p size = (false, p') ->
    Process_stack p' = Process_stack p.

Lemma Push_inv v s s1 :
  Push v s = Some (tt, s1) ->
  exists st,
    Process_stack (process s) = Some st /\
    0 <= sp s + 1 < Z.of_nat (length (slots st)) /\
    s1 = put_stack (upd st (sp s + 1) v) (set_sp (sp s + 1) s).
Proof.
  unfold Push, SetLocal, store. unfold bind, get, modify. simpl.
  destruct (Process_stack (process s)) as [st|]; [|discriminate].
  unfold slot_set. destruct (decide _) as [Hi|]; [|discriminate].
  intros [= <-]. exists st. rewrite Z.sub_0_r in Hi.
  split; [reflexivity|]. split; [exact Hi|].
  unfold put_stack, upd. simpl. now rewrite Z.sub_0_r.
Qed.

Lemma SaveState_saved s s1 : SaveState s = Some (tt, s1) -> state_saved s1.
Proof.
  unfold SaveState. rewrite get_run. intros Hsave.
  apply bind_inv in Hsave as ([] & sa & Hpush & Htop).
  apply Push_inv in Hpush as (st & Hst & Hi & ->).
  unfold SetTopFromPointer in Htop.
  erewrite Process_stack_put in Htop by exact Hst.
  injection Htop as <-.
  eexists. split; [cbn [process set_process]; eapply Process_stack_set;
                   eapply Process_stack_put; exact Hst|].
  cbn [top sp set_process put_stack set_sp slots bcp upd].
  split; [reflexivity|].
  unfold slot_at. cbn [slots]. rewrite decide_True by lia.
  apply list_lookup_insert_eq. lia.
Qed.

Lemma state_saved_ext s s' :
  Process_stack (process s') = Process_stack (process s) ->
  sp s' = sp s -> bcp s' = bcp s ->
  state_saved s -> state_saved s'.
Proof.
  intros Hp Hsp Hbcp (st & Hst & Htop & Hslot).
  exists st. rewrite Hp, Hsp, Hbcp. auto.
Qed.

Lemma StackOverflowCheck_false_saved size s s' :
  StackOverflowCheck size s = Some (false, s') -> state_saved s'.
Proof.
  unfold StackOverflowCheck. intros Hcheck.
  apply bind_inv in Hcheck as (has_space & s0 & Hspace & Hcheck).
  destruct has_space; [discriminate|].
  apply bind_inv in Hcheck as ([] & s1 & Hsave & Hcheck).
  apply bind_inv in Hcheck as (grown & s2 & Hgrow & Hcheck).
  destruct grown; cbn [negb] in Hcheck.
  - apply bind_inv in Hcheck as ([] & s3 & _ & Hret). discriminate.
  - injection Hcheck as <-.
    apply SaveState_saved in Hsave.
    unfold call_process in Hgrow.
    destruct (Process_HandleStackOverflow (program s1) (process s1) size)
      as [g p'] eqn:Hhandler.
    injection Hgrow as -> <-.
    apply declined_overflow_keeps_stack in Hhandler.
    eapply state_saved_ext; [| | |exact Hsave]; auto.
Qed.

Lemma ShouldBreak_true_saved s s' :
  ShouldBreak s = Some (true, s') -> state_saved s'.
Proof.
  unfold ShouldBreak. rewrite get_run.
  destruct (debug_info (process s)) as [info|]; [|discriminate].
  intros Hbreak.
  apply bind_inv in Hbreak as ([] & s1 & Hsave & Hret).
  injection Hret as Hshould <-.
  rewrite Hshould in Hsave. now apply SaveState_saved in Hsave.
Qed.

Lemma surrenders_bind {A} (m : M A) (k : A -> M Next) :
  (forall a, surrenders (k a)) -> surrenders (bind m k).
Proof.
  intros Hk s kind s' Hrun.
  apply bind_inv in Hrun as (a & s1 & _ & Hrun). now apply Hk in Hrun.
Qed.

Lemma surrenders_DISPATCH : surrenders (ret DISPATCH).
Proof. intros s kind s' [=]. Qed.

Lemma surrenders_Exit status : surrenders (ret (Exit status)).
Proof. intros s kind s' [=]. Qed.

Lemma surrenders_fail : surrenders fail.
Proof. intros s kind s' [=]. Qed.

Lemma surrenders_uncaught : surrenders (ret (Return_ kUncaughtException)).
Proof. intros s kind s' [= <- _]. split; [discriminate | contradiction]. Qed.

Lemma surrenders_interrupt size (rest : M Next) :
  surrenders rest ->
  surrenders (ok <- StackOverflowCheck size ;;
              if negb ok then ret (Return_ kInterrupt) else rest).
Proof.
  intros Hrest s kind s' Hrun.
  apply bind_inv in Hrun as (ok & s1 & Hcheck & Hrun).
  destruct ok; cbn [negb] in Hrun.
  - now apply Hrest in Hrun.
  - injection Hrun as <- <-. split; [discriminate|].
    intros _. now apply StackOverflowCheck_false_saved in Hcheck.
Qed.

Lemma surrenders_yield (terminated : bool) :
  surrenders (SaveState ;;
              ret (Return_ (if terminated then kTerminate else kYield))).
Proof.
  intros s kind s' Hrun.
  apply bind_inv in Hrun as ([] & s1 & Hsave & Hret).
  injection Hret as <- <-.
  split; [destruct terminated; discriminate|].
  intros _. now apply SaveState_saved in Hsave.
Qed.

Lemma surrenders_target_yield (result : Object) :
  surrenders (SaveState ;;
              modify (set_yield_target (Some result)) ;;
              s <- get ;;
              port <- lift (ports (process s) !! result) ;;
              ASSERT (IsLocked port) ;;
              ret (Return_ kTargetYield)).
Proof.
  intros s kind s' Hrun.
  apply bind_inv in Hrun as ([] & s1 & Hsave & Hrun).
  apply bind_inv in Hrun as ([] & s2 & Hmod & Hrun).
  injection Hmod as <-. rewrite get_run in Hrun.
  apply bind_inv in Hrun as (port & s3 & Hport & Hrun).
  apply reads_lift in Hport as ->.
  apply bind_inv in Hrun as ([] & s4 & Hassert & Hrun).
  apply reads_ASSERT in Hassert as ->.
  injection Hrun as <- <-. split; [discriminate|].
  intros _. apply SaveState_saved in Hsave.
  eapply state_saved_ext; [| | |exact Hsave]; reflexivity.
Qed.

Ltac surrenders_tac :=
  repeat first
    [ apply surrenders_DISPATCH
    | apply surrenders_Exit
    | apply surrenders_fail
    | apply surrenders_uncaught
    | apply surrenders_yield
    | apply surrenders_target_yield
    | apply surrenders_interrupt
    | apply surrenders_bind; intros ?
    | match goal with
      | |- surrenders (if ?x then _ else _) => destruct x
      | |- surrenders (match ?x with _ => _ end) => destruct x
      end ].

Lemma surrenders_enter target_ : surrenders (Op.enter target_).
Proof. unfold Op.enter. surrenders_tac. Qed.

Lemma surrenders_execute fuel opcode : surrenders (execute fuel opcode).
Proof.
  destruct opcode; cbn [execute];
    unfold Op.InvokeMethod, Op.InvokeMethodFast, Op.InvokeMethodVtable,
           Op.InvokeNative, Op.InvokeNativeYield, Op.Return, Op.Allocate,
           Op.AllocateUnfold, Op.AllocateImmutable, Op.AllocateImmutableUnfold,
           Op.AllocateBoxed, Op.Throw, Op.Identical, Op.IdenticalNonNumeric,
           Op.EnterNoSuchMethod, Op.ExitNoSuchMethod,
           GC_AND_RETRY_ON_ALLOCATION_FAILURE;
    surrenders_tac; apply surrenders_enter.
Qed.

Lemma surrenders_execute_more opcode : surrenders (execute_more opcode).
Proof.
  destruct opcode; cbn [execute_more];
    unfold Ops.LoadLocal0, Ops.LoadLocal1, Ops.LoadLocal2, Ops.LoadLocal,
           Ops.LoadBoxed, Ops.LoadStatic, Ops.LoadStaticInit, Ops.LoadField,
           Ops.LoadConst, Ops.LoadConstUnfold, Ops.StoreLocal, Ops.StoreBoxed,
           Ops.StoreStatic, Ops.StoreField, Ops.LoadLiteralNull,
           Ops.LoadLiteralTrue, Ops.LoadLiteralFalse, Ops.LoadLiteral0,
           Ops.LoadLiteral1, Ops.LoadLiteral, Ops.LoadLiteralWide,
           Ops.InvokeFactory, Ops.InvokeStatic,
           Ops.InvokeFactoryUnfold, Ops.InvokeStaticUnfold,
           Ops.InvokeBuiltin, Ops.InvokeBuiltinFast, Ops.InvokeBuiltinVtable,
           Ops.InvokeTest, Ops.InvokeTestFast, Ops.InvokeTestVtable, Ops.Pop,
           Ops.BranchLong, Ops.BranchIfTrueLong, Ops.BranchIfFalseLong,
           Ops.BranchBack, Ops.BranchBackIfTrue, Ops.BranchBackIfFalse,
           Ops.BranchBackLong, Ops.BranchBackIfTrueLong,
           Ops.BranchBackIfFalseLong, Ops.PopAndBranchLong,
           Ops.PopAndBranchBackLong, Ops.Negate, Ops.StackOverflowCheck,
           Ops.ProcessYield, Ops.CoroutineChange, Ops.SubroutineCall,
           Ops.SubroutineReturn, Ops.FrameSize, Ops.MethodEnd;
    try apply (surrenders_execute 0 kInvokeMethod);
    try apply (surrenders_execute 0 kInvokeMethodFast);
    try apply (surrenders_execute 0 kInvokeMethodVtable);
    surrenders_tac.
Qed.

Lemma surrenders_DISPATCH_NO_BREAK fuel : surrenders (DISPATCH_NO_BREAK fuel).
Proof.
  unfold DISPATCH_NO_BREAK. apply surrenders_bind. intros byte.
  destruct (Opcode_of_byte byte) as [opcode|].
  - apply surrenders_execute.
  - apply surrenders_bind. intros opcode. apply surrenders_execute_more.
Qed.

Lemma Interpret_loop_surrenders (fuel : nat) :
  forall (break_check : bool) (s s' : State) (kind : InterruptKind),
    Interpret_loop fuel break_check s = Some (Interrupted kind, s') ->
    kind <> kReady /\ (kind <> kUncaughtException -> state_saved s').
Proof.
  induction fuel as [|fuel IH]; intros break_check s s' kind; [discriminate|].
  cbn [Interpret_loop]. intros Hrun.
  apply bind_inv in Hrun as (should_break & s1 & Hbreak & Hrun).
  destruct should_break.
  - injection Hrun as <- <-. split; [discriminate|]. intros _.
    destruct break_check; [|discriminate].
    now apply ShouldBreak_true_saved in Hbreak.
  - apply bind_inv in Hrun as (next_ & s2 & Hstep & Hrun).
    destruct next_ as [|k|status].
    + now apply IH in Hrun.
    + injection Hrun as <- <-.
      now apply surrenders_DISPATCH_NO_BREAK in Hstep.
    + discriminate.
Qed.

(** X18. Whenever [Interpret] returns, the kind it returns is not
    [kReady], and unless it is [kUncaughtException] the engine state is
    saved: the stack object of the process records the stack pointer as
    its top and holds the bytecode pointer in that slot, so that the
    next [Interpret] can pick up there.  This holds for every opcode
    and for the breakpoint gate. *)
Theorem Interpret_returns_saved (fuel : nat) (s s' : State)
        (kind : InterruptKind) :
  Interpret fuel s = Some (Interrupted kind, s') ->
  kind <> kReady /\ (kind <> kUncaughtException -> state_saved s').
Proof.
  unfold Interpret. intros Hrun.
  apply bind_inv in Hrun as (at_break_point & s1 & _ & Hrun).
  now apply Interpret_loop_surrenders in Hrun.
Qed.

End LeavingInterpret.

(** ** Back edges and breakpoints *)

Section Gates.

Context {object_model : ObjectModel} {selectors : Selectors}
        {bytecodes : Bytecodes} {heap_ : Heap} {natives : Natives}
        {stack_walker : StackWalker} {method_lookup : MethodLookup}
        {more_bytecodes : MoreBytecodes} {tables : Tables}.

Lemma StackOverflowCheck_declined (s : State) (st : Stack) (size : Z)
      (p' : Process) :
  Process_stack (process s) = Some st ->
  0 <= sp s + 1 < Z.of_nat (length (slots st)) ->
  Process_stack_limit (process s) <= sp s + size ->
  Process_HandleStackOverflow (program s) (process (saved_state s st)) size
    = (false, p') ->
  StackOverflowCheck size s = Some (false, set_process p' (saved_state s st)).
Proof.
  intros Hst Hi Hfull Hdecline. unfold StackOverflowCheck.
  rewrite (bind_run _ _ _ _ _ (HasStackSpaceFor_run _ _)).
  destruct (Z.ltb_spec (sp s + size) (Process_stack_limit (process s))); [lia|].
  erewrite bind_run by (eapply SaveState_run; eauto).
  fold (saved_state s st).
  unfold bind at 1, call_process.
  change (program (saved_state s st)) with (program s).
  rewrite Hdecline. reflexivity.
Qed.

(** X19. Every opcode that branches backwards polls for stack overflow
    before it does anything else: when the stack has no room left and
    the process declines to grow it, the opcode returns [kInterrupt]
    with the state saved at the branch itself; the condition is not
    popped, no slot is dropped and the bytecode pointer has not moved,
    so the branch runs again on resumption. *)
Theorem back_branches_poll (opcode : MoreOpcode) (s : State) (st : Stack)
        (p' : Process) :
  branches_back opcode = true ->
  Process_stack (process s) = Some st ->
  0 <= sp s + 1 < Z.of_nat (length (slots st)) ->
  Process_stack_limit (process s) <= sp s ->
  Process_HandleStackOverflow (program s) (process (saved_state s st)) 0
    = (false, p') ->
  execute_more opcode s
    = Some (Return_ kInterrupt, set_process p' (saved_state s st)) /\
  sp (saved_state s st) = sp s + 1 /\
  bcp (saved_state s st) = bcp s /\
  exists st',
    Process_stack (process (saved_state s st)) = Some st' /\
    slot_at st' (sp s + 1) = Some (bcp s) /\
    same_operands (sp s) st st'.
Proof.
  intros Hback Hst Hi Hfull Hdecline.
  assert (Hcheck := StackOverflowCheck_declined s st 0 p' Hst Hi
                      ltac:(lia) Hdecline).
  split.
  { destruct opcode; try discriminate; cbn [execute_more];
      unfold Ops.BranchBack, Ops.BranchBackIfTrue, Ops.BranchBackIfFalse,
             Ops.BranchBackLong, Ops.BranchBackIfTrueLong,
             Ops.BranchBackIfFalseLong, Ops.PopAndBranchBackLong;
      rewrite (bind_run _ _ _ _ _ Hcheck); reflexivity. }
  split; [reflexivity|]. split; [reflexivity|].
  eexists. split; [unfold saved_state; eapply Process_stack_put; simpl; exact Hst|].
  split; [apply slot_at_saved; exact Hi|].
  split; cbn [slots].
  - apply length_insert.
  - intros i Hle. unfold slot_at. cbn [slots].
    destruct (decide (0 <= i)); [|reflexivity].
    apply list_lookup_insert_ne. lia.
Qed.

(** X20. The breakpoint gate of [Interpret].  At a bytecode where the
    debug information asks to break, a process that is not marked as
    being at a breakpoint returns [kBreakPoint] at once, with the state
    saved and no opcode run.  A process that is marked runs the opcode
    under the bytecode pointer without asking, with the mark cleared,
    and the gate is back in force from the next opcode on. *)
Theorem breakpoint_gate (fuel : nat) (s : State) (st : Stack) (info : DebugInfo) :
  debug_info (process s) = Some info ->
  DebugInfo_ShouldBreak info (bcp s) (sp s) = true ->
  Process_stack (process s) = Some st ->
  0 <= sp s + 1 < Z.of_nat (length (slots st)) ->
  (is_at_breakpoint info = false ->
   exists s',
     Interpret (S fuel) s = Some (Interrupted kBreakPoint, s') /\
     state_saved s' /\ sp s' = sp s + 1 /\ bcp s' = bcp s) /\
  (is_at_breakpoint info = true ->
   (forall s1,
      DISPATCH_NO_BREAK fuel (clear_is_at_breakpoint s) = Some (DISPATCH, s1) ->
      Interpret (S fuel) s = Interpret_loop fuel true s1) /\
   (forall kind s1,
      DISPATCH_NO_BREAK fuel (clear_is_at_breakpoint s)
        = Some (Return_ kind, s1) ->
      Interpret (S fuel) s = Some (Interrupted kind, s1))).
Proof.
  intros Hinfo Hbreak Hst Hi.
  set (cleared := clear_is_at_breakpoint s).
  assert (Hat : IsAtBreakPoint s = Some (is_at_breakpoint info, cleared)).
  { unfold IsAtBreakPoint. rewrite get_run, Hinfo.
    subst cleared. unfold clear_is_at_breakpoint. rewrite Hinfo. reflexivity. }
  assert (Hcst : Process_stack (process cleared) = Some st).
  { subst cleared. unfold clear_is_at_breakpoint. rewrite Hinfo. exact Hst. }
  split.
  - intros Hflag. rewrite Hflag in Hat.
    assert (Hgate : ShouldBreak cleared
                    = Some (true, saved_state cleared st)).
    { unfold ShouldBreak. rewrite get_run.
      subst cleared. unfold clear_is_at_breakpoint. rewrite Hinfo.
      cbn [debug_info process set_process set_debug_info DebugInfo_ShouldBreak
           bcp sp].
      rewrite Hbreak.
      erewrite bind_run; [reflexivity|].
      unfold saved_state. eapply SaveState_run; [exact Hst | exact Hi]. }
    eexists. split.
    { unfold Interpret. rewrite (bind_run _ _ _ _ _ Hat).
      cbn [negb Interpret_loop]. rewrite (bind_run _ _ _ _ _ Hgate).
      reflexivity. }
    split.
    { eapply SaveState_saved. unfold saved_state.
      eapply SaveState_run; [exact Hcst|].
      subst cleared. unfold clear_is_at_breakpoint. rewrite Hinfo. exact Hi. }
    subst cleared. unfold clear_is_at_breakpoint. rewrite Hinfo.
    split; reflexivity.
  - intros Hflag. rewrite Hflag in Hat.
    split.
    + intros s1 Hstep. unfold Interpret. rewrite (bind_run _ _ _ _ _ Hat).
      cbn [negb Interpret_loop].
      rewrite (bind_run _ _ cleared false cleared) by reflexivity.
      rewrite (bind_run _ _ _ _ _ Hstep). reflexivity.
    + intros kind s1 Hstep. unfold Interpret. rewrite (bind_run _ _ _ _ _ Hat).
      cbn [negb Interpret_loop].
      rewrite (bind_run _ _ cleared false cleared) by reflexivity.
      rewrite (bind_run _ _ _ _ _ Hstep). reflexivity.
Qed.

End Gates.

(** * Further properties of the foreign-function interface *)

(** ** The registry of default libraries *)

Section Registry.

Context {dynamic_loader : DynamicLoader} {allocator : Allocator}.

(** What an allocator guarantees: the block it places is not [NULL] and
    overlaps no block in use. *)
Hypothesis allocate_fresh :
  forall h, allocate h <> 0 /\ h !! allocate h = None.

Lemma holds_libraries_size (names : list string) : forall h head,
  holds_libraries h head names -> size h = (2 * length names)%nat.
Proof.
  induction names as [|name rest IH]; intros h head; cbn [holds_libraries].
  - intros [_ ->]. apply map_size_empty.
  - intros (_ & copy & next & _ & Hne & Hhead & Hcopy & Hrest).
    apply IH in Hrest.
    assert (Hcopy' : delete head h !! copy = Some (CString name))
      by (rewrite lookup_delete_ne by congruence; exact Hcopy).
    rewrite delete_delete in Hrest.
    pose proof (map_size_delete_Some copy (delete head h) (mk_is_Some _ _ Hcopy')) as H1.
    pose proof (map_size_delete_Some head h (mk_is_Some _ _ Hhead)) as H2.
    assert (size h <> 0%nat).
    { intros Hz. apply map_size_empty_inv in Hz. subst h.
      now rewrite lookup_empty in Hhead. }
    assert (size (delete head h) <> 0%nat).
    { intros Hz. apply map_size_empty_inv in Hz. rewrite Hz in Hcopy'.
      now rewrite lookup_empty in Hcopy'. }
    cbn [length]. lia.
Qed.

Lemma release_run (address : Z) (h : gmap Z Block) (b : Block) :
  address <> 0 -> h !! address = Some b ->
  release address h = Some (delete address h).
Proof.
  intros Hnz Hb. unfold release.
  destruct (Z.eqb_spec address 0); [contradiction|]. now rewrite Hb.
Qed.

(** [TearDown] on a heap that holds the registry and a frame. *)
Lemma delete_entries_frees (names : list string) :
  forall (h frame : gmap Z Block) (head : Z) (fuel : nat),
    holds_libraries h head names ->
    h ##ₘ frame ->
    (length names <= fuel)%nat ->
    delete_entries fuel head (h ∪ frame) = Some frame.
Proof.
  induction names as [|name rest IH]; intros h frame head fuel;
    cbn [holds_libraries].
  - intros [-> ->] _ _. destruct fuel; cbn; now rewrite map_empty_union.
  - intros (Hnz & copy & next & Hcnz & Hne & Hhead & Hcopy & Hrest) Hdisj Hfuel.
    destruct fuel as [|fuel]; [cbn in Hfuel; lia|].
    cbn [delete_entries]. destruct (Z.eqb_spec head 0); [contradiction|].
    rewrite (lookup_union_Some_l _ _ _ _ Hhead). cbn [mbind option_bind].
    rewrite (release_run copy (h ∪ frame) (CString name));
      [|exact Hcnz|now apply lookup_union_Some_l].
    cbn [mbind option_bind].
    rewrite (release_run head (delete copy (h ∪ frame)) (LibraryEntry copy next));
      [|exact Hnz|].
    2:{ rewrite lookup_delete_ne by congruence. now apply lookup_union_Some_l. }
    cbn [mbind option_bind].
    assert (Hframe : forall k b, h !! k = Some b -> frame !! k = None)
      by (intros k b Hk; eapply map_disjoint_Some_l; eauto).
    rewrite !delete_union.
    rewrite (delete_id frame copy) by (eapply Hframe; eauto).
    rewrite (delete_id frame head) by (eapply Hframe; eauto).
    apply IH; [exact Hrest| |cbn in Hfuel; lia].
    apply map_disjoint_delete_l, map_disjoint_delete_l, Hdisj.
Qed.

Lemma lookup_entries_finds (names : list string) (symbol : string) :
  forall (h big : gmap Z Block) (head : Z) (fuel : nat),
    holds_libraries h head names ->
    h ⊆ big ->
    (length names <= fuel)%nat ->
    lookup_entries fuel head big symbol = Some (first_hit names symbol).
Proof.
  induction names as [|name rest IH]; intros h big head fuel;
    cbn [holds_libraries first_hit].
  - intros [-> _] _ _. destruct fuel; reflexivity.
  - intros (Hnz & copy & next & Hcnz & Hne & Hhead & Hcopy & Hrest) Hsub Hfuel.
    destruct fuel as [|fuel]; [cbn in Hfuel; lia|].
    cbn [lookup_entries]. destruct (Z.eqb_spec head 0); [contradiction|].
    rewrite (lookup_weaken _ _ _ _ Hhead Hsub).
    destruct (Z.eqb_spec copy 0); [contradiction|].
    rewrite (lookup_weaken _ _ _ _ Hcopy Hsub). cbn [mbind option_bind].
    destruct (negb (PerformForeignLookup (Some name) symbol =? 0));
      [reflexivity|].
    apply (IH (delete head (delete copy h))); [exact Hrest| |cbn in Hfuel; lia].
    etransitivity; [|exact Hsub].
    etransitivity; [apply delete_subseteq|apply delete_subseteq].
Qed.

Lemma registry_Setup : registry_of [] (Setup no_libraries).
Proof.
  destruct (allocate_fresh ∅) as [Hnz _].
  split; [exact Hnz|]. exists ∅. cbn.
  split; [split; reflexivity|]. split; [apply lookup_empty | reflexivity].
Qed.

Lemma registry_Add (name : string) (names : list string)
      (ffi : ForeignFunctionInterface) :
  registry_of names ffi ->
  exists ffi',
    AddDefaultSharedLibrary name ffi = Some ffi' /\
    registry_of (name :: names) ffi'.
Proof.
  intros (Hmnz & h & Hholds & Hfree & Hblocks).
  unfold AddDefaultSharedLibrary, has_mutex.
  rewrite Hblocks, lookup_insert_eq.
  set (big := <[mutex_ ffi := MutexBlock]> h).
  destruct (allocate_fresh big) as [Hcnz Hcfree].
  set (copy := allocate big) in *.
  destruct (allocate_fresh (<[copy := CString name]> big)) as [Henz Hefree].
  set (entry := allocate (<[copy := CString name]> big)) in *.
  assert (Hcm : copy <> mutex_ ffi).
  { intros Heq. subst big. rewrite Heq, lookup_insert_eq in Hcfree. discriminate. }
  assert (Hec : entry <> copy).
  { intros Heq. rewrite Heq, lookup_insert_eq in Hefree. discriminate. }
  assert (Hem : entry <> mutex_ ffi).
  { intros Heq. subst big. rewrite lookup_insert_ne in Hefree by congruence.
    rewrite Heq, lookup_insert_eq in Hefree. discriminate. }
  assert (Hch : h !! copy = None).
  { subst big. now rewrite lookup_insert_ne in Hcfree by congruence. }
  assert (Heh : h !! entry = None).
  { subst big. rewrite lookup_insert_ne in Hefree by congruence.
    now rewrite lookup_insert_ne in Hefree by congruence. }
  eexists. split; [reflexivity|].
  split; [exact Hmnz|]. cbn [libraries_ mutex_ blocks].
  exists (<[entry := LibraryEntry copy (libraries_ ffi)]> (<[copy := CString name]> h)).
  split; [|split].
  - cbn [holds_libraries]. split; [exact Henz|].
    exists copy, (libraries_ ffi).
    split; [exact Hcnz|]. split; [congruence|].
    split; [apply lookup_insert_eq|].
    split; [rewrite lookup_insert_ne by congruence; apply lookup_insert_eq|].
    rewrite delete_delete, delete_insert_id
      by (rewrite lookup_insert_ne by congruence; exact Heh).
    rewrite delete_insert_id by exact Hch. exact Hholds.
  - rewrite !lookup_insert_ne by congruence. exact Hfree.
  - subst big.
    rewrite (insert_insert_ne _ copy (mutex_ ffi)) by congruence.
    rewrite (insert_insert_ne _ entry (mutex_ ffi)) by congruence.
    reflexivity.
Qed.

Lemma registry_add_libraries (names : list string) :
  forall (names0 : list string) (ffi : ForeignFunctionInterface),
    registry_of names0 ffi ->
    exists ffi',
      add_libraries names ffi = Some ffi' /\
      registry_of (rev names ++ names0) ffi'.
Proof.
  induction names as [|name rest IH]; intros names0 ffi Hreg.
  - exists ffi. split; [reflexivity | exact Hreg].
  - destruct (registry_Add name names0 ffi Hreg) as (ffi1 & Hadd & Hreg1).
    destruct (IH (name :: names0) ffi1 Hreg1) as (ffi' & Hrest & Hreg').
    exists ffi'. cbn [add_libraries rev]. rewrite Hadd.
    split; [exact Hrest|]. now rewrite <- app_assoc.
Qed.

(** X21. After [Setup] and any number of calls of
    [AddDefaultSharedLibrary], [TearDown] releases every block the
    registry has allocated: each entry, the copy of each library name,
    and the mutex.  It leaves [libraries_] as it was, pointing at the
    released head of the list. *)
Theorem TearDown_releases_every_block (names : list string) :
  exists ffi ffi',
    add_libraries names (Setup no_libraries) = Some ffi /\
    size (blocks ffi) = (1 + 2 * length names)%nat /\
    TearDown ffi = Some ffi' /\
    blocks ffi' = ∅ /\
    libraries_ ffi' = libraries_ ffi /\
    (names <> [] -> libraries_ ffi' <> 0).
Proof.
  destruct (registry_add_libraries names [] _ registry_Setup)
    as (ffi & Hadd & Hmnz & h & Hholds & Hfree & Hblocks).
  rewrite app_nil_r in Hholds.
  pose proof (holds_libraries_size _ _ _ Hholds) as Hsize.
  rewrite length_rev in Hsize.
  assert (Hbsize : size (blocks ffi) = (1 + 2 * length names)%nat).
  { rewrite Hblocks, map_size_insert_None by exact Hfree. lia. }
  exists ffi. eexists. split; [exact Hadd|]. split; [exact Hbsize|].
  split.
  { unfold TearDown. rewrite Hbsize.
    rewrite Hblocks at 1.
    rewrite insert_union_singleton_r by exact Hfree.
    erewrite delete_entries_frees; [|exact Hholds| |rewrite length_rev; lia].
    2:{ apply map_disjoint_singleton_r. exact Hfree. }
    cbn [mbind option_bind].
    destruct (Z.eqb_spec (mutex_ ffi) 0); [contradiction|].
    rewrite lookup_singleton_eq. cbn [mbind option_bind]. reflexivity. }
  cbn [blocks libraries_].
  split; [apply delete_singleton_eq|]. split; [reflexivity|].
  intros Hne. destruct (rev names) as [|name rest] eqn:Hrev.
  - apply (f_equal (@rev string)) in Hrev. rewrite rev_involutive in Hrev.
    contradiction.
  - cbn [holds_libraries] in Hholds. tauto.
Qed.

Lemma lookup_after_adds (names : list string) :
  exists ffi,
    add_libraries names (Setup no_libraries) = Some ffi /\
    forall symbol,
      LookupInDefaultLibraries symbol ffi
        = Some (first_hit (rev names) symbol).
Proof.
  destruct (registry_add_libraries names [] _ registry_Setup)
    as (ffi & Hadd & Hmnz & h & Hholds & Hfree & Hblocks).
  rewrite app_nil_r in Hholds.
  pose proof (holds_libraries_size _ _ _ Hholds) as Hsize.
  exists ffi. split; [exact Hadd|]. intros symbol.
  unfold LookupInDefaultLibraries, has_mutex.
  rewrite Hblocks, lookup_insert_eq.
  apply (lookup_entries_finds _ _ h); [exact Hholds| |].
  - apply insert_subseteq. exact Hfree.
  - rewrite map_size_insert_None by exact Hfree. lia.
Qed.

(** X22. After [Setup] and calls of [AddDefaultSharedLibrary] for
    [names], [LookupInDefaultLibraries] asks the libraries from the one
    added last to the one added first and answers the first address
    that is not [NULL], and [NULL] when no library has the symbol. *)
Theorem LookupInDefaultLibraries_newest_first (names : list string) :
  exists ffi,
    add_libraries names (Setup no_libraries) = Some ffi /\
    has_mutex ffi = true /\
    forall symbol,
      LookupInDefaultLibraries symbol ffi
        = Some (first_hit (rev names) symbol) /\
      (first_hit (rev names) symbol <> 0 ->
       exists name,
         In name names /\
         PerformForeignLookup (Some name) symbol = first_hit (rev names) symbol).
Proof.
  destruct (lookup_after_adds names) as (ffi & Hadd & Hlookup).
  exists ffi. split; [exact Hadd|].
  split.
  { specialize (Hlookup EmptyString). unfold LookupInDefaultLibraries in Hlookup.
    destruct (has_mutex ffi); [reflexivity | discriminate]. }
  intros symbol. split; [apply Hlookup|].
  intros Hfound.
  assert (Hin : forall l, first_hit l symbol <> 0 ->
    exists name, In name l /\
                 PerformForeignLookup (Some name) symbol = first_hit l symbol).
  { induction l as [|name rest IH]; cbn [first_hit]; [contradiction|].
    destruct (Z.eqb_spec (PerformForeignLookup (Some name) symbol) 0)
      as [Hz|Hnz]; cbn [negb].
    - intros Hrest. destruct (IH Hrest) as (name' & Hin' & Heq).
      exists name'. split; [now right | exact Heq].
    - intros _. exists name. split; [now left | reflexivity]. }
  destruct (Hin _ Hfound) as (name & Hname & Heq).
  exists name. split; [now apply in_rev | exact Heq].
Qed.

End Registry.

(** ** Looking up foreign functions, converting ports, writing memory *)

Section ForeignLookups.

Context {object_model : ObjectModel} {heap_ : Heap} {platform : Platform}
        {libc : Libc} {foreign_code : ForeignCode}
        {dynamic_loader : DynamicLoader} {allocator : Allocator}
        {object_kinds : ObjectKinds}.

Hypothesis allocate_fresh :
  forall h, allocate h <> 0 /\ h !! allocate h = None.

(** X23. [ForeignLookup] with the default libraries [names] registered:
    the library named by the second argument is asked first (the
    program itself when that argument is no String), then the default
    libraries from the newest to the oldest, and a library whose handle
    does not close counts as not having the symbol.  The first address
    found is answered as an integer and nothing is printed; when there
    is none, the line naming the symbol goes to stderr and the answer
    is the index-out-of-bounds failure. *)
Theorem ForeignLookup_order (names : list string) (prog : Program) (p : Process)
        (arguments : list Z) (library_object name_object : Z) (name : string) :
  arguments !! 1%nat = Some library_object ->
  arguments !! 0%nat = Some name_object ->
  AsForeignString prog p name_object = Some name ->
  exists ffi,
    add_libraries names (Setup no_libraries) = Some ffi /\
    let library := AsForeignString prog p library_object in
    let handle := dlopen library in
    let explicit :=
      if (handle =? 0) || negb (dlclose handle =? 0) then 0
      else dlsym handle name in
    let address :=
      if explicit =? 0 then first_hit (rev names) name else explicit in
    Foreign.ForeignLookup ffi prog p arguments =
      if address =? 0
      then Some (Failure_index_out_of_bounds,
                 emit (Write stderr (Literal (Foreign.failed_lookup name))) p)
      else Some (FFI.ToInteger prog p address).
Proof.
  intros H1 H0 Hname.
  destruct (lookup_after_adds allocate_fresh names)
    as (ffi & Hadd & Hlookup).
  exists ffi. split; [exact Hadd|]. cbn zeta.
  unfold Foreign.ForeignLookup. rewrite H1, H0. cbn [mbind option_bind].
  rewrite Hname. cbn [mbind option_bind].
  assert (Hexplicit :
    PerformForeignLookup (AsForeignString prog p library_object) name
    = if (dlopen (AsForeignString prog p library_object) =? 0)
         || negb (dlclose (dlopen (AsForeignString prog p library_object)) =? 0)
      then 0
      else dlsym (dlopen (AsForeignString prog p library_object)) name).
  { unfold PerformForeignLookup.
    destruct (dlopen (AsForeignString prog p library_object) =? 0);
      [reflexivity|].
    cbn [orb].
    destruct (negb (dlclose (dlopen (AsForeignString prog p library_object)) =? 0));
      reflexivity. }
  rewrite Hexplicit.
  set (explicit := if _ || _ then 0 else _).
  destruct (Z.eqb_spec explicit 0) as [Hz|Hnz].
  - rewrite Hlookup. cbn [mbind option_bind].
    destruct (first_hit (rev names) name =? 0); reflexivity.
  - cbn [mbind option_bind].
    destruct (Z.eqb_spec explicit 0); [contradiction|]. reflexivity.
Qed.

End ForeignLookups.

Section PortsAndMemory.

Context {object_model : ObjectModel} {heap_ : Heap} {platform : Platform}
        {libc : Libc} {foreign_code : ForeignCode}
        {dynamic_loader : DynamicLoader} {object_kinds : ObjectKinds}.


Lemma store_bytes_above n : forall address v m m' a,
  store_bytes n address v m = Some m' ->
  address + Z.of_nat n <= a -> m' !! a = m !! a.
Proof.
  induction n as [|n IH]; intros address v m m' a; simpl.
  - now intros [= ->].
  - destruct (m !! address); [|discriminate]. intros Hs Ha.
    rewrite (IH _ _ _ _ a Hs) by lia.
    apply lookup_insert_ne. lia.
Qed.

Lemma load_bytes_ext n : forall address m m',
  (forall i, 0 <= i < Z.of_nat n -> m' !! (address + i) = m !! (address + i)) ->
  load_bytes n address m' = load_bytes n address m.
Proof.
  induction n as [|n IH]; intros address m m' Hsame; simpl; [reflexivity|].
  pose proof (Hsame 0 ltac:(lia)) as H0. rewrite Z.add_0_r in H0. rewrite H0.
  rewrite (IH (address + 1) m m'); [reflexivity|].
  intros i Hi. replace (address + 1 + i) with (address + (i + 1)) by lia.
  apply Hsame. lia.
Qed.

(** X25. A typed [ForeignSet] writes the bytes of its own cell and no
    others: a [ForeignGet] of any type at a cell that does not overlap
    the written one reads the same value after the write as before. *)
Theorem ForeignSet_leaves_other_cells (prog : Program) (p p' : Process)
        (t t' : ctype) (address_object value other_object address other : Z) :
  FFI.AsForeignWord prog p address_object = Some address ->
  FFI.AsForeignWord prog p other_object = Some other ->
  other + Z.of_nat (sizeof t') <= address \/
    address + Z.of_nat (sizeof t) <= other ->
  FFI.ForeignSet t prog p [address_object; value] = Some (value, p') ->
  load_typed t' other (memory p') = load_typed t' other (memory p) /\
  (forall a, a < address \/ address + Z.of_nat (sizeof t) <= a ->
             memory p' !! a = memory p !! a) /\
  match load_typed t' other (memory p) with
  | Some stored =>
      FFI.ForeignGet t' prog p' [other_object]
        = Some (FFI.ToInteger prog p' stored)
  | None => FFI.ForeignGet t' prog p' [other_object] = None
  end.
Proof.
  intros Haddr Hother Hapart Hset.
  unfold FFI.ForeignSet, FFI.foreign_word in Hset. cbn in Hset.
  rewrite Haddr in Hset. cbn in Hset.
  destruct (FFI.AsForeignWord prog p value) as [w|]; [|discriminate].
  cbn in Hset. unfold store_typed in Hset.
  destruct (store_bytes (sizeof t) address (convert t w) (memory p))
    as [m'|] eqn:Hstore; [|discriminate].
  cbn in Hset. injection Hset as <-.
  assert (Hsame : forall a, a < address \/ address + Z.of_nat (sizeof t) <= a ->
                            m' !! a = memory p !! a).
  { intros a [Hlo|Hhi].
    - eapply store_bytes_below; eauto.
    - eapply store_bytes_above; eauto. }
  assert (Hload : load_typed t' other m' = load_typed t' other (memory p)).
  { unfold load_typed. erewrite load_bytes_ext; [reflexivity|].
    intros i Hi. apply Hsame. lia. }
  cbn [memory set_memory].
  split; [exact Hload|]. split; [exact Hsame|].
  unfold FFI.ForeignGet, FFI.foreign_word. cbn.
  rewrite AsForeignWord_set_memory, Hother. cbn. rewrite Hload.
  destruct (load_typed t' other (memory p)); reflexivity.
Qed.

End PortsAndMemory.

(** ** The further properties on the example programs *)

Section MoreWitnesses.

#[local] Existing Instance Example.object_model.
#[local] Existing Instance Example.selectors.
#[local] Existing Instance Example.bytecodes.
#[local] Existing Instance Example.heap_.
#[local] Existing Instance Example.natives.
#[local] Existing Instance Example.stack_walker.
#[local] Existing Instance Example.method_lookup.
#[local] Existing Instance Example.platform.
#[local] Existing Instance Example.libc.
#[local] Existing Instance Example.foreign_code.
#[local] Existing Instance Sample.more_bytecodes.
#[local] Existing Instance Sample.tables.
#[local] Existing Instance Sample.dynamic_loader.
#[local] Existing Instance Sample.allocator.
#[local] Existing Instance Sample.object_kinds.

Ltac discharge H :=
  repeat match type of H with
         | ?A -> _ =>
             let a := fresh in
             assert (a : A)
               by (first [reflexivity | cbn; lia | discriminate
                         | intros; cbn; lia]);
             specialize (H a); clear a
         end.

(** Saving and restoring at bytecode 600 with four operands. *)
Lemma SaveState_RestoreState_round_trip_witness :
  let s := Sample.state_on Sample.operands 3 600 None in
  exists s1 s2 st',
    SaveState s = Some (tt, s1) /\
    RestoreState s1 = Some (tt, s2) /\
    registers_of s s2 /\
    Process_stack (process s2) = Some st' /\
    same_operands 3 Sample.operands st' /\
    top st' = 3 + 1 /\
    slot_at st' (3 + 1) = Some 600.
Proof.
  intros s.
  destruct (SaveState_RestoreState_round_trip s Sample.operands) as [Hround _];
    [reflexivity | cbn; lia |].
  apply Hround. cbn. lia.
Defined.

(** The subroutine call at 600 jumps 20 bytes ahead with return delta
    9; a return at 640 comes back to 631. *)
Lemma Subroutine_round_trip_witness :
  let s := Sample.state_on Sample.operands 3 600 None in
  exists s1 s2,
    Ops.SubroutineCall s = Some (DISPATCH, s1) /\
    bcp s1 = 620 /\
    Ops.SubroutineReturn (set_bcp 640 s1) = Some (DISPATCH, s2) /\
    bcp s2 = 631 /\
    sp s2 = 3.
Proof.
  intros s.
  destruct (Subroutine_round_trip s Sample.operands 20 9)
    as (s1 & Hcall & Hbcp & _ & _ & Hreturn);
    try reflexivity; try (cbn; lia).
  destruct (Hreturn 640) as (s2 & Hret & Hbcp2 & Hsp2 & _).
  exists s1, s2. repeat split; assumption.
Defined.

(** Two negations of the true object in slot 2. *)
Lemma Negate_involution_witness :
  let s := Sample.state_on Sample.operands 2 600 None in
  exists s1 s2,
    Ops.Negate s = Some (DISPATCH, s1) /\
    Top s1 = Some (21, s1) /\
    Ops.Negate s1 = Some (DISPATCH, s2) /\
    process s2 = process s /\
    sp s2 = 2 /\
    bcp s2 = 602.
Proof.
  intros s.
  destruct (Negate_involution s Sample.operands 13)
    as [Hbool _]; try reflexivity.
  apply (Hbool true). reflexivity.
Defined.

(** Storing 62 into the box 901 one slot down, and loading it back. *)
Lemma StoreBoxed_LoadBoxed_witness :
  let s := Sample.state_on Sample.operands 4 610 None in
  exists s1 s2,
    Ops.StoreBoxed s = Some (DISPATCH, s1) /\
    sp s1 = 4 /\
    Process_stack (process s1) = Some Sample.operands /\
    heap (process s1) !! 901 = Some (HBoxed 62) /\
    (forall o, o <> 901 -> heap (process s1) !! o = heap (process s) !! o) /\
    Ops.LoadBoxed s1 = Some (DISPATCH, s2) /\
    sp s2 = 4 + 1 /\
    bcp s2 = 610 + 2 + 2 /\
    Top s2 = Some (62, s2).
Proof.
  intros s.
  pose proof (StoreBoxed_LoadBoxed s Sample.operands 1 62 901 5) as H.
  discharge H. exact H.
Defined.

(** Storing 64 into field 1 of the instance 905. *)
Lemma StoreField_LoadField_witness :
  let s := Sample.state_on Sample.operands 6 620 None in
  exists s1,
    Ops.StoreField s = Some (DISPATCH, s1) /\
    sp s1 = 6 - 1 /\
    Top s1 = Some (64, s1) /\
    heap (process s1) !! 905 = Some (HInstance [1; 64]).
Proof.
  intros s.
  destruct (StoreField_LoadField s Sample.operands
                                 1 64 905 [1; 2])
    as (s1 & Hrun & Hsp & _ & Htop & Hheap & _);
    try reflexivity; try (cbn; lia).
  exists s1. repeat split; assumption.
Defined.

(** A yield of the true object at 701 terminates the process; resuming
    finds null in its place. *)
Lemma ProcessYield_effect_witness :
  let s := Sample.state_on Sample.operands 2 701 None in
  exists s1 s2,
    Ops.ProcessYield s = Some (Return_ kTerminate, s1) /\
    RestoreState s1 = Some (tt, s2) /\
    sp s2 = 2 /\
    bcp s2 = 702 /\
    Top s2 = Some (9, s2).
Proof.
  intros s.
  pose proof (ProcessYield_effect s Sample.operands 13) as H.
  discharge H.
  destruct H as (s1 & s2 & Hrun & Hrestore & Hsp & Hbcp & Htop & _).
  exists s1, s2.
  split; [exact Hrun|]. split; [exact Hrestore|]. split; [exact Hsp|].
  split; [exact Hbcp | exact Htop].
Defined.

(** Coroutine 17 changes to coroutine 33 with argument 66. *)
Lemma CoroutineChange_round_trip_witness :
  let s := Sample.state_on Sample.change_frame 2 680 None in
  exists s1,
    Ops.CoroutineChange s = Some (DISPATCH, s1) /\
    coroutine (process s1) = 33 /\
    bcp s1 = 561 /\
    sp s1 = 1 /\
    Process_stack (process s1) = Some (upd Sample.suspended33 1 66).
Proof.
  intros s.
  pose proof (CoroutineChange_round_trip s Sample.change_frame Sample.suspended33
                                         66 33 560 None None) as H.
  cbv zeta in H. discharge H.
  destruct H as (s1 & stA1 & Hrun & Hco & Hbcp & Hsp & Hstack & _).
  exists s1.
  split; [exact Hrun|]. split; [exact Hco|]. split; [exact Hbcp|].
  split; [exact Hsp | exact Hstack].
Defined.

(** The static invoke at 530 enters function 201 at 1000 and leaves 535
    as return address. *)
Lemma static_call_and_return_witness :
  let s := Example.state_on 17 Example.frame 3 530 in
  exists s1 st1,
    execute_more kInvokeStatic s = Some (DISPATCH, s1) /\
    bcp s1 = 1000 /\
    sp s1 = 4 /\
    Process_stack (process s1) = Some st1 /\
    slot_at st1 4 = Some 535.
Proof.
  intros s.
  pose proof (static_call_and_return kInvokeStatic s Example.frame 201 0 1000) as H.
  discharge H.
  destruct H as (s1 & st1 & Hrun & Hbcp & Hsp & Hstack & Hra & _).
  exists s1, st1.
  split; [exact Hrun|]. split; [exact Hbcp|]. split; [exact Hsp|].
  split; [exact Hstack|]. rewrite Hsp in Hra. exact Hra.
Defined.

(** Storing 64 into static 0 and loading it back. *)
Lemma StoreStatic_LoadStatic_witness :
  let s := Sample.state_on Sample.operands 6 660 None in
  exists s1 s2,
    Ops.StoreStatic s = Some (DISPATCH, s1) /\
    heap (process s1) !! 801 = Some (HArray [64; 9]) /\
    Ops.LoadStatic s1 = Some (DISPATCH, s2) /\
    sp s2 = 7 /\
    Top s2 = Some (64, s2).
Proof.
  intros s.
  pose proof (StoreStatic_LoadStatic s Sample.operands 0 64 [9; 9]) as H.
  discharge H.
  destruct H as (s1 & s2 & Hstore & _ & _ & Hheap & _ & Hload & Hsp & _ & Htop).
  exists s1, s2.
  split; [exact Hstore|]. split; [exact Hheap|]. split; [exact Hload|].
  split; [exact Hsp | exact Htop].
Defined.

(** Static 0 holds null, which is no initializer: it is pushed. *)
Lemma LoadStaticInit_cases_witness :
  let s := Sample.state_on Sample.operands 6 660 None in
  exists s1,
    Ops.LoadStaticInit s = Some (DISPATCH, s1) /\
    sp s1 = 7 /\
    bcp s1 = 665 /\
    Top s1 = Some (9, s1).
Proof.
  intros s.
  pose proof (LoadStaticInit_cases s Sample.operands 0 9 [9; 9]) as H.
  discharge H. destruct H as [Hplain _].
  exact (Hplain eq_refl).
Defined.

(** The true object on top at 630, where the operand is 2:
    [BranchIfTrueLong] jumps to 632, [BranchIfFalseLong] falls through
    to 635. *)
Lemma conditional_branches_witness :
  let s := Sample.state_on Sample.operands 2 630 None in
  Ops.BranchIfTrueLong s = Some (DISPATCH, set_bcp 632 (set_sp 1 s)) /\
  Ops.BranchIfFalseLong s = Some (DISPATCH, set_bcp 635 (set_sp 1 s)).
Proof.
  intros s.
  pose proof (conditional_branches s Sample.operands 13) as H.
  discharge H. cbv zeta in H. destruct H as [Hforward _].
  exact (Hforward 2 eq_refl).
Defined.

(** The native at 520 answers 4096: the engine returns to 535 with the
    answer in place of the argument. *)
Lemma InvokeNative_effect_witness :
  let s := Example.state_on 17 Example.frame 2 520 in
  exists s',
    Op.InvokeNative s = Some (DISPATCH, s') /\
    bcp s' = 535 /\
    sp s' = 1 /\
    Top s' = Some (4096, s').
Proof.
  intros s.
  pose proof (InvokeNative_effect s Example.frame Example.frame 1 0 4096
                                  (process s)) as H.
  discharge H.
  destruct H as [_ Hregular].
  pose proof (Hregular eq_refl 535) as H. discharge H.
  destruct H as (s' & Hrun & Hbcp & Hsp & _ & Htop).
  exists s'.
  split; [exact Hrun|]. split; [exact Hbcp|]. split; [exact Hsp | exact Htop].
Defined.

(** The receiver 401, of class id 7, tested with the dispatch-table
    index 0: the row found is the one of function 201, and the answer
    is the true object. *)
Lemma InvokeTestFast_same_row_witness :
  let s := Example.state_on 17 Example.frame 1 530 in
  exists s' row_offset lower upper,
    Ops.InvokeTestFast s = Some (DISPATCH, s') /\
    row_at (dispatch_table Example.prog) 0 row_offset = Some (lower, upper, 201) /\
    Top s' = Some (13, s').
Proof.
  intros s.
  pose proof (InvokeTestFast_same_row s Example.frame 0 401 105 7 201) as H.
  discharge H.
  destruct H as (s' & row_offset & lower & upper & Hrun & Hrow & Hholds & _ & _ & Htop).
  exists s', row_offset, lower, upper.
  split; [exact Hrun|]. split; [exact Hrow|].
  eassert (Hcomputed : Ops.InvokeTestFast s = Some (DISPATCH, _))
    by reflexivity.
  rewrite Hrun in Hcomputed. injection Hcomputed as ->. reflexivity.
Defined.

(** Unwinding out of coroutine 17 into its caller 33, which has a catch
    block at 700. *)
Lemma HandleThrow_unwinds_to_catcher_witness :
  let p := Example.process_on 17 Example.frame in
  HandleThrow 2 Example.prog p 44 = Some (Caught 700 2 (unwound_to 33 p)) /\
  heap (unwound_to 33 p) !! 17 = Some (HCoroutine None (Some 17)) /\
  output (unwound_to 33 p) = output p.
Proof.
  intros p.
  assert (Hnone : forall (j : nat) pj,
    (j < 1)%nat -> unwind_rounds j p = Some pj ->
    fst (ComputeCatchBlock Example.prog pj) = 0).
  { intros j pj Hj Hpj. destruct j as [|j]; [|lia].
    injection Hpj as <-. reflexivity. }
  destruct (HandleThrow_unwinds_to_catcher 1 Example.prog p (unwound_to 33 p) 44
              eq_refl Hnone)
    as (_ & Hcatch & Hdone & _ & Hout & _).
  split; [apply (Hcatch 700 2 2%nat); [reflexivity | discriminate | lia]|].
  split; [apply (Hdone 0%nat p); [lia | reflexivity] | exact Hout].
Defined.

(** The program at 700 pushes the true object and yields: [Interpret]
    returns [kTerminate] with the state saved behind the yield. *)
Lemma Interpret_returns_saved_witness :
  let s := Sample.state_on Sample.operands 2 700 None in
  exists s',
    Interpret 3 s = Some (Interrupted kTerminate, s') /\
    kTerminate <> kReady /\
    state_saved s' /\
    bcp s' = 702.
Proof.
  intros s.
  assert (Hdeclined : forall prog p size p',
    Process_HandleStackOverflow prog p size = (false, p') ->
    Process_stack p' = Process_stack p)
    by (intros prog p size p' [= <-]; reflexivity).
  eassert (Hrun : Interpret 3 s = Some (Interrupted kTerminate, _))
    by reflexivity.
  destruct (Interpret_returns_saved Hdeclined 3 s _ kTerminate Hrun)
    as [Hready Hsaved].
  eexists. split; [exact Hrun|].
  split; [exact Hready|]. split; [apply Hsaved; discriminate | reflexivity].
Defined.

Lemma Sample_allocate_fresh :
  forall h : gmap Z Block, allocate h <> 0 /\ h !! allocate h = None.
Proof.
  intros h. cbn [allocate Sample.allocator].
  pose proof (is_fresh ({[0]} ∪ dom h)) as Hfresh.
  split.
  - intros Heq. apply Hfresh. rewrite Heq. set_solver.
  - apply not_elem_of_dom. set_solver.
Qed.

(** Two libraries registered and torn down: five blocks, then none. *)
Lemma TearDown_releases_every_block_witness :
  exists ffi ffi',
    add_libraries ["libc.so"; "libm.so"]%string (Setup no_libraries) = Some ffi /\
    size (blocks ffi) = 5%nat /\
    TearDown ffi = Some ffi' /\
    blocks ffi' = ∅ /\
    libraries_ ffi' = libraries_ ffi /\
    (["libc.so"; "libm.so"]%string <> [] -> libraries_ ffi' <> 0).
Proof.
  exact (TearDown_releases_every_block Sample_allocate_fresh
           ["libc.so"; "libm.so"]%string).
Defined.

(** With [libc.so] registered before [libm.so], [puts] is found in the
    older library after the newer one has been asked. *)
Lemma LookupInDefaultLibraries_newest_first_witness :
  exists ffi,
    add_libraries ["libc.so"; "libm.so"]%string (Setup no_libraries) = Some ffi /\
    LookupInDefaultLibraries "puts" ffi = Some 4242.
Proof.
  destruct (LookupInDefaultLibraries_newest_first Sample_allocate_fresh
              ["libc.so"; "libm.so"]%string) as (ffi & Hadd & _ & Hlookup).
  exists ffi. split; [exact Hadd | exact (proj1 (Hlookup "puts"%string))].
Defined.

(** A lookup of [puts] with null as library: the program itself does
    not answer, the default library [libc.so] does. *)
Lemma ForeignLookup_order_witness :
  let p := Sample.process_on 17 Sample.operands None in
  exists ffi,
    add_libraries ["libc.so"]%string (Setup no_libraries) = Some ffi /\
    Foreign.ForeignLookup ffi Sample.prog p [1001; 9] = Some (8484, p).
Proof.
  intros p.
  pose proof (ForeignLookup_order Sample_allocate_fresh ["libc.so"]%string
                Sample.prog p [1001; 9] 9 1001 "puts") as H.
  discharge H. destruct H as (ffi & Hadd & Hlookup).
  exists ffi. split; [exact Hadd | exact Hlookup].
Defined.

Lemma Example_small_integers v :
  Smi_IsValid v = true ->
  IsSmi (Smi_FromWord v) = true /\ Smi_value (Smi_FromWord v) = v.
Proof.
  intros _. cbn [IsSmi Smi_FromWord Smi_value Example.object_model]. split.
  - rewrite Z.even_mul. reflexivity.
  - rewrite Z.mul_comm. apply Z.div_mul. discriminate.
Qed.


(** Writing -1 as [int32] at 8192 leaves the [int32] at 8196 zero. *)
Lemma ForeignSet_leaves_other_cells_witness :
  let p := Sample.process_on 17 Sample.operands None in
  exists p',
    FFI.ForeignSetInt32 Sample.prog p [16384; -2] = Some (-2, p') /\
    load_typed int32 8196 (memory p') = load_typed int32 8196 (memory p) /\
    FFI.ForeignGetInt32 Sample.prog p' [16392] = Some (0, p').
Proof.
  intros p.
  assert (Hset : exists p',
    FFI.ForeignSet int32 Sample.prog p [16384; -2] = Some (-2, p'))
    by (eexists; reflexivity).
  destruct Hset as [p' Hset].
  pose proof (ForeignSet_leaves_other_cells Sample.prog p p' int32 int32
                16384 (-2) 16392 8192 8196) as H.
  discharge H. specialize (H Hset).
  destruct H as (Hload & _ & Hget).
  exists p'. split; [exact Hset|]. split; [exact Hload | exact Hget].
Defined.

End MoreWitnesses.

Section RoomlessWitnesses.

#[local] Existing Instance Example.object_model.
#[local] Existing Instance Example.selectors.
#[local] Existing Instance Example.bytecodes.
#[local] Existing Instance Sample.heap_.
#[local] Existing Instance Example.natives.
#[local] Existing Instance Example.stack_walker.
#[local] Existing Instance Example.method_lookup.
#[local] Existing Instance Sample.more_bytecodes.
#[local] Existing Instance Sample.tables.

Ltac discharge H :=
  repeat match type of H with
         | ?A -> _ =>
             let a := fresh in
             assert (a : A)
               by (first [reflexivity | cbn; lia | discriminate
                         | intros; cbn; lia]);
             specialize (H a); clear a
         end.

(** The check for two more slots at 630, on a stack of four slots that
    does not grow: the engine is interrupted at the check. *)
Lemma StackOverflowCheck_cases_witness :
  let s := Sample.state_on Sample.operands 3 630 None in
  Ops.StackOverflowCheck s
    = Some (Return_ kInterrupt, saved_state s Sample.operands) /\
  bcp (saved_state s Sample.operands) = 630.
Proof.
  intros s.
  pose proof (StackOverflowCheck_cases s Sample.operands 2) as H.
  discharge H. destruct H as [_ Hfull].
  destruct (Hfull ltac:(cbn; lia) false (process (saved_state s Sample.operands))
                  eq_refl) as [Hdeclined _].
  destruct (Hdeclined eq_refl) as (Hrun & Hbcp & _).
  split; [exact Hrun | exact Hbcp].
Defined.

(** [Allocate 1] at 640 instantiates class 109, which has two fields:
    the operands 901 and 62 become the fields of the instance 701. *)
Lemma allocation_fills_fields_witness :
  let s := Sample.state_on Sample.operands 4 640 None in
  exists s' filled,
    execute 1 kAllocate s = Some (DISPATCH, s') /\
    sp s' = 3 /\
    bcp s' = 645 /\
    Top s' = Some (701, s') /\
    heap (process s') !! 701 = Some (HInstance filled) /\
    filled !! 0%nat = Some 901 /\
    filled !! 1%nat = Some 62.
Proof.
  intros s.
  pose proof (allocation_fills_fields 1 kAllocate s
                (set_process
                   (set_heap (<[701 := HInstance [0; 0]]> (heap (process s)))
                             (process s)) s)
                Sample.operands 109 701 1 2 [0; 0]) as H.
  discharge H.
  destruct H as (s' & filled & Hrun & Hsp & Hbcp & Htop & Hheap & _ & Hfields).
  exists s', filled.
  split; [exact Hrun|]. split; [exact Hsp|]. split; [exact Hbcp|].
  split; [exact Htop|]. split; [exact Hheap|].
  split; [exact (Hfields 0 ltac:(lia)) | exact (Hfields 1 ltac:(lia))].
Defined.

(** The receiver 401 tested with the selector of id 2: the vtable entry
    at 7 + 2 stores the offset 2, so the answer is the true object and
    the function is the one of that entry. *)
Lemma InvokeTestVtable_tells_fallback_witness :
  let s := Sample.state_on Sample.operands 1 650 None in
  exists s' (answer : bool) entry_ref entry,
    Ops.InvokeTestVtable s = Some (DISPATCH, s') /\
    Top s' = Some (13, s') /\
    Array_get (vtable Sample.prog) (if answer then 7 + 2 else 0) = Some entry_ref /\
    Array_elements Sample.prog (process s) entry_ref = Some entry /\
    Array_get entry 2 = Some 201.
Proof.
  intros s.
  pose proof (InvokeTestVtable_tells_fallback s Sample.operands 2048 401 105 7 201)
    as H.
  cbv zeta in H. discharge H.
  destruct H as (s' & answer & entry_ref & entry & Hrun & _ & _ & _ & Hentry
                 & Helements & Hfunction).
  exists s', answer, entry_ref, entry.
  split; [exact Hrun|].
  split; [|split; [exact Hentry|split; [exact Helements | exact Hfunction]]].
  eassert (Hcomputed : Ops.InvokeTestVtable s = Some (DISPATCH, _))
    by (vm_compute; reflexivity).
  rewrite Hrun in Hcomputed. injection Hcomputed as ->. reflexivity.
Defined.

(** A backward branch at 700 with the stack pointer at the limit. *)
Lemma back_branches_poll_witness :
  let s := Sample.state_on Sample.operands 4 700 None in
  execute_more kBranchBack s
    = Some (Return_ kInterrupt, saved_state s Sample.operands) /\
  sp (saved_state s Sample.operands) = 5 /\
  bcp (saved_state s Sample.operands) = 700.
Proof.
  intros s.
  pose proof (back_branches_poll kBranchBack s Sample.operands
                                 (process (saved_state s Sample.operands))) as H.
  discharge H.
  destruct H as (Hrun & Hsp & Hbcp & _).
  split; [exact Hrun|]. split; [exact Hsp | exact Hbcp].
Defined.

(** A breakpoint at 700 and a process that is not marked: [Interpret]
    returns at once. *)
Lemma breakpoint_gate_witness :
  let s := Sample.state_on Sample.operands 2 700
             (Some (Sample.break_at_700 false)) in
  exists s',
    Interpret 1 s = Some (Interrupted kBreakPoint, s') /\
    state_saved s' /\
    sp s' = 3 /\
    bcp s' = 700.
Proof.
  intros s.
  pose proof (breakpoint_gate 0 s Sample.operands (Sample.break_at_700 false)) as H.
  discharge H. destruct H as [Hunmarked _].
  exact (Hunmarked eq_refl).
Defined.

End RoomlessWitnesses.

